(** * gmail_ollama_filter: a shallow embedding of [main.py]

    The script sorts Gmail inbox messages into [AI_AUTO_*] folders by asking
    an Ollama model whether a message resembles a folder's examples.  This
    file embeds the decision pipeline of [main.py] (content extraction,
    example loading, prompt rendering, answer interpretation, the category
    loop and the relabel request) and proves properties of it.

    Conventions.
    - A Python [str] is a list of Unicode code points ([pystr]).  The ASCII
      part of the character database is written out; what CPython's tables
      say about code points from 128 on is a parameter ([Unicode]), and so
      is [str.format]'s rendering of a replacement field with a lookup, a
      conversion or a format specification.
    - The Gmail service and the Ollama client are external: their answers
      come from an environment through a record of oracles ([Service]), and
      every call is recorded in a trace.
    - [exit(1)] and exceptions nobody catches are outcomes of a small state
      and exit monad ([M]).
    - Log lines are not modelled. *)

From Stdlib Require Import ZArith NArith List Bool Lia.
From Stdlib Require Strings.String Strings.Ascii.
From Stdlib Require Import Numbers.DecimalString.
From stdpp Require Import base option gmap.
Import ListNotations.
Import String.StringSyntax Ascii.AsciiSyntax.

Set Default Proof Using "Type".

(* ================================================================== *)
(** * Python strings *)
(* ================================================================== *)

Module PyStr.

(** A code point. *)
Definition char := N.
(** A Python [str]. *)
Definition pystr := list char.

Definition of_ascii (a : Ascii.ascii) : char := Ascii.N_of_ascii a.

(** An ASCII literal as a [pystr]. *)
Definition str (s : String.string) : pystr :=
  List.map of_ascii (String.list_ascii_of_string s).
Arguments str s%_string_scope.

Fixpoint eqb (a b : pystr) : bool :=
  match a, b with
  | [], [] => true
  | x :: a', y :: b' => N.eqb x y && eqb a' b'
  | _, _ => false
  end.

(** What the model takes from the interpreter instead of writing it out:
    what its Unicode tables say outside ASCII, and what [str.format] makes
    of a replacement field that is more than a name. *)
Record Unicode := {
  (** [str.isspace] of a code point from 128 on *)
  uni_isspace : char -> bool;
  (** [str.isalnum] of a code point from 128 on *)
  uni_isalnum : char -> bool;
  (** [str.upper] of a code point from 128 on (may be several code points) *)
  uni_upper : char -> pystr;
  (** [str.lower] of a code point from 128 on *)
  uni_lower : char -> pystr;
  (** whether, under [re.IGNORECASE], the ASCII pattern character (first
      argument) matches the non-ASCII subject character (second argument) *)
  uni_caseless : char -> char -> bool;
  (** [str.format] on one replacement field that has an attribute or index
      lookup, a conversion or a format specification, its first name being
      one of the keyword arguments: the text put in its place, or [None]
      when that raises.  First argument: the text of the field between its
      braces; second: the keyword arguments, each as [str] gives it. *)
  py_format_field : pystr -> list (pystr * pystr) -> option pystr
}.

Definition is_ascii (c : char) : bool := (c <? 128)%N.

Definition in_range (lo hi c : N) : bool := ((lo <=? c) && (c <=? hi))%N.

(** ASCII whitespace of CPython: TAB, LF, VT, FF, CR, FS, GS, RS, US, SPACE. *)
Definition ascii_isspace (c : char) : bool := in_range 9 13 c || in_range 28 32 c.

Definition ascii_isupper (c : char) : bool := in_range 65 90 c.
Definition ascii_islower (c : char) : bool := in_range 97 122 c.
Definition ascii_isdigit (c : char) : bool := in_range 48 57 c.
Definition ascii_isalnum (c : char) : bool :=
  ascii_isupper c || ascii_islower c || ascii_isdigit c.

Definition ascii_upper (c : char) : char := if ascii_islower c then (c - 32)%N else c.
Definition ascii_lower (c : char) : char := if ascii_isupper c then (c + 32)%N else c.

Section WithUnicode.
Variable U : Unicode.

Definition isspace (c : char) : bool :=
  if is_ascii c then ascii_isspace c else uni_isspace U c.

(** [\w] of a [str] pattern: alphanumeric or underscore. *)
Definition is_word (c : char) : bool :=
  if is_ascii c then ascii_isalnum c || (c =? 95)%N else uni_isalnum U c.

Definition upper_char (c : char) : pystr :=
  if is_ascii c then [ascii_upper c] else uni_upper U c.

(** [s.upper()] *)
Definition upper (s : pystr) : pystr := flat_map upper_char s.

Definition lower_char (c : char) : pystr :=
  if is_ascii c then [ascii_lower c] else uni_lower U c.

(** [s.lower()] *)
Definition lower (s : pystr) : pystr := flat_map lower_char s.

Fixpoint lstrip (s : pystr) : pystr :=
  match s with
  | [] => []
  | c :: s' => if isspace c then lstrip s' else s
  end.

Definition rstrip (s : pystr) : pystr := rev (lstrip (rev s)).

(** [s.strip()] *)
Definition strip (s : pystr) : pystr := rstrip (lstrip s).

Definition cons_word (w : pystr) (ws : list pystr) : list pystr :=
  match w with [] => ws | _ :: _ => w :: ws end.

(** The word in progress at the head of [s] and the words after it. *)
Fixpoint words (s : pystr) : pystr * list pystr :=
  match s with
  | [] => ([], [])
  | c :: s' =>
      let (w, ws) := words s' in
      if isspace c then ([], cons_word w ws) else (c :: w, ws)
  end.

(** [s.split()]: the maximal runs of non-whitespace characters. *)
Definition split (s : pystr) : list pystr :=
  let (w, ws) := words s in cons_word w ws.

End WithUnicode.

(** [sep.join(l)] *)
Fixpoint join (sep : pystr) (l : list pystr) : pystr :=
  match l with
  | [] => []
  | [x] => x
  | x :: l' => x ++ sep ++ join sep l'
  end.

(** [l[:n]] for a Python int [n]: a negative bound counts from the end. *)
Definition slice_to {A} (n : Z) (l : list A) : list A :=
  if (0 <=? n)%Z then firstn (Z.to_nat n) l
  else firstn (Z.to_nat (Z.of_nat (length l) + n)) l.

(** [str(n)] for a Python int. *)
Definition str_of_Z (n : Z) : pystr := str (NilZero.string_of_int (Z.to_int n)).

(** [s.startswith(p)], returning what follows the prefix. *)
Fixpoint strip_prefix (p s : pystr) : option pystr :=
  match p, s with
  | [], _ => Some s
  | x :: p', y :: s' => if N.eqb x y then strip_prefix p' s' else None
  | _ :: _, [] => None
  end.

End PyStr.
Import PyStr.

(* ================================================================== *)
(** * The regular expressions of the answer interpreter *)
(* ================================================================== *)

Module Re.
Section WithUnicode.
Variable U : Unicode.

Definition opt_word (c : option char) : bool :=
  match c with Some x => is_word U x | None => false end.

(** [\b] between the character before the position and the one after it:
    exactly one of the two is a word character (a missing neighbour at
    either end of the text counts as a non-word character). *)
Definition at_boundary (prev next : option char) : bool :=
  xorb (opt_word prev) (opt_word next).

(** [\bTOK\b] matched at the head of [s], [prev] being the character
    before it. *)
Definition match_token_here (tok : pystr) (prev : option char) (s : pystr) : bool :=
  at_boundary prev (head s) &&
  match strip_prefix tok s with
  | Some rest => at_boundary (last tok) (head rest)
  | None => false
  end.

(** [re.search(r'\bTOK\b', s)] is not [None], scanning from the head of
    [s] with [prev] the character before it. *)
Fixpoint search_token_from (tok : pystr) (prev : option char) (s : pystr) : bool :=
  match_token_here tok prev s ||
  match s with
  | [] => false
  | c :: s' => search_token_from tok (Some c) s'
  end.

Definition search_token (tok s : pystr) : bool := search_token_from tok None s.

End WithUnicode.
End Re.

(* ================================================================== *)
(** * The answer interpreter ([ollama_check_similarity], the block after
      [client.chat]) *)
(* ================================================================== *)

Definition YES : pystr := str "YES".
Definition NO : pystr := str "NO".

Section Interpreter.
Variable U : Unicode.

(** [raw_answer = content.strip(); processed_answer = raw_answer.upper()] *)
Definition processed_answer (content : pystr) : pystr :=
  upper U (strip U content).

(** The value [ollama_check_similarity] returns for the text [content] of
    the model's message. *)
Definition interpret_answer (content : pystr) : bool :=
  let processed := processed_answer content in
  if PyStr.eqb processed YES then true
  else if PyStr.eqb processed NO then false
  else if Re.search_token U YES processed && negb (Re.search_token U NO processed)
       then true
  else if Re.search_token U NO processed && negb (Re.search_token U YES processed)
       then false
  else false.

End Interpreter.


(* ================================================================== *)
(** * [re.sub] and the three patterns of the HTML branch *)
(* ================================================================== *)

Module Html.

Definition LT : char := 60%N.   (* '<' *)
Definition GT : char := 62%N.   (* '>' *)
Definition SPACE : pystr := str " ".

(** [re.sub(pattern, repl, s)] for a pattern that never matches the empty
    string.  [m s] is what follows the match of the pattern at the head of
    [s], if it matches there.  The scan goes left to right: a match is
    replaced and the scan resumes behind it, an unmatched character is
    copied.  [skip] counts the characters of the current match still to be
    passed over. *)
Fixpoint sub_from (m : pystr -> option pystr) (repl : pystr) (skip : nat)
    (s : pystr) : pystr :=
  match s with
  | [] => []
  | c :: s' =>
      match skip with
      | S k => sub_from m repl k s'
      | O =>
          match m s with
          | Some rest => repl ++ sub_from m repl (length s' - length rest) s'
          | None => c :: sub_from m repl 0 s'
          end
      end
  end.

Definition sub (m : pystr -> option pystr) (repl s : pystr) : pystr :=
  sub_from m repl 0 s.

(** [[^<]+?>] after its first character: the first ['>'] met before any
    ['<']. *)
Fixpoint tag_tail (s : pystr) : option pystr :=
  match s with
  | [] => None
  | c :: s' =>
      if N.eqb c GT then Some s'
      else if N.eqb c LT then None
      else tag_tail s'
  end.

(** [<[^<]+?>] at the head of [s]. *)
Definition match_tag (s : pystr) : option pystr :=
  match s with
  | l :: c :: s' => if N.eqb l LT && negb (N.eqb c LT) then tag_tail s' else None
  | _ => None
  end.

(** [[^<]*?] followed by something that starts with ['<']: everything up
    to the first ['<']. *)
Fixpoint skip_to_lt (s : pystr) : pystr :=
  match s with
  | [] => []
  | c :: s' => if N.eqb c LT then s else skip_to_lt s'
  end.

Section WithUnicode.
Variable U : Unicode.

(** A pattern character against a subject character under
    [re.IGNORECASE]: letters match in either case, other characters
    exactly. *)
Definition caseless_char (p c : char) : bool :=
  if ascii_isupper p || ascii_islower p then
    if is_ascii c then N.eqb (ascii_lower c) (ascii_lower p)
    else uni_caseless U p c
  else N.eqb p c.

(** A literal pattern at the head of [s] under [re.IGNORECASE]. *)
Fixpoint caseless_prefix (p s : pystr) : option pystr :=
  match p, s with
  | [], _ => Some s
  | x :: p', y :: s' => if caseless_char x y then caseless_prefix p' s' else None
  | _ :: _, [] => None
  end.

(** [<NAME[^<]*?</NAME>] at the head of [s], with [re.IGNORECASE]. *)
Definition match_block (name : pystr) (s : pystr) : option pystr :=
  match caseless_prefix (LT :: name) s with
  | Some s1 => caseless_prefix (str "</" ++ name ++ [GT]) (skip_to_lt s1)
  | None => None
  end.

(** The three substitutions of [extract_text_from_part] for [text/html]. *)
Definition strip_html (decoded_data : pystr) : pystr :=
  let html_text := sub (match_block (str "style")) SPACE decoded_data in
  let html_text := sub (match_block (str "script")) SPACE html_text in
  sub match_tag SPACE html_text.

End WithUnicode.
End Html.

(* ================================================================== *)
(** * Dates *)
(* ================================================================== *)

Module Date.

(** A [datetime.datetime] as [parsedate_to_datetime] builds it: naive
    ([tz = None]) or aware with a fixed-offset [datetime.timezone] whose
    [utcoffset] is [tz] seconds. *)
Record datetime := {
  year : Z; month : Z; day : Z;
  hour : Z; minute : Z; second : Z;
  tz : option Z
}.

(** [%02d] of a number between 0 and 99. *)
Definition pad2 (n : Z) : pystr :=
  if (n <? 10)%Z then str "0" ++ str_of_Z n else str_of_Z n.

(** [datetime.timezone._name_from_offset]: the name of a fixed-offset
    zone that was given none. *)
Definition name_from_offset (delta : Z) : pystr :=
  if (delta =? 0)%Z then str "UTC"
  else
    let sign := if (delta <? 0)%Z then str "-" else str "+" in
    let d := Z.abs delta in
    let hours := (d / 3600)%Z in
    let rest := (d mod 3600)%Z in
    let minutes := (rest / 60)%Z in
    let seconds := (rest mod 60)%Z in
    str "UTC" ++ sign ++ pad2 hours ++ str ":" ++ pad2 minutes ++
    (if (seconds =? 0)%Z then [] else str ":" ++ pad2 seconds).

(** [%Z]: the zone name, empty for a naive datetime. *)
Definition tzname (d : datetime) : pystr :=
  match tz d with
  | Some delta => name_from_offset delta
  | None => []
  end.

(** [d.strftime('%Y-%m-%d %H:%M:%S %Z')] (years from 1000 on). *)
Definition strftime (d : datetime) : pystr :=
  str_of_Z (year d) ++ str "-" ++ pad2 (month d) ++ str "-" ++ pad2 (day d) ++
  str " " ++ pad2 (hour d) ++ str ":" ++ pad2 (minute d) ++ str ":" ++
  pad2 (second d) ++ str " " ++ tzname d.

End Date.

(* ================================================================== *)
(** * Configuration and messages *)
(* ================================================================== *)

(** One piece of a parsed [str.format] template: literal text; a
    replacement field that is a name and nothing else, [{name}]; or a
    replacement field with an attribute or index lookup, a conversion or a
    format specification, kept as its first name and its text between the
    braces. *)
Inductive segment :=
| Lit (text : pystr)
| Field (name : pystr)
| Fancy (name field : pystr).

(** [config.json].  An option that the code reads with [CONFIG.get] is
    optional.  So is [ollama_host], which [ollama_check_similarity] reads
    with [CONFIG["ollama_host"]] inside a [try]: without it the [KeyError]
    is caught, and the handler, whose log line reads the key again, raises
    it once more. *)
Record Config := {
  ai_folder_prefix : pystr;
  inbox_label_name : option pystr;
  max_emails_to_scan_inbox : Z;
  max_examples_per_folder : option Z;
  max_body_length_for_llm : option Z;
  ollama_host : option pystr;
  ollama_model : option pystr;
  (** the template: a list of lines *)
  similarity_prompt_v3 : option (list pystr)
}.

(** [CONFIG.get(key, default)] *)
Definition get_default {A} (o : option A) (d : A) : A :=
  match o with Some a => a | None => d end.

Record header := { h_name : pystr; h_value : pystr }.

(** The [data] of a part's body, as the outcome of
    [base64.urlsafe_b64decode(data).decode('utf-8', errors='ignore')]. *)
Inductive body_data :=
| NoData                 (* no ['data'] key *)
| BadData                (* decoding raises *)
| Data (decoded : pystr).

(** A message part; [part_body] and [part_parts] are [None] when the key
    is absent. *)
#[local] Unset Elimination Schemes.
Inductive part :=
| Part (mimeType : pystr) (body : option body_data) (parts : option (list part)).
#[local] Set Elimination Schemes.

Definition part_mimeType (p : part) := let 'Part m _ _ := p in m.
Definition part_body (p : part) := let 'Part _ b _ := p in b.
Definition part_parts (p : part) := let 'Part _ _ ps := p in ps.

(** A raw message record of [messages().get(format='full')]. *)
Record message := {
  msg_id : pystr;
  msg_snippet : pystr;
  msg_headers : list header;
  msg_payload : part
}.

(** The dictionary [get_email_content] returns. *)
Record email_content := {
  id : pystr;
  snippet : pystr;
  subject : pystr;
  sender : pystr;
  body : pystr;
  received_date_str : pystr;
  received_datetime : option Date.datetime
}.

(* ================================================================== *)
(** * [get_email_content] *)
(* ================================================================== *)

Inductive text_kind := plain | html.

Section Extractor.
Variable U : Unicode.
(** [email.utils.parsedate_to_datetime]; [None] when it raises. *)
Variable parsedate_to_datetime : pystr -> option Date.datetime.
Variable CONFIG : Config.

(** The header loop: the values kept after each header. *)
Definition header_step (acc : pystr * pystr * option Date.datetime) (h : header)
    : pystr * pystr * option Date.datetime :=
  let '(subject, sender, received_datetime_obj) := acc in
  let name_lower := lower U (h_name h) in
  if PyStr.eqb name_lower (str "subject") then (h_value h, sender, received_datetime_obj)
  else if PyStr.eqb name_lower (str "from") then (subject, h_value h, received_datetime_obj)
  else if PyStr.eqb name_lower (str "date") then
    match parsedate_to_datetime (h_value h) with
    | Some d => (subject, sender, Some d)
    | None => acc
    end
  else acc.

Definition scan_headers (headers : list header) : pystr * pystr * option Date.datetime :=
  fold_left header_step headers ([], [], None).

Definition extract_text_from_part (part_data : part) : option (pystr * text_kind) :=
  match part_body part_data with
  | Some (Data decoded_data) =>
      if PyStr.eqb (part_mimeType part_data) (str "text/plain") then
        Some (decoded_data, plain)
      else if PyStr.eqb (part_mimeType part_data) (str "text/html") then
        Some (Html.strip_html U decoded_data, html)
      else None
  | _ => None
  end.

(** [if text: (plain_parts if type == 'plain' else html_parts).append(text)] *)
Definition append_text (acc : list pystr * list pystr)
    (r : option (pystr * text_kind)) : list pystr * list pystr :=
  let (plain_parts, html_parts) := acc in
  match r with
  | Some ((_ :: _) as text, plain) => (plain_parts ++ [text], html_parts)
  | Some ((_ :: _) as text, html) => (plain_parts, html_parts ++ [text])
  | _ => acc
  end.

(** The body of the loop over [payload['parts']]: the part itself, then
    its own parts; nothing below them. *)
Definition collect_part_item (acc : list pystr * list pystr) (part_item : part)
    : list pystr * list pystr :=
  let acc := append_text acc (extract_text_from_part part_item) in
  match part_parts part_item with
  | Some sub_parts =>
      fold_left (fun a sub_part_item =>
                   append_text a (extract_text_from_part sub_part_item))
                sub_parts acc
  | None => acc
  end.

(** [plain_parts] and [html_parts] at the end of the collection. *)
Definition collect_parts (payload : part) : list pystr * list pystr :=
  match part_parts payload with
  | Some parts => fold_left collect_part_item parts ([], [])
  | None =>
      match part_body payload with
      | Some _ => append_text ([], []) (extract_text_from_part payload)
      | None => ([], [])
      end
  end.

Definition NEWLINE : pystr := [10%N].

(** [body_text_content] before the whitespace is collapsed. *)
Definition collected_text (payload : part) : pystr :=
  let (plain_parts, html_parts) := collect_parts payload in
  match plain_parts with
  | _ :: _ => join NEWLINE plain_parts
  | [] => join NEWLINE html_parts
  end.

(** [' '.join(text.split())] *)
Definition collapse (text : pystr) : pystr := join (str " ") (split U text).

Definition max_len : Z := get_default (max_body_length_for_llm CONFIG) 1000%Z.

(** The value of the ["body"] entry. *)
Definition truncate (body_text_content : pystr) : pystr :=
  let stripped := strip U body_text_content in
  slice_to max_len stripped ++
  (if (Z.of_nat (length stripped) >? max_len)%Z then str "..." else []).

Definition get_email_content (message_data : message) : email_content :=
  let '(subject, sender, received_datetime_obj) :=
    scan_headers (msg_headers message_data) in
  let formatted_date :=
    match received_datetime_obj with
    | Some d => Date.strftime d
    | None => str "Unknown Date"
    end in
  let body_text_content := collapse (collected_text (msg_payload message_data)) in
  {| id := msg_id message_data;
     snippet := msg_snippet message_data;
     subject := strip U subject;
     sender := strip U sender;
     body := truncate body_text_content;
     received_date_str := formatted_date;
     received_datetime := received_datetime_obj |}.

(** [content["subject"] or content["body"]] *)
Definition has_content (content : email_content) : bool :=
  match subject content, body content with
  | [], [] => false
  | _, _ => true
  end.

End Extractor.

(* ================================================================== *)
(** * Dictionaries *)
(* ================================================================== *)

(** A Python [dict] with [str] keys: the entries in insertion order. *)
Module Dict.

Definition dict (V : Type) := list (pystr * V).

(** [d.get(k)] *)
Fixpoint get {V} (d : dict V) (k : pystr) : option V :=
  match d with
  | [] => None
  | (k', v) :: d' => if PyStr.eqb k' k then Some v else get d' k
  end.

(** [d[k] = v]: a known key keeps its place, a new one goes last. *)
Fixpoint set {V} (d : dict V) (k : pystr) (v : V) : dict V :=
  match d with
  | [] => [(k, v)]
  | (k', v') :: d' => if PyStr.eqb k' k then (k', v) :: d' else (k', v') :: set d' k v
  end.

(** [{k: v for k, v in items}] *)
Definition of_items {V} (items : list (pystr * V)) : dict V :=
  fold_left (fun d kv => set d (fst kv) (snd kv)) items [].

End Dict.

(* ================================================================== *)
(** * The Gmail service and the Ollama client *)
(* ================================================================== *)

(** What a call into a client library gives back: a value, or an
    exception derived from [Exception] ([HttpError], [ResponseError], ...). *)
Inductive result (A : Type) :=
| Returned (a : A)
| Raised.
Arguments Returned {A} a.
Arguments Raised {A}.

(** The [body] of a [messages().modify] request; [removeLabelIds] is
    [None] when the key is not set. *)
Record modify_body := {
  addLabelIds : list pystr;
  removeLabelIds : option (list pystr)
}.

(** The requests the script sends. *)
Inductive event :=
| ListLabels
| ListMessages (labelIds : list pystr) (q : option pystr) (maxResults : Z)
| GetMessage (msg : pystr)
| ModifyMessage (msg : pystr) (request : modify_body)
| NewClient (host : pystr)
| Chat (model prompt : pystr).

(** The collaborators, as oracles over an environment [Env].
    - [labels_list]: the [(name, id)] pairs of [labels().list];
    - [messages_list]: the ids of [results.get('messages', [])];
    - [messages_get]: the raw record of one message;
    - [messages_modify]: the relabel request;
    - [ollama_Client]: [ollama.Client(host=...)];
    - [ollama_chat]: [client.chat(...)], giving
      [response['message']['content']], or [None] when the response has
      no such entry. *)
Record Service (Env : Type) := {
  labels_list : Env -> result (list (pystr * pystr)) * Env;
  messages_list : list pystr -> option pystr -> Z -> Env -> result (list pystr) * Env;
  messages_get : pystr -> Env -> result message * Env;
  messages_modify : pystr -> modify_body -> Env -> result unit * Env;
  ollama_Client : pystr -> Env -> result unit * Env;
  ollama_chat : pystr -> pystr -> Env -> result (option pystr) * Env
}.
Arguments labels_list {Env}.
Arguments messages_list {Env}.
Arguments messages_get {Env}.
Arguments messages_modify {Env}.
Arguments ollama_Client {Env}.
Arguments ollama_chat {Env}.

(** The state of a run: the environment and the requests sent so far,
    oldest first. *)
Record state (Env : Type) := {
  env : Env;
  trace : list event
}.
Arguments env {Env}.
Arguments trace {Env}.

(** How a piece of the script ends: normally, by [exit(code)], or by an
    exception that nothing in it catches. *)
Inductive outcome (A : Type) :=
| Done (a : A)
| Exit (code : Z)
| Uncaught.
Arguments Done {A} a.
Arguments Exit {A} code.
Arguments Uncaught {A}.

Definition M (Env A : Type) := state Env -> outcome A * state Env.

Definition ret {Env A} (a : A) : M Env A := fun st => (Done a, st).

Definition bind {Env A B} (m : M Env A) (k : A -> M Env B) : M Env B :=
  fun st =>
    match m st with
    | (Done a, st') => k a st'
    | (Exit code, st') => (Exit code, st')
    | (Uncaught, st') => (Uncaught, st')
    end.

(** [exit(code)] *)
Definition exit {Env A} (code : Z) : M Env A := fun st => (Exit code, st).

(** An exception that leaves the function. *)
Definition raise {Env A} : M Env A := fun st => (Uncaught, st).

(** A request: it is recorded, and the environment answers. *)
Definition request {Env A} (e : event) (f : Env -> result A * Env) : M Env (result A) :=
  fun st =>
    let (r, env') := f (env st) in
    (Done r, {| env := env'; trace := trace st ++ [e] |}).

Declare Scope monad_scope.
Delimit Scope monad_scope with monad.
Notation "x <- m ;; k" := (bind m (fun x => k))
  (at level 100, m at next level, right associativity) : monad_scope.

(* ================================================================== *)
(** * Format strings *)
(* ================================================================== *)

(** The markup of a [str.format] template, as the interpreter scans it
    from left to right. *)
Module Template.

Definition LBRACE : char := 123%N.    (* '{' *)
Definition RBRACE : char := 125%N.    (* '}' *)
Definition LBRACKET : char := 91%N.   (* '[' *)
Definition RBRACKET : char := 93%N.   (* ']' *)
Definition COLON : char := 58%N.      (* ':' *)
Definition BANG : char := 33%N.       (* '!' *)
Definition DOT : char := 46%N.        (* '.' *)

(** Where the scan of a replacement field stands. *)
Inductive field_state :=
| InName (in_brackets : bool)  (* in the field name, inside [[...]] or not *)
| AfterBang                    (* behind ['!']: the conversion character is next *)
| AfterConversion              (* behind the conversion character *)
| InSpec (nested : nat).       (* in the format specification, inside [nested] braces *)

Inductive field_step :=
| Goes (st : field_state)
| Ends
| Fails.

(** One character of a replacement field.  The name runs up to the
    first ['}'], [':'] or ['!'] outside square brackets, and a ['{'] in
    it is an error; behind ['!'] comes one conversion character and then
    ['}'] or [':']; the format specification runs up to the ['}'] that
    matches the opening brace of the field. *)
Definition scan_field (st : field_state) (c : char) : field_step :=
  match st with
  | InName false =>
      if N.eqb c LBRACE then Fails
      else if N.eqb c LBRACKET then Goes (InName true)
      else if N.eqb c RBRACE then Ends
      else if N.eqb c COLON then Goes (InSpec 0)
      else if N.eqb c BANG then Goes AfterBang
      else Goes (InName false)
  | InName true =>
      if N.eqb c RBRACKET then Goes (InName false) else Goes (InName true)
  | AfterBang => Goes AfterConversion
  | AfterConversion =>
      if N.eqb c RBRACE then Ends
      else if N.eqb c COLON then Goes (InSpec 0)
      else Fails
  | InSpec nested =>
      if N.eqb c LBRACE then Goes (InSpec (S nested))
      else if N.eqb c RBRACE then
        match nested with
        | O => Ends
        | S n => Goes (InSpec n)
        end
      else Goes (InSpec nested)
  end.

Definition in_name (st : field_state) : bool :=
  match st with InName _ => true | _ => false end.

(** The first name of a field name: what stands before the first ['.']
    or ['[']. *)
Fixpoint first_name (name : pystr) : pystr :=
  match name with
  | [] => []
  | c :: name' => if N.eqb c DOT || N.eqb c LBRACKET then [] else c :: first_name name'
  end.

(** The segment of a replacement field, from its name and its whole
    text. *)
Definition field_segment (name field : pystr) : segment :=
  if PyStr.eqb name field && PyStr.eqb (first_name name) name then Field name
  else Fancy (first_name name) field.

(** Where the scan of the template stands. *)
Inductive scan_state :=
| InText                       (* in literal text *)
| AfterOpen                    (* behind a ['{'] met in literal text *)
| AfterClose                   (* behind a ['}'] met in literal text *)
| InField (st : field_state).  (* in a replacement field *)

(** The scan.  [lit], [name] and [field] hold, last character first, the
    literal text since the last field, and the name and the text of the
    field being read.  A doubled brace is a brace of the literal text; a
    single ['}'] in literal text, and a template that ends inside a field
    or behind a single brace, are errors ([None]: [ValueError]). *)
Fixpoint parse_from (st : scan_state) (lit name field : pystr) (s : pystr)
    : option (list segment) :=
  match s with
  | [] =>
      match st with
      | InText => Some [Lit (rev lit)]
      | _ => None
      end
  | c :: s' =>
      match st with
      | InText =>
          if N.eqb c LBRACE then parse_from AfterOpen lit [] [] s'
          else if N.eqb c RBRACE then parse_from AfterClose lit [] [] s'
          else parse_from InText (c :: lit) [] [] s'
      | AfterClose =>
          if N.eqb c RBRACE then parse_from InText (c :: lit) [] [] s' else None
      | AfterOpen | InField _ =>
          let fs := match st with InField fs => fs | _ => InName false end in
          let doubled := match st with AfterOpen => N.eqb c LBRACE | _ => false end in
          if doubled then parse_from InText (c :: lit) [] [] s'
          else
            match scan_field fs c with
            | Fails => None
            | Ends =>
                option_map
                  (fun rest => Lit (rev lit) :: field_segment (rev name) (rev field) :: rest)
                  (parse_from InText [] [] [] s')
            | Goes fs' =>
                parse_from (InField fs') lit
                  (if in_name fs && in_name fs' then c :: name else name)
                  (c :: field) s'
            end
      end
  end.

Definition parse (template : pystr) : option (list segment) :=
  parse_from InText [] [] [] template.

End Template.

(* ================================================================== *)
(** * The script *)
(* ================================================================== *)

(** An entry of [ai_folders]: [{"id": ..., "name": ..., "examples": [...]}]. *)
Record folder := {
  folder_id : pystr;
  folder_name : pystr;
  examples : list email_content
}.

Section Script.
Variable U : Unicode.
Variable parsedate_to_datetime : pystr -> option Date.datetime.
Variable CONFIG : Config.
Context {Env : Type}.
Variable service : Service Env.

Local Open Scope monad_scope.
Local Abbreviation M := (M Env).

(** ** [get_labels] *)

Definition get_labels : M (Dict.dict pystr) :=
  r <- request ListLabels (labels_list service) ;;
  match r with
  | Returned labels => ret (Dict.of_items labels)
  | Raised => exit 1
  end.

(** ** [get_ai_auto_folders] *)

Definition get_ai_auto_folders (all_labels_map : Dict.dict pystr) : Dict.dict folder :=
  fold_left
    (fun ai_folders '(name, label_id) =>
       match strip_prefix (ai_folder_prefix CONFIG) name with
       | Some category_name =>
           Dict.set ai_folders category_name
             {| folder_id := label_id; folder_name := name; examples := [] |}
       | None => ai_folders
       end)
    all_labels_map [].

(** ** [fetch_example_emails] *)

Definition examples_limit : Z := get_default (max_examples_per_folder CONFIG) 1%Z.

(** The loop over the messages of one folder.  It ends at the first
    message whose fetch raises; what was appended before stays. *)
Fixpoint load_examples (messages : list pystr) (loaded : list email_content)
    : M (list email_content) :=
  match messages with
  | [] => ret loaded
  | msg :: messages' =>
      r <- request (GetMessage msg) (messages_get service msg) ;;
      match r with
      | Returned raw =>
          let content := get_email_content U parsedate_to_datetime CONFIG raw in
          load_examples messages'
            (if has_content content then loaded ++ [content] else loaded)
      | Raised => ret loaded
      end
  end.

(** The body of the loop over the folders: [folder_data] afterwards. *)
Definition load_folder (folder_data : folder) : M folder :=
  r <- request (ListMessages [folder_id folder_data] None examples_limit)
         (messages_list service [folder_id folder_data] None examples_limit) ;;
  match r with
  | Returned messages =>
      loaded <- load_examples messages (examples folder_data) ;;
      ret {| folder_id := folder_id folder_data;
             folder_name := folder_name folder_data;
             examples := loaded |}
  | Raised => ret folder_data
  end.

Fixpoint load_folders (ai_folders_map : Dict.dict folder) : M (Dict.dict folder) :=
  match ai_folders_map with
  | [] => ret []
  | (category_name, folder_data) :: rest =>
      folder_data' <- load_folder folder_data ;;
      rest' <- load_folders rest ;;
      ret ((category_name, folder_data') :: rest')
  end.

(** [v.get("examples")] is truthy. *)
Definition has_examples (v : folder) : bool :=
  match examples v with [] => false | _ :: _ => true end.

Definition fetch_example_emails (ai_folders_map : Dict.dict folder) : M (Dict.dict folder) :=
  loaded <- load_folders ai_folders_map ;;
  let final_folders := List.filter (fun kv => has_examples (snd kv)) loaded in
  match final_folders with
  | [] => exit 1
  | _ :: _ => ret final_folders
  end.

(** ** [fetch_inbox_emails] *)

Definition inbox_label : pystr := get_default (inbox_label_name CONFIG) (str "INBOX").

(** The loop over the listed messages: a message whose fetch raises is
    skipped. *)
Fixpoint fetch_contents (messages_meta : list pystr) (fetched : list email_content)
    : M (list email_content) :=
  match messages_meta with
  | [] => ret fetched
  | msg :: rest =>
      r <- request (GetMessage msg) (messages_get service msg) ;;
      match r with
      | Returned msg_data =>
          let content := get_email_content U parsedate_to_datetime CONFIG msg_data in
          fetch_contents rest
            (if has_content content then fetched ++ [content] else fetched)
      | Raised => fetch_contents rest fetched
      end
  end.

Definition full_query_string (ai_auto_label_ids_to_exclude : list pystr) : pystr :=
  let exclude_labels_query_parts :=
    List.map (fun label => str "-label:" ++ label) ai_auto_label_ids_to_exclude in
  strip U (str "-in:spam -in:trash" ++ str " " ++ join (str " ") exclude_labels_query_parts).

Definition fetch_inbox_emails (all_labels_map : Dict.dict pystr)
    (ai_auto_label_ids_to_exclude : list pystr) : M (list email_content) :=
  match Dict.get all_labels_map inbox_label with
  | Some ((_ :: _) as inbox_label_id) =>
      let q := full_query_string ai_auto_label_ids_to_exclude in
      r <- request
             (ListMessages [inbox_label_id] (Some q) (max_emails_to_scan_inbox CONFIG))
             (messages_list service [inbox_label_id] (Some q)
                (max_emails_to_scan_inbox CONFIG)) ;;
      match r with
      | Returned messages_meta => fetch_contents (rev messages_meta) []
      | Raised => ret []
      end
  | _ => exit 1
  end.

(** ** [move_email] *)

Definition move_request (target_label_id : pystr) (all_labels_map : Dict.dict pystr)
    (source_label_name : pystr) : modify_body :=
  let remove_ids :=
    match Dict.get all_labels_map source_label_name with
    | Some ((_ :: _) as source_id) => [source_id]
    | _ => []
    end in
  {| addLabelIds := [target_label_id];
     removeLabelIds := match remove_ids with [] => None | _ :: _ => Some remove_ids end |}.

Definition move_email (msg target_label_id : pystr) (all_labels_map : Dict.dict pystr)
    (source_label_name : pystr) : M bool :=
  let body := move_request target_label_id all_labels_map source_label_name in
  r <- request (ModifyMessage msg body) (messages_modify service msg body) ;;
  match r with
  | Returned _ => ret true
  | Raised => ret false
  end.

(** ** [ollama_check_similarity] *)

Definition body_limit : Z := get_default (max_body_length_for_llm CONFIG) 1000%Z.

(** One formatted example; [i] is the index [enumerate] gives. *)
Definition example_text (i : nat) (ex_email : email_content) : pystr :=
  str "Example " ++ str_of_Z (Z.of_nat i + 1) ++ str ":" ++ NEWLINE ++
  str "  Sender: " ++ sender ex_email ++ NEWLINE ++
  str "  Subject: " ++ subject ex_email ++ NEWLINE ++
  str "  Received Date: " ++ received_date_str ex_email ++ NEWLINE ++
  str "  Body Snippet: " ++ snippet ex_email ++ NEWLINE ++
  str "  Body (first " ++ str_of_Z body_limit ++ str " chars): " ++ body ex_email ++ NEWLINE ++
  str "-----------------------------".

Fixpoint enumerate_from {A} (i : nat) (l : list A) : list (nat * A) :=
  match l with
  | [] => []
  | x :: l' => (i, x) :: enumerate_from (S i) l'
  end.

Definition full_examples_text (example_emails_list : list email_content) : pystr :=
  join NEWLINE
    (List.map (fun ix => example_text (fst ix) (snd ix))
       (enumerate_from 0 (slice_to examples_limit example_emails_list))).

(** The text [str.format] builds from a parsed template and the keyword
    arguments [kwargs] (there are no positional ones): [None] when a
    field's first name is no keyword argument ([KeyError]; [IndexError]
    for an empty or numeric name), or when the rendering of a field that
    is more than a name raises. *)
Fixpoint render (template : list segment) (kwargs : Dict.dict pystr) : option pystr :=
  match template with
  | [] => Some []
  | Lit text :: rest => option_map (app text) (render rest kwargs)
  | Field name :: rest =>
      match Dict.get kwargs name with
      | Some value => option_map (app value) (render rest kwargs)
      | None => None
      end
  | Fancy name field :: rest =>
      match Dict.get kwargs name with
      | Some _ =>
          match py_format_field U field kwargs with
          | Some value => option_map (app value) (render rest kwargs)
          | None => None
          end
      | None => None
      end
  end.

(** [template.format(...)] with the keyword arguments [kwargs]: [None]
    when it raises. *)
Definition format (template : pystr) (kwargs : Dict.dict pystr) : option pystr :=
  match Template.parse template with
  | Some segments => render segments kwargs
  | None => None
  end.

(** The keyword arguments of the [format] call. *)
Definition prompt_kwargs (category_name : pystr) (example_emails_list : list email_content)
    (new_email_content : email_content) : Dict.dict pystr :=
  [ (str "category_name", category_name);
    (str "example_emails_formatted_text", full_examples_text example_emails_list);
    (str "new_email_sender", sender new_email_content);
    (str "new_email_subject", subject new_email_content);
    (str "new_email_date", received_date_str new_email_content);
    (str "new_email_snippet", snippet new_email_content);
    (str "new_email_body", body new_email_content);
    (str "max_body_length_for_llm", str_of_Z body_limit) ].

Definition model_name : pystr := get_default (ollama_model CONFIG) (str "qwen:14b").

Definition ollama_check_similarity (category_name : pystr)
    (example_emails_list : list email_content) (new_email_content : email_content)
    : M bool :=
  match ollama_host CONFIG with
  | None => raise
  | Some host =>
      client <- request (NewClient host) (ollama_Client service host) ;;
      match client with
      | Raised => ret false
      | Returned _ =>
          match similarity_prompt_v3 CONFIG with
          | None | Some [] => ret false
          | Some ((_ :: _) as prompt_template_lines) =>
              let prompt_string := join NEWLINE prompt_template_lines in
              match format prompt_string
                      (prompt_kwargs category_name example_emails_list new_email_content) with
              | None => raise
              | Some full_prompt_for_llm =>
                  response <- request (Chat model_name full_prompt_for_llm)
                                (ollama_chat service model_name full_prompt_for_llm) ;;
                  match response with
                  | Returned (Some content) => ret (interpret_answer U content)
                  | Returned None => ret false
                  | Raised => ret false
                  end
              end
          end
      end
  end.

(** ** [main] *)

(** The loop over the categories for one inbox email: the category that
    matched, with whether the email was moved, or [None]. *)
Fixpoint classify_email (all_labels_map : Dict.dict pystr)
    (categories : Dict.dict folder) (new_email_item : email_content)
    : M (option (pystr * bool)) :=
  match categories with
  | [] => ret None
  | (category, folder_meta) :: rest =>
      matched <- ollama_check_similarity category (examples folder_meta) new_email_item ;;
      if matched : bool then
        moved <- move_email (id new_email_item) (folder_id folder_meta)
                   all_labels_map inbox_label ;;
        ret (Some (category, moved))
      else classify_email all_labels_map rest new_email_item
  end.

(** The counters [main] logs at the end. *)
Record counters := {
  emails_analyzed_count : nat;
  emails_moved_count : nat
}.

(** The loop over the inbox emails. *)
Fixpoint process_inbox (all_labels_map : Dict.dict pystr)
    (ai_folders_with_examples : Dict.dict folder)
    (inbox_emails_list : list email_content) (c : counters) : M counters :=
  match inbox_emails_list with
  | [] => ret c
  | new_email_item :: rest =>
      r <- classify_email all_labels_map ai_folders_with_examples new_email_item ;;
      let moved := match r with Some (_, true) => 1 | _ => 0 end in
      process_inbox all_labels_map ai_folders_with_examples rest
        {| emails_analyzed_count := S (emails_analyzed_count c);
           emails_moved_count := emails_moved_count c + moved |}
  end.

(** [main] from the line after [fetch_example_emails] on, where the
    categories are those that function returned; [None] for the early
    returns. *)
Definition classify_inbox (all_labels_map : Dict.dict pystr)
    (ai_folders_with_examples : Dict.dict folder) : M (option counters) :=
  match ai_folders_with_examples with
  | [] => ret None
  | _ :: _ =>
      let ai_auto_label_ids_to_exclude :=
        List.map (fun kv => folder_id (snd kv)) ai_folders_with_examples in
      inbox_emails_list <- fetch_inbox_emails all_labels_map ai_auto_label_ids_to_exclude ;;
      match inbox_emails_list with
      | [] => ret None
      | _ :: _ =>
          c <- process_inbox all_labels_map ai_folders_with_examples inbox_emails_list
                 {| emails_analyzed_count := 0; emails_moved_count := 0 |} ;;
          ret (Some c)
      end
  end.

(** [main], from [get_labels] on. *)
Definition main : M (option counters) :=
  all_labels_map <- get_labels ;;
  let ai_folders_map_initial := get_ai_auto_folders all_labels_map in
  ai_folders_with_examples <- fetch_example_emails ai_folders_map_initial ;;
  classify_inbox all_labels_map ai_folders_with_examples.

End Script.

(* ================================================================== *)
(** * Vocabulary of the properties *)
(* ================================================================== *)

Section Vocabulary.
Variable U : Unicode.

(** [tok] stands in [s] as a word of its own: it occurs there, the
    character before the occurrence (if any) is not a word character, and
    neither is the character after it (if any). *)
Definition standalone (tok s : pystr) : Prop :=
  exists pre post,
    s = pre ++ tok ++ post /\
    Re.opt_word U (last pre) = false /\
    Re.opt_word U (head post) = false.

(** The character before a position that has [pre] between it and a
    text whose predecessor is [prev]. *)
Definition pred_char (prev : option char) (pre : pystr) : option char :=
  match last pre with Some c => Some c | None => prev end.

(** A word: not empty, no whitespace in it. *)
Definition is_token (w : pystr) : Prop :=
  w <> [] /\ Forall (fun c => isspace U c = false) w.

(** No whitespace where [after_space] says the previous character was
    whitespace (or the text starts), and no whitespace character but the
    space. *)
Fixpoint single_spaced (after_space : bool) (c : pystr) : bool :=
  match c with
  | [] => true
  | x :: c' =>
      if isspace U x then negb after_space && N.eqb x 32 && single_spaced true c'
      else single_spaced false c'
  end.

End Vocabulary.

(* ================================================================== *)
(** * Sample data *)
(* ================================================================== *)

Module Sample.

(** A runtime whose tables know nothing outside ASCII, and whose
    [str.format] takes no replacement field that is more than a name. *)
Definition ascii_only : Unicode :=
  {| uni_isspace := fun _ => false;
     uni_isalnum := fun _ => false;
     uni_upper := fun c => [c];
     uni_lower := fun c => [c];
     uni_caseless := fun _ _ => false;
     py_format_field := fun _ _ => None |}.

Definition invoice_date : pystr := str "Tue, 1 Jan 2024 10:00:00 GMT".

(** [datetime(2024, 1, 1, 10, 0, 0, tzinfo=timezone(timedelta(0)))], what
    [parsedate_to_datetime] makes of [invoice_date]: the zone [GMT] is
    the offset 0. *)
Definition invoice_datetime : Date.datetime :=
  {| Date.year := 2024; Date.month := 1; Date.day := 1;
     Date.hour := 10; Date.minute := 0; Date.second := 0;
     Date.tz := Some 0%Z |}.

(** A date parser that knows [invoice_date] only. *)
Definition parse_invoice_date (s : pystr) : option Date.datetime :=
  if PyStr.eqb s invoice_date then Some invoice_datetime else None.

(** The raw record of the invoice scenario. *)
Definition invoice : message :=
  {| msg_id := str "m1";
     msg_snippet := str "Please pay.";
     msg_headers :=
       [ {| h_name := str "Subject"; h_value := str "Invoice #42" |};
         {| h_name := str "From"; h_value := str "b@x.com" |};
         {| h_name := str "Date"; h_value := invoice_date |} ];
     msg_payload := Part (str "text/plain") (Some (Data (str "Please pay."))) None |}.

Definition config : Config :=
  {| ai_folder_prefix := str "AI_AUTO_";
     inbox_label_name := None;
     max_emails_to_scan_inbox := 10;
     max_examples_per_folder := Some 3%Z;
     max_body_length_for_llm := None;
     ollama_host := Some (str "http://localhost:11434");
     ollama_model := None;
     similarity_prompt_v3 :=
       Some [ str "Category: {category_name}";
              str "{example_emails_formatted_text}";
              str "New email from {new_email_sender} on {new_email_date}";
              str "Subject: {new_email_subject}";
              str "Snippet: {new_email_snippet}";
              str "Body (first {max_body_length_for_llm} chars): {new_email_body}";
              str "Answer YES or NO." ] |}.

(** The same configuration with another body limit. *)
Definition with_body_limit (n : Z) : Config :=
  {| ai_folder_prefix := ai_folder_prefix config;
     inbox_label_name := inbox_label_name config;
     max_emails_to_scan_inbox := max_emails_to_scan_inbox config;
     max_examples_per_folder := max_examples_per_folder config;
     max_body_length_for_llm := Some n;
     ollama_host := ollama_host config;
     ollama_model := ollama_model config;
     similarity_prompt_v3 := similarity_prompt_v3 config |}.

(** What the invoice scenario expects, with the zone name left open. *)
Definition invoice_content (zone : pystr) : email_content :=
  {| id := str "m1";
     snippet := str "Please pay.";
     subject := str "Invoice #42";
     sender := str "b@x.com";
     body := str "Please pay.";
     received_date_str := str "2024-01-01 10:00:00 " ++ zone;
     received_datetime := Some invoice_datetime |}.

End Sample.

(* ================================================================== *)
(** * Vocabulary of the driver properties *)
(* ================================================================== *)

(** The number of model calls in a trace. *)
Fixpoint chat_calls (t : list event) : nat :=
  match t with
  | [] => 0
  | Chat _ _ :: t' => S (chat_calls t')
  | _ :: t' => chat_calls t'
  end.

(** Subject or body is not empty. *)
Definition contentful (content : email_content) : Prop :=
  subject content <> [] \/ body content <> [].

Section DriverVocabulary.
Variable U : Unicode.
Variable CONFIG : Config.
Context {Env : Type}.
Variable service : Service Env.

(** The categories of a list, checked in order from the first state on,
    all come out as no match; the second state is the one after the last
    check. *)
Inductive all_rejected (new_email_item : email_content)
    : Dict.dict folder -> state Env -> state Env -> Prop :=
| rejected_nil st : all_rejected new_email_item [] st st
| rejected_cons category folder_meta rest st st1 st2 :
    ollama_check_similarity U CONFIG service category (examples folder_meta)
      new_email_item st = (Done false, st1) ->
    all_rejected new_email_item rest st1 st2 ->
    all_rejected new_email_item ((category, folder_meta) :: rest) st st2.

(** The model call of one check fails: the client cannot be built, or
    the chat request raises, or its response carries no message text.
    The second state is the one the failure leaves. *)
Inductive model_call_fails (category_name : pystr)
    (example_emails_list : list email_content) (new_email_content : email_content)
    (st : state Env) : state Env -> Prop :=
| client_fails host env1 :
    ollama_host CONFIG = Some host ->
    ollama_Client service host (env st) = (Raised, env1) ->
    model_call_fails category_name example_emails_list new_email_content st
      {| env := env1; trace := trace st ++ [NewClient host] |}
| chat_fails host env1 client line lines prompt response env2 :
    ollama_host CONFIG = Some host ->
    ollama_Client service host (env st) = (Returned client, env1) ->
    similarity_prompt_v3 CONFIG = Some (line :: lines) ->
    format U (join NEWLINE (line :: lines))
      (prompt_kwargs CONFIG category_name example_emails_list new_email_content)
      = Some prompt ->
    ollama_chat service (model_name CONFIG) prompt env1 = (response, env2) ->
    response = Raised \/ response = Returned None ->
    model_call_fails category_name example_emails_list new_email_content st
      {| env := env2;
         trace := (trace st ++ [NewClient host]) ++ [Chat (model_name CONFIG) prompt] |}.

End DriverVocabulary.

(** The names [prompt_kwargs] binds. *)
Definition keyword_names : list pystr :=
  [ str "category_name"; str "example_emails_formatted_text";
    str "new_email_sender"; str "new_email_subject"; str "new_email_date";
    str "new_email_snippet"; str "new_email_body"; str "max_body_length_for_llm" ].

Definition is_keyword (name : pystr) : bool :=
  existsb (PyStr.eqb name) keyword_names.

(** The first names of the replacement fields of a parsed template. *)
Fixpoint fields (template : list segment) : list pystr :=
  match template with
  | [] => []
  | Lit _ :: rest => fields rest
  | Field name :: rest => name :: fields rest
  | Fancy name _ :: rest => name :: fields rest
  end.

(** Every replacement field is a name and nothing else. *)
Fixpoint plain_fields (template : list segment) : bool :=
  match template with
  | [] => true
  | Fancy _ _ :: _ => false
  | _ :: rest => plain_fields rest
  end.

(** The template of the configuration, if there is one, is made of
    literal text and of fields that are names of keyword arguments of the
    [format] call, and nothing else. *)
Definition template_renders (CONFIG : Config) : bool :=
  match similarity_prompt_v3 CONFIG with
  | Some ((_ :: _) as prompt_template_lines) =>
      match Template.parse (join NEWLINE prompt_template_lines) with
      | Some segments => plain_fields segments && forallb is_keyword (fields segments)
      | None => false
      end
  | _ => true
  end.

(* ================================================================== *)
(** * A scripted mailbox and model *)
(* ================================================================== *)

Module Fixture.

Definition plain_message (msg subject_line from text : pystr) : message :=
  {| msg_id := msg;
     msg_snippet := text;
     msg_headers :=
       [ {| h_name := str "Subject"; h_value := subject_line |};
         {| h_name := str "From"; h_value := from |} ];
     msg_payload := Part (str "text/plain") (Some (Data text)) None |}.

(** A message without subject and without body. *)
Definition empty_message (msg : pystr) : message :=
  {| msg_id := msg;
     msg_snippet := [];
     msg_headers := [ {| h_name := str "From"; h_value := str "nobody@x.com" |} ];
     msg_payload := Part (str "multipart/mixed") None (Some []) |}.

Definition labels : list (pystr * pystr) :=
  [ (str "INBOX", str "INBOX");
    (str "AI_AUTO_Receipts", str "L1");
    (str "AI_AUTO_Newsletters", str "L2");
    (str "AI_AUTO_Travel", str "L3") ].

Definition listing (labelIds : list pystr) : result (list pystr) :=
  match labelIds with
  | [l] =>
      if PyStr.eqb l (str "L1") then Returned [str "m1"; str "e1"]
      else if PyStr.eqb l (str "L2") then Returned [str "e1"]
      else if PyStr.eqb l (str "L3") then Returned [str "t1"]
      else if PyStr.eqb l (str "INBOX") then Returned [str "i1"; str "e1"; str "i2"]
      else Raised
  | _ => Raised
  end.

Definition fetch (msg : pystr) : result message :=
  if PyStr.eqb msg (str "m1") then Returned Sample.invoice
  else if PyStr.eqb msg (str "e1") then Returned (empty_message (str "e1"))
  else if PyStr.eqb msg (str "t1") then
    Returned (plain_message (str "t1") (str "Your flight") (str "air@x.com")
                (str "Boarding pass attached."))
  else if PyStr.eqb msg (str "i1") then
    Returned (plain_message (str "i1") (str "Trip to Rome") (str "air@x.com")
                (str "Your booking is confirmed."))
  else if PyStr.eqb msg (str "i2") then
    Returned (plain_message (str "i2") (str "Hello") (str "friend@x.com")
                (str "How are you?"))
  else Raised.

(** The environment: the answers the model will give, in order. *)
Definition script := list (result (option pystr)).

Definition answer (s : script) : result (option pystr) * script :=
  match s with
  | [] => (Raised, [])
  | a :: s' => (a, s')
  end.

(** The service: the mailbox above, a client that can be built or not,
    and the scripted model. *)
Definition service (client_up : bool) : Service script :=
  {| labels_list := fun s => (Returned labels, s);
     messages_list := fun labelIds _ _ s => (listing labelIds, s);
     messages_get := fun msg s => (fetch msg, s);
     messages_modify := fun _ _ s => (Returned tt, s);
     ollama_Client := fun _ s => (if client_up then Returned tt else Raised, s);
     ollama_chat := fun _ _ s => answer s |}.

Definition start (s : script) : state script := {| env := s; trace := [] |}.

Definition all_labels_map : Dict.dict pystr := Dict.of_items labels.

Definition example (msg : pystr) : list email_content :=
  match fetch msg with
  | Returned raw =>
      [get_email_content Sample.ascii_only Sample.parse_invoice_date Sample.config raw]
  | Raised => []
  end.

(** The two categories that have examples. *)
Definition categories : Dict.dict folder :=
  [ (str "Receipts",
     {| folder_id := str "L1"; folder_name := str "AI_AUTO_Receipts";
        examples := example (str "m1") |});
    (str "Travel",
     {| folder_id := str "L3"; folder_name := str "AI_AUTO_Travel";
        examples := example (str "t1") |}) ].

Definition trip : email_content :=
  match example (str "i1") with
  | [content] => content
  | _ => Sample.invoice_content []
  end.

(** A configuration without the template. *)
Definition config_without_template : Config :=
  {| ai_folder_prefix := ai_folder_prefix Sample.config;
     inbox_label_name := inbox_label_name Sample.config;
     max_emails_to_scan_inbox := max_emails_to_scan_inbox Sample.config;
     max_examples_per_folder := max_examples_per_folder Sample.config;
     max_body_length_for_llm := max_body_length_for_llm Sample.config;
     ollama_host := ollama_host Sample.config;
     ollama_model := ollama_model Sample.config;
     similarity_prompt_v3 := None |}.

(** A configuration whose template has the category name and nothing
    else of what the prompt builder passes. *)
Definition config_short_template : Config :=
  {| ai_folder_prefix := ai_folder_prefix Sample.config;
     inbox_label_name := inbox_label_name Sample.config;
     max_emails_to_scan_inbox := max_emails_to_scan_inbox Sample.config;
     max_examples_per_folder := max_examples_per_folder Sample.config;
     max_body_length_for_llm := max_body_length_for_llm Sample.config;
     ollama_host := ollama_host Sample.config;
     ollama_model := ollama_model Sample.config;
     similarity_prompt_v3 :=
       Some [ str "Does this email belong to {category_name}? Answer YES or NO." ] |}.

(** A configuration whose template names a field the prompt builder does
    not pass. *)
Definition config_unknown_field : Config :=
  {| ai_folder_prefix := ai_folder_prefix Sample.config;
     inbox_label_name := inbox_label_name Sample.config;
     max_emails_to_scan_inbox := max_emails_to_scan_inbox Sample.config;
     max_examples_per_folder := max_examples_per_folder Sample.config;
     max_body_length_for_llm := max_body_length_for_llm Sample.config;
     ollama_host := ollama_host Sample.config;
     ollama_model := ollama_model Sample.config;
     similarity_prompt_v3 :=
       Some [ str "Category {category_name}"; str "Email: {email_text}" ] |}.

End Fixture.

(* ================================================================== *)
(** * A mailbox as label sets *)
(* ================================================================== *)

(** A reference mail collaborator for the relabel request: the mailbox
    holds the set of label ids of each message, and [modify] adds
    [addLabelIds] to, and removes [removeLabelIds] from, the labels of the
    one message it names (a message that is not there makes it raise). *)
Module Mailbox.

Abbreviation mailbox := (gmap pystr (gset pystr)).

Definition relabel (request : modify_body) (labels : gset pystr) : gset pystr :=
  (labels ∪ list_to_set (addLabelIds request))
    ∖ list_to_set (get_default (removeLabelIds request) []).

Definition modify (msg : pystr) (request : modify_body) (mb : mailbox)
    : result unit * mailbox :=
  match mb !! msg with
  | Some labels => (Returned tt, <[msg := relabel request labels]> mb)
  | None => (Raised, mb)
  end.

Definition service : Service mailbox :=
  {| labels_list := fun mb => (Raised, mb);
     messages_list := fun _ _ _ mb => (Raised, mb);
     messages_get := fun _ mb => (Raised, mb);
     messages_modify := modify;
     ollama_Client := fun _ mb => (Raised, mb);
     ollama_chat := fun _ _ mb => (Raised, mb) |}.

(** An inbox with two messages. *)
Definition two_messages : mailbox :=
  <[str "i1" := {[str "INBOX"]}]> (<[str "i2" := {[str "INBOX"; str "UNREAD"]}]> ∅).

End Mailbox.

(* ================================================================== *)
(** * Vocabulary of the body properties *)
(* ================================================================== *)

(** The elements [f] keeps, in order. *)
Fixpoint choose {A B} (f : A -> option B) (l : list A) : list B :=
  match l with
  | [] => []
  | x :: l' =>
      match f x with
      | Some y => y :: choose f l'
      | None => choose f l'
      end
  end.

(** The parts the collection looks at, in the order it does: each
    top-level part followed by its own parts; or the payload itself, when
    it has no [parts] key but a body. *)
Definition visited_parts (payload : part) : list part :=
  match part_parts payload with
  | Some parts => flat_map (fun p => p :: get_default (part_parts p) []) parts
  | None =>
      match part_body payload with
      | Some _ => [payload]
      | None => []
      end
  end.

(** The plain candidate of a part: the decoded text of a [text/plain]
    part, when it is not empty. *)
Definition plain_candidate (p : part) : option pystr :=
  match part_body p with
  | Some (Data ((_ :: _) as decoded)) =>
      if PyStr.eqb (part_mimeType p) (str "text/plain") then Some decoded else None
  | _ => None
  end.

(** The HTML candidate of a part: the decoded text of a [text/html] part
    after the three substitutions, when that is not empty. *)
Definition html_candidate (U : Unicode) (p : part) : option pystr :=
  match part_body p with
  | Some (Data decoded) =>
      if PyStr.eqb (part_mimeType p) (str "text/html") then
        match Html.strip_html U decoded with
        | [] => None
        | (_ :: _) as text => Some text
        end
      else None
  | _ => None
  end.








Definition is_letter (c : char) : bool := ascii_isupper c || ascii_islower c.

(** Where a scan for markup stands: in text, behind a ['<'], or further
    inside a tag. *)
Inductive scan := InText | TagOpen | InTag.

(** A decision procedure for [markup]. *)
Fixpoint markup_check (st : scan) (s : pystr) : bool :=
  match s with
  | [] => match st with InText => true | _ => false end
  | c :: s' =>
      match st with
      | InText => if N.eqb c Html.LT then markup_check TagOpen s' else markup_check InText s'
      | TagOpen => if N.eqb c Html.LT then false else markup_check InTag s'
      | InTag =>
          if N.eqb c Html.GT then markup_check InText s'
          else if N.eqb c Html.LT then false
          else markup_check InTag s'
      end
  end.

Module HtmlSample.


(** A message with a plain and an HTML alternative of the same text. *)
Definition greeting : message :=
  {| msg_id := str "h2";
     msg_snippet := str "Hello";
     msg_headers := [ {| h_name := str "Subject"; h_value := str "Hi" |} ];
     msg_payload :=
       Part (str "multipart/alternative") None
         (Some [ Part (str "text/plain") (Some (Data (str "Hello  world"))) None;
                 Part (str "text/html")
                   (Some (Data (str "<p>Hello <b>world</b></p>"))) None ]) |}.


(** A message whose HTML has a style block, a script block and tags. *)
Definition styled : message :=
  {| msg_id := str "h4";
     msg_snippet := str "Hi";
     msg_headers := [ {| h_name := str "Subject"; h_value := str "Hi" |} ];
     msg_payload :=
       Part (str "text/html")
         (Some (Data (str "<STYLE type='text/css'>p{color:red}</style><script>alert(1)</Script><p>Hi</p>")))
         None |}.

End HtmlSample.

(* ================================================================== *)
(** * Vocabulary of the further properties *)
(* ================================================================== *)

(** The last pair of [items] with the key [k]. *)
Definition last_with_key {V} (k : pystr) (items : list (pystr * V)) : option V :=
  option_map snd (last (List.filter (fun kv => PyStr.eqb (fst kv) k) items)).

(** The category a label stands for, if its name has the prefix. *)
Definition category_entry (CONFIG : Config) (label : pystr * pystr)
    : option (pystr * folder) :=
  match strip_prefix (ai_folder_prefix CONFIG) (fst label) with
  | Some category_name =>
      Some (category_name,
            {| folder_id := snd label; folder_name := fst label; examples := [] |})
  | None => None
  end.

(** The number of relabel requests in a trace. *)
Fixpoint modify_calls (t : list event) : nat :=
  match t with
  | [] => 0
  | ModifyMessage _ _ :: t' => S (modify_calls t')
  | _ :: t' => modify_calls t'
  end.

(** A request to the model side. *)
Definition model_event (e : event) : Prop :=
  match e with
  | NewClient _ | Chat _ _ => True
  | _ => False
  end.

(** A part without what is below it. *)
Definition without_parts (p : part) : part :=
  Part (part_mimeType p) (part_body p) None.

(** A payload with a [parts] key cut down to what the collection looks
    at: its own type and body forgotten, its parts and their parts kept,
    nothing below them. *)
Definition two_levels (parts : list part) : part :=
  Part [] None
    (Some (List.map
             (fun p => Part (part_mimeType p) (part_body p)
                         (option_map (List.map without_parts) (part_parts p)))
             parts)).

(** The header's name is [n], whatever the case of its letters. *)
Definition named (U : Unicode) (n : pystr) (h : header) : bool :=
  PyStr.eqb (lower U (h_name h)) n.

(** The value of the last header named [n], or the empty string. *)
Definition last_header (U : Unicode) (n : pystr) (headers : list header) : pystr :=
  match last (List.filter (named U n) headers) with
  | Some h => h_value h
  | None => []
  end.

(** The date of the last [Date] header that the parser accepts. *)
Definition last_date (U : Unicode) (parsedate_to_datetime : pystr -> option Date.datetime)
    (headers : list header) : option Date.datetime :=
  last (choose (fun h => if named U (str "date") h
                         then parsedate_to_datetime (h_value h) else None)
          headers).

(** The records of the messages up to the first one whose fetch raises,
    [get] being what a fetch gives. *)
Fixpoint until_raised (get : pystr -> result message) (messages : list pystr)
    : list message :=
  match messages with
  | [] => []
  | msg :: rest =>
      match get msg with
      | Returned raw => raw :: until_raised get rest
      | Raised => []
      end
  end.

(** The messages up to and with the first one whose fetch raises. *)
Fixpoint asked_until_raised (get : pystr -> result message) (messages : list pystr)
    : list pystr :=
  match messages with
  | [] => []
  | msg :: rest =>
      msg :: match get msg with
             | Returned _ => asked_until_raised get rest
             | Raised => []
             end
  end.

(** The records of the messages whose fetch does not raise. *)
Definition returned (get : pystr -> result message) (messages : list pystr)
    : list message :=
  choose (fun msg => match get msg with Returned raw => Some raw | Raised => None end)
    messages.

(** The extractions that have a subject or a body. *)
Definition with_content (U : Unicode)
    (parsedate_to_datetime : pystr -> option Date.datetime) (CONFIG : Config)
    (raws : list message) : list email_content :=
  List.filter has_content
    (List.map (get_email_content U parsedate_to_datetime CONFIG) raws).

(** A mailbox in which every listing gives the same three messages, the
    second of which cannot be fetched. *)
Module Flaky.

Definition listed : list pystr := [str "m1"; str "x9"; str "t1"].

Definition service : Service unit :=
  {| labels_list := fun s => (Returned Fixture.labels, s);
     messages_list := fun _ _ _ s => (Returned listed, s);
     messages_get := fun msg s => (Fixture.fetch msg, s);
     messages_modify := fun _ _ s => (Returned tt, s);
     ollama_Client := fun _ s => (Raised, s);
     ollama_chat := fun _ _ s => (Raised, s) |}.

Definition start : state unit := {| env := tt; trace := [] |}.

End Flaky.

(** A request the loop over the inbox may send, given the emails and the
    categories it works on: a request to the model side, or the relabel
    request that moves one of the emails to the label of one of the
    categories. *)
Definition inbox_request (CONFIG : Config) (all_labels_map : Dict.dict pystr)
    (categories : Dict.dict folder) (emails : list email_content) (e : event) : Prop :=
  model_event e \/
  exists email category folder_meta,
    In email emails /\ In (category, folder_meta) categories /\
    e = ModifyMessage (id email)
          (move_request (folder_id folder_meta) all_labels_map (inbox_label CONFIG)).

(** What the loop over the inbox adds to [emails_moved_count] for one
    email. *)
Definition moved_of (r : option (pystr * bool)) : nat :=
  match r with Some (_, true) => 1 | _ => 0 end.

(** The sample configuration under another folder prefix and another
    inbox label name. *)
Definition config_renamed (prefix inbox : pystr) : Config :=
  {| ai_folder_prefix := prefix;
     inbox_label_name := Some inbox;
     max_emails_to_scan_inbox := max_emails_to_scan_inbox Sample.config;
     max_examples_per_folder := max_examples_per_folder Sample.config;
     max_body_length_for_llm := max_body_length_for_llm Sample.config;
     ollama_host := ollama_host Sample.config;
     ollama_model := ollama_model Sample.config;
     similarity_prompt_v3 := similarity_prompt_v3 Sample.config |}.

(** A request that reads the mailbox. *)
Definition read_event (e : event) : Prop :=
  match e with
  | ListLabels | ListMessages _ _ _ | GetMessage _ => True
  | _ => False
  end.

(** A request of the classification: to the model side, or a relabel
    request. *)
Definition classification_event (e : event) : Prop :=
  match e with
  | NewClient _ | Chat _ _ | ModifyMessage _ _ => True
  | _ => False
  end.

(** From whatever state it starts, and however it ends, the computation
    adds to the trace requests that satisfy [P], followed by requests
    that satisfy [Q]. *)
Definition sends_then {Env A} (P Q : event -> Prop) (m : M Env A) : Prop :=
  forall st, exists first second,
    trace (snd (m st)) = trace st ++ first ++ second /\
    Forall P first /\ Forall Q second.

(** The same with one kind of request only. *)
Definition only_sends {Env A} (P : event -> Prop) (m : M Env A) : Prop :=
  forall st, exists sent, trace (snd (m st)) = trace st ++ sent /\ Forall P sent.

Section Shape.
Variable U : Unicode.
Variable CONFIG : Config.
Variable all_labels_map : Dict.dict pystr.

(** The requests of one check of an email against a category: none when
    no host is configured; otherwise the construction of the client,
    alone or followed by one chat request, whose prompt is the template
    rendered for this category, its examples and this email. *)
Definition check_requests (category : pystr) (folder_meta : folder)
    (email : email_content) (piece : list event) : Prop :=
  (ollama_host CONFIG = None /\ piece = []) \/
  exists host,
    ollama_host CONFIG = Some host /\
    (piece = [NewClient host] \/
     exists prompt,
       format U (join NEWLINE (get_default (similarity_prompt_v3 CONFIG) []))
         (prompt_kwargs CONFIG category (examples folder_meta) email) = Some prompt /\
       piece = [NewClient host; Chat (model_name CONFIG) prompt]).

(** The requests of the category loop for one email, over the
    categories still to be tried: one check after the other in the order
    of the categories, each for the next category, until the loop stops;
    a relabel request can only come last, right behind a check, and it
    moves this email to the category of that check. *)
Inductive email_requests (email : email_content) : Dict.dict folder -> list event -> Prop :=
| requests_end categories : email_requests email categories []
| requests_next category folder_meta rest piece sent :
    check_requests category folder_meta email piece ->
    email_requests email rest sent ->
    email_requests email ((category, folder_meta) :: rest) (piece ++ sent)
| requests_move category folder_meta rest piece :
    check_requests category folder_meta email piece ->
    email_requests email ((category, folder_meta) :: rest)
      (piece ++
       [ModifyMessage (id email)
          (move_request (folder_id folder_meta) all_labels_map (inbox_label CONFIG))]).

(** The requests of the loop over the inbox: those of the category loop
    for one email after the other, in the order of the emails, each over
    all of [categories], until the loop stops. *)
Inductive inbox_requests (categories : Dict.dict folder)
    : list email_content -> list event -> Prop :=
| inbox_end emails : inbox_requests categories emails []
| inbox_next email rest requests sent :
    email_requests email categories requests ->
    inbox_requests categories rest sent ->
    inbox_requests categories (email :: rest) (requests ++ sent).

End Shape.

(** The sample configuration with another template. *)
Definition config_with_template (prompt_template_lines : list pystr) : Config :=
  {| ai_folder_prefix := ai_folder_prefix Sample.config;
     inbox_label_name := inbox_label_name Sample.config;
     max_emails_to_scan_inbox := max_emails_to_scan_inbox Sample.config;
     max_examples_per_folder := max_examples_per_folder Sample.config;
     max_body_length_for_llm := max_body_length_for_llm Sample.config;
     ollama_host := ollama_host Sample.config;
     ollama_model := ollama_model Sample.config;
     similarity_prompt_v3 := Some prompt_template_lines |}.

(* ================================================================== *)
(** * Properties of the string operations *)
(* ================================================================== *)

Lemma eqb_eq (a b : pystr) : PyStr.eqb a b = true <-> a = b.
Proof.
  revert b; induction a as [|x a IH]; intros [|y b]; simpl; split;
    try congruence; try reflexivity.
  - intros [Hx Hab]%andb_true_iff. apply N.eqb_eq in Hx. apply IH in Hab. congruence.
  - intros [= -> ->]. rewrite N.eqb_refl. simpl. now apply IH.
Qed.

Lemma eqb_neq (a b : pystr) : PyStr.eqb a b = false <-> a <> b.
Proof.
  rewrite <- eqb_eq. destruct (PyStr.eqb a b); split; congruence.
Qed.

Lemma eqb_refl (a : pystr) : PyStr.eqb a a = true.
Proof. now apply eqb_eq. Qed.

Lemma strip_prefix_Some (p s rest : pystr) :
  strip_prefix p s = Some rest <-> s = p ++ rest.
Proof.
  revert s; induction p as [|x p IH]; intros s; simpl.
  - split; congruence.
  - destruct s as [|y s]; [split; discriminate|].
    destruct (N.eqb_spec x y) as [->|Hne].
    + rewrite IH. split; congruence.
    + split; [discriminate | intros [= -> _]; congruence].
Qed.

(* ================================================================== *)
(** * The answer interpreter *)
(* ================================================================== *)

Section InterpreterFacts.
Variable U : Unicode.

Lemma pred_char_cons prev c pre :
  pred_char prev (c :: pre) = pred_char (Some c) pre.
Proof.
  unfold pred_char. destruct pre as [|d pre]; [reflexivity|].
  rewrite last_cons. destruct (last (d :: pre)) eqn:E; [reflexivity|].
  apply last_None in E. discriminate.
Qed.

Lemma search_token_from_spec (tok : pystr) (prev : option char) (s : pystr) :
  Re.search_token_from U tok prev s = true <->
  exists pre post,
    s = pre ++ tok ++ post /\
    Re.at_boundary U (pred_char prev pre) (head (tok ++ post)) = true /\
    Re.at_boundary U (last tok) (head post) = true.
Proof.
  revert prev; induction s as [|c s IH]; intros prev.
  - simpl. rewrite orb_false_r. unfold Re.match_token_here. split.
    + intros [Hb Hm]%andb_true_iff.
      destruct (strip_prefix tok []) as [rest|] eqn:E; [|discriminate].
      apply strip_prefix_Some in E.
      exists [], rest. simpl. rewrite <- E. simpl. auto.
    + intros (pre & post & Hs & Hb1 & Hb2).
      destruct pre; [|discriminate]. simpl in Hs.
      unfold pred_char in Hb1; simpl in Hb1. rewrite <- Hs in Hb1. rewrite Hb1. simpl.
      apply strip_prefix_Some in Hs. rewrite Hs. exact Hb2.
  - cbn [Re.search_token_from]. rewrite orb_true_iff, IH. split.
    + intros [Hhere | (pre & post & Hs & Hb1 & Hb2)].
      * unfold Re.match_token_here in Hhere.
        apply andb_true_iff in Hhere as [Hb Hm].
        destruct (strip_prefix tok (c :: s)) as [rest|] eqn:E; [|discriminate].
        apply strip_prefix_Some in E.
        exists [], rest. simpl. rewrite <- E. auto.
      * exists (c :: pre), post. rewrite pred_char_cons. subst s. auto.
    + intros (pre & post & Hs & Hb1 & Hb2).
      destruct pre as [|d pre].
      * left. simpl in Hs. unfold Re.match_token_here.
        unfold pred_char in Hb1; simpl in Hb1. rewrite <- Hs in Hb1. rewrite Hb1. simpl.
        apply strip_prefix_Some in Hs. rewrite Hs. exact Hb2.
      * right. injection Hs as -> ->. exists pre, post.
        rewrite pred_char_cons in Hb1. auto.
Qed.

(** For a token that begins and ends with a word character, the search
    for [\btok\b] finds exactly the standalone occurrences. *)
Lemma search_token_standalone (tok s : pystr) :
  Re.opt_word U (head tok) = true ->
  Re.opt_word U (last tok) = true ->
  Re.search_token U tok s = true <-> standalone U tok s.
Proof.
  intros Hh Hl. unfold Re.search_token. rewrite search_token_from_spec.
  assert (Hhead : forall post, head (tok ++ post) = head tok).
  { intros post. destruct tok; [discriminate|reflexivity]. }
  assert (Hpred : forall pre, pred_char None pre = last pre).
  { intros pre. unfold pred_char. now destruct (last pre). }
  unfold standalone, Re.at_boundary.
  split; intros (pre & post & Hs & H1 & H2); exists pre, post;
    (split; [exact Hs|]); rewrite ?Hpred, ?Hhead, ?Hh, ?Hl in *;
    destruct (Re.opt_word U (last pre)), (Re.opt_word U (head post));
    simpl in *; split; congruence.
Qed.

Lemma YES_word : Re.opt_word U (head YES) = true /\ Re.opt_word U (last YES) = true.
Proof. split; reflexivity. Qed.

Lemma NO_word : Re.opt_word U (head NO) = true /\ Re.opt_word U (last NO) = true.
Proof. split; reflexivity. Qed.

End InterpreterFacts.

(** C1.  The answer interpreter has three tiers, tried in order, on the
    trimmed and uppercased response [p].  (1) [p] is exactly [YES]: match;
    [p] is exactly [NO]: no match.  (2) Otherwise, when [YES] stands in [p]
    as a word of its own and [NO] does not: match; when [NO] does and [YES]
    does not: no match.  (3) In every other case (both, neither): no match.
    In particular ["  yes  "] is a match, ["I think the answer is NO."] and
    ["yes... or no?"] are not. *)
Theorem C1_interpreter_three_tiers (U : Unicode) (r : pystr) :
  let p := upper U (strip U r) in
  (p = YES -> interpret_answer U r = true) /\
  (p = NO -> interpret_answer U r = false) /\
  (p <> YES -> p <> NO -> standalone U YES p -> ~ standalone U NO p ->
     interpret_answer U r = true) /\
  (p <> YES -> p <> NO -> standalone U NO p -> ~ standalone U YES p ->
     interpret_answer U r = false) /\
  (p <> YES -> (standalone U YES p <-> standalone U NO p) ->
     interpret_answer U r = false) /\
  interpret_answer U (str "  yes  ") = true /\
  interpret_answer U (str "I think the answer is NO.") = false /\
  interpret_answer U (str "yes... or no?") = false.
Proof.
  intros p.
  pose proof (search_token_standalone U YES p (proj1 (YES_word U)) (proj2 (YES_word U))) as HY.
  pose proof (search_token_standalone U NO p (proj1 (NO_word U)) (proj2 (NO_word U))) as HN.
  unfold interpret_answer, processed_answer. fold p.
  destruct (Re.search_token U YES p) eqn:Ey, (Re.search_token U NO p) eqn:En;
    simpl; repeat split; try (vm_compute; reflexivity).
  all: try (intros ->; reflexivity).
  all: try (intros H1%eqb_neq; try (intros H2%eqb_neq); rewrite H1; try rewrite H2).
  all: try (intros Hy Hn).
  all: try reflexivity.
  all: try (exfalso; apply Hn; apply HN; reflexivity).
  all: try (exfalso; apply Hn; apply HY; reflexivity).
  all: try (apply HY in Hy; discriminate).
  all: try (apply HN in Hy; discriminate).
  all: try (destruct (PyStr.eqb p NO); reflexivity).
  all: try (intros Hiff; destruct (PyStr.eqb p NO); try reflexivity; exfalso).
  all: try (assert (false = true) by (apply HN, Hiff, HY; reflexivity); discriminate).
  all: try (assert (false = true) by (apply HY, Hiff, HN; reflexivity); discriminate).
Qed.

(* ================================================================== *)
(** * Whitespace: [split], [join], [strip] *)
(* ================================================================== *)

Section Whitespace.
Variable U : Unicode.

Lemma space_isspace : isspace U 32%N = true.
Proof. reflexivity. Qed.

Lemma words_spec (s : pystr) :
  Forall (fun c => isspace U c = false) (fst (words U s)) /\
  Forall (is_token U) (snd (words U s)).
Proof.
  induction s as [|c s [IHw IHws]]; simpl.
  - split; constructor.
  - destruct (words U s) as [w ws]; simpl in *.
    destruct (isspace U c) eqn:Ec; simpl.
    + split; [constructor|]. destruct w; simpl; [assumption|].
      constructor; [split; [discriminate|assumption] | assumption].
    + split; [constructor; assumption | assumption].
Qed.

Lemma split_tokens (s : pystr) : Forall (is_token U) (split U s).
Proof.
  unfold split. pose proof (words_spec s) as [Hw Hws].
  destruct (words U s) as [w ws]; simpl in *.
  destruct w; simpl; [assumption|].
  constructor; [split; [discriminate|assumption] | assumption].
Qed.

Lemma words_app_token (w r : pystr) :
  Forall (fun c => isspace U c = false) w ->
  words U (w ++ r) = (w ++ fst (words U r), snd (words U r)).
Proof.
  induction 1 as [|c w Hc Hw IH]; simpl.
  - now destruct (words U r).
  - rewrite IH, Hc. reflexivity.
Qed.

Lemma split_app_token (w r : pystr) :
  is_token U w ->
  split U (w ++ 32%N :: r) = w :: split U r.
Proof.
  intros [Hne Hw]. unfold split. rewrite words_app_token by assumption.
  cbn [words]. rewrite space_isspace.
  destruct (words U r) as [w0 ws0]; simpl. rewrite app_nil_r.
  destruct w; [contradiction|reflexivity].
Qed.

Lemma split_token (w : pystr) : is_token U w -> split U w = [w].
Proof.
  intros [Hne Hw]. unfold split.
  rewrite <- (app_nil_r w) at 1. rewrite words_app_token by assumption.
  simpl. rewrite app_nil_r. destruct w; [contradiction|reflexivity].
Qed.

(** Splitting undoes joining with single spaces. *)
Lemma split_join (ws : list pystr) :
  Forall (is_token U) ws -> split U (join (str " ") ws) = ws.
Proof.
  induction 1 as [|w ws Hw Hws IH]; [reflexivity|].
  destruct ws as [|w' ws].
  - simpl. now apply split_token.
  - change (join (str " ") (w :: w' :: ws))
      with (w ++ 32%N :: join (str " ") (w' :: ws)).
    rewrite split_app_token by assumption. now rewrite IH.
Qed.

Lemma head_join_tokens (ws : list pystr) (c : char) :
  Forall (is_token U) ws -> head (join (str " ") ws) = Some c -> isspace U c = false.
Proof.
  intros Hws. destruct Hws as [|w ws [Hne Hw] Hws]; [discriminate|].
  destruct w as [|x w]; [contradiction|].
  destruct ws; simpl; intros [= <-]; now inversion Hw.
Qed.

Lemma last_join_tokens (ws : list pystr) (c : char) :
  Forall (is_token U) ws -> last (join (str " ") ws) = Some c -> isspace U c = false.
Proof.
  induction 1 as [|w ws [Hne Hw] Hws IH]; [discriminate|].
  destruct ws as [|w' ws].
  - simpl. intros Hl. rewrite Forall_forall in Hw. apply Hw.
    apply last_Some_elem_of. exact Hl.
  - change (join (str " ") (w :: w' :: ws))
      with (w ++ 32%N :: join (str " ") (w' :: ws)).
    assert (Hj : join (str " ") (w' :: ws) <> []).
    { inversion Hws as [|? ? [Hne' _] _]; subst.
      destruct w'; [contradiction|]. destruct ws; discriminate. }
    destruct (join (str " ") (w' :: ws)) as [|y j] eqn:Ej; [contradiction|].
    rewrite last_app_cons, last_cons_cons. exact IH.
Qed.

Lemma lstrip_id (s : pystr) :
  (forall c, head s = Some c -> isspace U c = false) -> lstrip U s = s.
Proof.
  destruct s as [|c s]; [reflexivity|]. intros H. simpl.
  now rewrite (H c eq_refl).
Qed.

Lemma strip_id (s : pystr) :
  (forall c, head s = Some c -> isspace U c = false) ->
  (forall c, last s = Some c -> isspace U c = false) ->
  strip U s = s.
Proof.
  intros Hh Hl. unfold strip, rstrip. rewrite (lstrip_id s Hh).
  rewrite lstrip_id; [apply rev_involutive|].
  intros c Hc. apply Hl. rewrite rev_alt in Hc.
  change (rev_append s []) with (reverse s) in Hc.
  now rewrite head_reverse in Hc.
Qed.

(** The collapsed text has nothing left to strip. *)
Lemma strip_collapse (t : pystr) : strip U (collapse U t) = collapse U t.
Proof.
  unfold collapse. apply strip_id; intros c.
  - apply head_join_tokens, split_tokens.
  - apply last_join_tokens, split_tokens.
Qed.

(** The collapsed text has the words of the original. *)
Lemma split_collapse (t : pystr) : split U (collapse U t) = split U t.
Proof. unfold collapse. apply split_join, split_tokens. Qed.

(** Collapsing twice changes nothing. *)
Lemma collapse_idem (t : pystr) : collapse U (collapse U t) = collapse U t.
Proof. unfold collapse at 1. now rewrite split_collapse. Qed.

End Whitespace.

(* ================================================================== *)
(** * The body: collapsed, trimmed, truncated *)
(* ================================================================== *)

Section Body.
Variable U : Unicode.

Lemma single_spaced_app_token (b : bool) (w r : pystr) :
  is_token U w -> single_spaced U b (w ++ r) = single_spaced U false r.
Proof.
  intros [Hne Hw]. revert b. induction Hw as [|c w Hc Hw IH]; [contradiction|].
  intros b. simpl. rewrite Hc. destruct w as [|d w]; [reflexivity|].
  apply IH. discriminate.
Qed.

Lemma single_spaced_join (ws : list pystr) :
  Forall (is_token U) ws -> single_spaced U true (join (str " ") ws) = true.
Proof.
  induction 1 as [|w ws Hw Hws IH]; [reflexivity|].
  destruct ws as [|w' ws].
  - simpl. rewrite <- (app_nil_r w). now rewrite single_spaced_app_token.
  - change (join (str " ") (w :: w' :: ws))
      with (w ++ 32%N :: join (str " ") (w' :: ws)).
    rewrite single_spaced_app_token by assumption.
    cbn [single_spaced]. rewrite space_isspace. exact IH.
Qed.

(** In the collapsed text whitespace is single spaces between words. *)
Lemma single_spaced_collapse (t : pystr) :
  single_spaced U true (collapse U t) = true.
Proof. apply single_spaced_join, split_tokens. Qed.

Lemma slice_to_nonneg {A} (n : Z) (l : list A) :
  (0 <= n)%Z -> slice_to n l = firstn (Z.to_nat n) l.
Proof. intros Hn. unfold slice_to. now apply Z.leb_le in Hn as ->. Qed.

Lemma slice_to_all {A} (n : Z) (l : list A) :
  (Z.of_nat (length l) <= n)%Z -> slice_to n l = l.
Proof.
  intros Hn. rewrite slice_to_nonneg by lia. apply firstn_all2. lia.
Qed.

(** A negative limit cuts from the end instead, and the marker is always
    there. *)
Lemma truncate_negative_limit (CONFIG : Config) (n : Z) (t : pystr) :
  max_body_length_for_llm CONFIG = Some n -> (n < 0)%Z ->
  truncate U CONFIG (collapse U t) =
  firstn (Z.to_nat (Z.of_nat (length (collapse U t)) + n)) (collapse U t) ++ str "...".
Proof.
  intros Hcfg Hn. unfold truncate, max_len. rewrite Hcfg, strip_collapse. simpl.
  unfold slice_to. destruct (Z.leb_spec 0 n); [lia|].
  destruct (Z.gtb_spec (Z.of_nat (length (collapse U t))) n); [reflexivity|lia].
Qed.

End Body.

(** C6.  The body of the extracted content is the collected text with
    its whitespace runs collapsed to single spaces and trimmed (the same
    words, separated by one space each, nothing to strip), cut to
    [max_body_length_for_llm] characters (1000 when not configured), with
    ["..."] appended exactly when the collapsed text is longer than the
    limit; a text within the limit is the body unchanged. *)
Theorem C6_body_collapsed_truncated (U : Unicode)
    (parsedate_to_datetime : pystr -> option Date.datetime)
    (CONFIG : Config) (raw : message) :
  let limit := get_default (max_body_length_for_llm CONFIG) 1000%Z in
  let collected := collected_text U (msg_payload raw) in
  let text := collapse U collected in
  let b := body (get_email_content U parsedate_to_datetime CONFIG raw) in
  (0 <= limit)%Z ->
  (split U text = split U collected /\
   text = join (str " ") (split U text) /\
   single_spaced U true text = true /\
   strip U text = text) /\
  b = firstn (Z.to_nat limit) text ++
      (if (Z.of_nat (length text) >? limit)%Z then str "..." else []) /\
  ((Z.of_nat (length text) <= limit)%Z -> b = text) /\
  ((Z.of_nat (length text) > limit)%Z ->
     b = firstn (Z.to_nat limit) text ++ str "..." /\
     Z.of_nat (length b) = (limit + 3)%Z).
Proof.
  intros limit collected text b Hlimit.
  assert (Hb : b = firstn (Z.to_nat limit) text ++
      (if (Z.of_nat (length text) >? limit)%Z then str "..." else [])).
  { subst b. unfold get_email_content.
    destruct (scan_headers U parsedate_to_datetime (msg_headers raw)) as [[s f] d].
    cbn [body]. unfold truncate, max_len. fold limit. fold collected. fold text.
    unfold text at 1 2. rewrite strip_collapse. fold text.
    now rewrite slice_to_nonneg by assumption. }
  split; [|split; [exact Hb|split]].
  - repeat split.
    + apply split_collapse.
    + unfold text at 1. symmetry. apply collapse_idem.
    + apply single_spaced_collapse.
    + apply strip_collapse.
  - intros Hle. rewrite Hb.
    destruct (Z.gtb_spec (Z.of_nat (length text)) limit); [lia|].
    rewrite app_nil_r. apply firstn_all2. lia.
  - intros Hgt. rewrite Hb.
    destruct (Z.gtb_spec (Z.of_nat (length text)) limit); [|lia].
    split; [reflexivity|].
    rewrite length_app, length_firstn. simpl. lia.
Qed.

(* ================================================================== *)
(** * The invoice scenario *)
(* ================================================================== *)

(** The extraction of the invoice record when its [Date] header parses to
    10:00:00 on 2024-01-01 at offset 0 and the body limit leaves
    ["Please pay."] whole. *)
Lemma invoice_extraction (U : Unicode)
    (parsedate_to_datetime : pystr -> option Date.datetime) (CONFIG : Config) :
  parsedate_to_datetime Sample.invoice_date = Some Sample.invoice_datetime ->
  (11 <= get_default (max_body_length_for_llm CONFIG) 1000)%Z ->
  get_email_content U parsedate_to_datetime CONFIG Sample.invoice =
  Sample.invoice_content (str "UTC").
Proof.
  intros Hparse Hlimit.
  unfold get_email_content, Sample.invoice. cbn [msg_headers msg_payload msg_id msg_snippet].
  assert (Hscan : scan_headers U parsedate_to_datetime
            [ {| h_name := str "Subject"; h_value := str "Invoice #42" |};
              {| h_name := str "From"; h_value := str "b@x.com" |};
              {| h_name := str "Date"; h_value := Sample.invoice_date |} ]
          = (str "Invoice #42", str "b@x.com", Some Sample.invoice_datetime)).
  { unfold scan_headers. cbn [fold_left].
    unfold header_step at 3. cbn [h_name h_value].
    change (PyStr.eqb (lower U (str "Subject")) (str "subject")) with true. cbv iota.
    unfold header_step at 2. cbn [h_name h_value].
    change (PyStr.eqb (lower U (str "From")) (str "subject")) with false.
    change (PyStr.eqb (lower U (str "From")) (str "from")) with true. cbv iota.
    unfold header_step. cbn [h_name h_value].
    change (PyStr.eqb (lower U (str "Date")) (str "subject")) with false.
    change (PyStr.eqb (lower U (str "Date")) (str "from")) with false.
    change (PyStr.eqb (lower U (str "Date")) (str "date")) with true. cbv iota.
    now rewrite Hparse. }
  rewrite Hscan.
  unfold Sample.invoice_content. f_equal; try reflexivity.
  unfold truncate, max_len.
  set (limit := get_default (max_body_length_for_llm CONFIG) 1000%Z) in *.
  change (strip U (collapse U (collected_text U
            (Part (str "text/plain") (Some (Data (str "Please pay."))) None))))
    with (str "Please pay.").
  rewrite slice_to_all by (simpl; lia).
  destruct (Z.gtb_spec (Z.of_nat (length (str "Please pay."))) limit) as [Hgt|_].
  - simpl in Hgt. lia.
  - apply app_nil_r.
Qed.

(** C9.  For the raw record with headers Subject
    ["Invoice #42"], From ["b@x.com"], Date ["Tue, 1 Jan 2024 10:00:00 GMT"]
    and a single [text/plain] body ["Please pay."], extraction gives
    subject ["Invoice #42"], sender ["b@x.com"], body ["Please pay."] and
    the date text ["2024-01-01 10:00:00 UTC"]: [%Z] prints the name of the
    fixed-offset zone the parser attaches, and for offset 0 that is
    [UTC]. *)
Theorem C9_invoice_scenario (U : Unicode)
    (parsedate_to_datetime : pystr -> option Date.datetime) (CONFIG : Config) :
  parsedate_to_datetime Sample.invoice_date = Some Sample.invoice_datetime ->
  (11 <= get_default (max_body_length_for_llm CONFIG) 1000)%Z ->
  let content := get_email_content U parsedate_to_datetime CONFIG Sample.invoice in
  subject content = str "Invoice #42" /\
  sender content = str "b@x.com" /\
  body content = str "Please pay." /\
  received_date_str content = str "2024-01-01 10:00:00 UTC".
Proof.
  intros Hparse Hlimit content. subst content.
  rewrite (invoice_extraction U parsedate_to_datetime CONFIG Hparse Hlimit).
  repeat split.
Qed.

Lemma C9_invoice_scenario_witness :
  let content :=
    get_email_content Sample.ascii_only Sample.parse_invoice_date Sample.config
      Sample.invoice in
  subject content = str "Invoice #42" /\
  sender content = str "b@x.com" /\
  body content = str "Please pay." /\
  received_date_str content = str "2024-01-01 10:00:00 UTC".
Proof.
  apply (C9_invoice_scenario Sample.ascii_only Sample.parse_invoice_date Sample.config).
  - reflexivity.
  - vm_compute. discriminate.
Defined.

(** The scenario as the specification words it, with the date text
    ["2024-01-01 10:00:00 GMT"], does not hold. *)
Lemma C9_date_text_is_not_GMT :
  ~ (forall (U : Unicode) (parsedate_to_datetime : pystr -> option Date.datetime)
            (CONFIG : Config),
       parsedate_to_datetime Sample.invoice_date = Some Sample.invoice_datetime ->
       (11 <= get_default (max_body_length_for_llm CONFIG) 1000)%Z ->
       let content := get_email_content U parsedate_to_datetime CONFIG Sample.invoice in
       subject content = str "Invoice #42" /\
       sender content = str "b@x.com" /\
       body content = str "Please pay." /\
       received_date_str content = str "2024-01-01 10:00:00 GMT").
Proof.
  intros H.
  specialize (H Sample.ascii_only Sample.parse_invoice_date Sample.config).
  destruct H as (_ & _ & _ & Hdate); [reflexivity | vm_compute; discriminate |].
  vm_compute in Hdate. discriminate.
Qed.

(* ================================================================== *)
(** * The example store and the candidate list *)
(* ================================================================== *)

Lemma has_content_contentful (content : email_content) :
  has_content content = true <-> contentful content.
Proof.
  unfold has_content, contentful.
  destruct (subject content), (body content); split; intros H;
    try reflexivity; try discriminate; try (left; discriminate);
    try (right; discriminate).
  destruct H as [H|H]; contradiction.
Qed.

Lemma has_content_false (content : email_content) :
  has_content content = false <-> subject content = [] /\ body content = [].
Proof.
  unfold has_content.
  destruct (subject content), (body content); split; intros H;
    try reflexivity; try discriminate; try (split; reflexivity);
    destruct H; discriminate.
Qed.

Section Store.
Variable U : Unicode.
Variable parsedate_to_datetime : pystr -> option Date.datetime.
Variable CONFIG : Config.
Context {Env : Type}.
Variable service : Service Env.

Local Abbreviation load_examples_ := (load_examples U parsedate_to_datetime CONFIG service).
Local Abbreviation load_folder_ := (load_folder U parsedate_to_datetime CONFIG service).
Local Abbreviation load_folders_ := (load_folders U parsedate_to_datetime CONFIG service).
Local Abbreviation fetch_contents_ := (fetch_contents U parsedate_to_datetime CONFIG service).
Local Abbreviation extract := (get_email_content U parsedate_to_datetime CONFIG).

Lemma request_eq {A} (e : event) (f : Env -> result A * Env) (st : state Env) :
  request e f st =
  (Done (fst (f (env st))), {| env := snd (f (env st)); trace := trace st ++ [e] |}).
Proof. unfold request. now destruct (f (env st)). Qed.

(** The loop over a folder's messages ends normally, and appends
    contentful extractions only. *)
Lemma load_examples_spec (messages : list pystr) (loaded : list email_content)
    (st : state Env) :
  exists extra st',
    load_examples_ messages loaded st = (Done (loaded ++ extra), st') /\
    Forall contentful extra.
Proof.
  revert loaded st. induction messages as [|msg messages IH]; intros loaded st.
  - exists [], st. rewrite app_nil_r. split; [reflexivity|constructor].
  - cbn [load_examples]. unfold bind. rewrite request_eq.
    destruct (fst (messages_get service msg (env st))) as [raw|].
    + destruct (has_content (extract raw)) eqn:Ec.
      * destruct (IH (loaded ++ [extract raw])
                    {| env := snd (messages_get service msg (env st));
                       trace := trace st ++ [GetMessage msg] |})
          as (extra & st' & Heq & Hextra).
        exists (extract raw :: extra), st'. split.
        -- rewrite Heq. now rewrite <- app_assoc.
        -- constructor; [now apply has_content_contentful | assumption].
      * apply IH.
    + eexists [], _. rewrite app_nil_r. split; [reflexivity|constructor].
Qed.

Lemma load_folder_spec (folder_data : folder) (st : state Env) :
  exists extra st',
    load_folder_ folder_data st =
      (Done {| folder_id := folder_id folder_data;
               folder_name := folder_name folder_data;
               examples := examples folder_data ++ extra |}, st') /\
    Forall contentful extra.
Proof.
  unfold load_folder, bind. rewrite request_eq.
  destruct (fst (messages_list service _ _ _ _)) as [messages|].
  - destruct (load_examples_spec messages (examples folder_data)
                {| env := snd (messages_list service [folder_id folder_data] None
                                 (examples_limit CONFIG) (env st));
                   trace := trace st ++
                     [ListMessages [folder_id folder_data] None (examples_limit CONFIG)] |})
      as (extra & st' & Heq & Hextra).
    exists extra, st'. rewrite Heq. split; [reflexivity|assumption].
  - eexists [], _. rewrite app_nil_r. split; [|constructor].
    destruct folder_data; reflexivity.
Qed.

(** The folders after the load: same categories in the same order, each
    with contentful examples added (or none). *)
Lemma load_folders_spec (ai_folders_map : Dict.dict folder) (st : state Env) :
  exists loaded st',
    load_folders_ ai_folders_map st = (Done loaded, st') /\
    Forall2 (fun before after =>
               fst after = fst before /\
               folder_id (snd after) = folder_id (snd before) /\
               exists extra,
                 examples (snd after) = examples (snd before) ++ extra /\
                 Forall contentful extra)
            ai_folders_map loaded.
Proof.
  revert st. induction ai_folders_map as [|[category_name folder_data] rest IH]; intros st.
  - exists [], st. split; [reflexivity|constructor].
  - cbn [load_folders]. unfold bind.
    destruct (load_folder_spec folder_data st) as (extra & st1 & Heq & Hextra).
    rewrite Heq.
    destruct (IH st1) as (loaded & st2 & Heq2 & Hall).
    rewrite Heq2. eexists _, st2. split; [reflexivity|].
    constructor; [|assumption]. simpl. eauto.
Qed.

(** The loop over the inbox messages ends normally, and appends
    contentful extractions only. *)
Lemma fetch_contents_spec (messages_meta : list pystr) (fetched : list email_content)
    (st : state Env) :
  exists extra st',
    fetch_contents_ messages_meta fetched st = (Done (fetched ++ extra), st') /\
    Forall contentful extra.
Proof.
  revert fetched st. induction messages_meta as [|msg rest IH]; intros fetched st.
  - exists [], st. rewrite app_nil_r. split; [reflexivity|constructor].
  - cbn [fetch_contents]. unfold bind. rewrite request_eq.
    destruct (fst (messages_get service msg (env st))) as [raw|].
    + destruct (has_content (extract raw)) eqn:Ec.
      * destruct (IH (fetched ++ [extract raw])
                    {| env := snd (messages_get service msg (env st));
                       trace := trace st ++ [GetMessage msg] |})
          as (extra & st' & Heq & Hextra).
        exists (extract raw :: extra), st'. split.
        -- rewrite Heq. now rewrite <- app_assoc.
        -- constructor; [now apply has_content_contentful | assumption].
      * apply IH.
    + apply IH.
Qed.

Lemma dict_set_Forall {V} (P : V -> Prop) (d : Dict.dict V) (k : pystr) (v : V) :
  Forall (fun kv => P (snd kv)) d -> P v ->
  Forall (fun kv => P (snd kv)) (Dict.set d k v).
Proof.
  intros Hd Hv. induction Hd as [|[k' v'] d Hk Hd IH]; simpl.
  - constructor; [assumption|constructor].
  - destruct (PyStr.eqb k' k); constructor; assumption.
Qed.

(** [get_ai_auto_folders] gives every category an empty example list. *)
Lemma get_ai_auto_folders_empty (all_labels_map : Dict.dict pystr) :
  Forall (fun kv => examples (snd kv) = []) (get_ai_auto_folders CONFIG all_labels_map).
Proof.
  unfold get_ai_auto_folders.
  assert (H : forall acc, Forall (fun kv : pystr * folder => examples (snd kv) = []) acc ->
    Forall (fun kv => examples (snd kv) = [])
      (fold_left
         (fun ai_folders '(name, label_id) =>
            match strip_prefix (ai_folder_prefix CONFIG) name with
            | Some category_name =>
                Dict.set ai_folders category_name
                  {| folder_id := label_id; folder_name := name; examples := [] |}
            | None => ai_folders
            end) all_labels_map acc)).
  { induction all_labels_map as [|[name label_id] rest IH]; intros acc Hacc; simpl.
    - assumption.
    - apply IH. destruct (strip_prefix _ name); [|assumption].
      now apply (dict_set_Forall (fun v => examples v = [])). }
  apply H. constructor.
Qed.

End Store.

Section StoreClaims.
Variable U : Unicode.
Variable parsedate_to_datetime : pystr -> option Date.datetime.
Variable CONFIG : Config.
Context {Env : Type}.
Variable service : Service Env.

Lemma filter_Forall {A} (P : A -> Prop) (f : A -> bool) (l : list A) :
  Forall P l -> Forall P (List.filter f l).
Proof.
  induction 1 as [|x l Hx Hl IH]; simpl; [constructor|].
  destruct (f x); [constructor|]; assumption.
Qed.

Lemma filter_true_Forall {A} (f : A -> bool) (l : list A) :
  Forall (fun x => f x = true) (List.filter f l).
Proof.
  induction l as [|x l IH]; simpl; [constructor|].
  destruct (f x) eqn:E; [constructor|]; assumption.
Qed.

Lemma filter_nil_Forall {A} (f : A -> bool) (l : list A) :
  List.filter f l = [] -> Forall (fun x => f x = false) l.
Proof.
  induction l as [|x l IH]; simpl; [constructor|].
  destruct (f x) eqn:E; [discriminate|]. constructor; auto.
Qed.

(** What [fetch_example_emails] returns, in terms of the loaded
    folders. *)
Lemma fetch_example_emails_eq (ai_folders_map : Dict.dict folder) (st : state Env) :
  exists loaded st',
    load_folders U parsedate_to_datetime CONFIG service ai_folders_map st
      = (Done loaded, st') /\
    fetch_example_emails U parsedate_to_datetime CONFIG service ai_folders_map st =
      match List.filter (fun kv => has_examples (snd kv)) loaded with
      | [] => (Exit 1, st')
      | final => (Done final, st')
      end.
Proof.
  destruct (load_folders_spec U parsedate_to_datetime CONFIG service ai_folders_map st)
    as (loaded & st' & Heq & _).
  exists loaded, st'. split; [assumption|].
  unfold fetch_example_emails, bind. rewrite Heq.
  now destruct (List.filter _ loaded).
Qed.

Lemma has_examples_true (v : folder) : has_examples v = true <-> examples v <> [].
Proof. unfold has_examples. destruct (examples v); split; congruence. Qed.

Lemma has_examples_false (v : folder) : has_examples v = false <-> examples v = [].
Proof. unfold has_examples. destruct (examples v); split; congruence. Qed.

End StoreClaims.

(** C3.  A content whose subject and body are both empty is dropped.
    Both loops pass over a message whose extraction is contentless without
    appending it; so every example of every category that
    [fetch_example_emails] returns, and every candidate that
    [fetch_inbox_emails] returns, has a subject or a body. *)
Theorem C3_contentless_dropped (U : Unicode)
    (parsedate_to_datetime : pystr -> option Date.datetime) (CONFIG : Config)
    {Env : Type} (service : Service Env) :
  (forall msg rest acc st raw env1,
     messages_get service msg (env st) = (Returned raw, env1) ->
     subject (get_email_content U parsedate_to_datetime CONFIG raw) = [] ->
     body (get_email_content U parsedate_to_datetime CONFIG raw) = [] ->
     let st1 := {| env := env1; trace := trace st ++ [GetMessage msg] |} in
     load_examples U parsedate_to_datetime CONFIG service (msg :: rest) acc st =
       load_examples U parsedate_to_datetime CONFIG service rest acc st1 /\
     fetch_contents U parsedate_to_datetime CONFIG service (msg :: rest) acc st =
       fetch_contents U parsedate_to_datetime CONFIG service rest acc st1) /\
  (forall all_labels_map st final st',
     fetch_example_emails U parsedate_to_datetime CONFIG service
       (get_ai_auto_folders CONFIG all_labels_map) st = (Done final, st') ->
     Forall (fun kv => Forall contentful (examples (snd kv))) final) /\
  (forall all_labels_map exclude st candidates st',
     fetch_inbox_emails U parsedate_to_datetime CONFIG service all_labels_map exclude st
       = (Done candidates, st') ->
     Forall contentful candidates).
Proof.
  split; [|split].
  - intros msg rest acc st raw env1 Hget Hs Hb st1.
    assert (Hc : has_content (get_email_content U parsedate_to_datetime CONFIG raw) = false)
      by now apply has_content_false.
    cbn [load_examples fetch_contents]. unfold bind. rewrite !request_eq, Hget.
    cbn [fst snd]. rewrite Hc. split; reflexivity.
  - intros all_labels_map st final st' Hfetch.
    destruct (load_folders_spec U parsedate_to_datetime CONFIG service
                (get_ai_auto_folders CONFIG all_labels_map) st)
      as (loaded & st1 & Hload & Hall).
    assert (Hloaded : Forall (fun kv => Forall contentful (examples (snd kv))) loaded).
    { pose proof (get_ai_auto_folders_empty CONFIG all_labels_map) as Hempty.
      clear Hload Hfetch. revert Hempty.
      generalize dependent (get_ai_auto_folders CONFIG all_labels_map).
      intros before Hall. induction Hall as [|b a l l' Hstep Hall IH]; intros Hempty.
      - constructor.
      - inversion Hempty as [|? ? Hb Hrest]; subst.
        destruct Hstep as (_ & _ & extra & Hex & Hextra).
        constructor; [|now apply IH]. rewrite Hex, Hb. exact Hextra. }
    unfold fetch_example_emails, bind in Hfetch. rewrite Hload in Hfetch.
    destruct (List.filter _ loaded) as [|kv final'] eqn:Ef; [discriminate|].
    injection Hfetch as <- _. rewrite <- Ef. now apply filter_Forall.
  - intros all_labels_map exclude st candidates st' Hfetch.
    unfold fetch_inbox_emails in Hfetch.
    destruct (Dict.get all_labels_map (inbox_label CONFIG)) as [[|c l]|];
      try discriminate.
    unfold bind in Hfetch. rewrite request_eq in Hfetch.
    destruct (fst (messages_list service _ _ _ _)) as [messages_meta|].
    + match type of Hfetch with
      | fetch_contents _ _ _ _ ?ms [] ?s = _ =>
          destruct (fetch_contents_spec U parsedate_to_datetime CONFIG service ms [] s)
            as (extra & st2 & Heq & Hextra)
      end.
      rewrite Heq in Hfetch. injection Hfetch as <- _. exact Hextra.
    + injection Hfetch as <- _. constructor.
Qed.

(* ================================================================== *)
(** * The check of one category and the loop over the categories *)
(* ================================================================== *)

Lemma chat_calls_app (t1 t2 : list event) :
  chat_calls (t1 ++ t2) = chat_calls t1 + chat_calls t2.
Proof.
  induction t1 as [|e t1 IH]; [reflexivity|].
  destruct e; simpl; rewrite IH; reflexivity.
Qed.

Section Driver.
Variable U : Unicode.
Variable CONFIG : Config.
Context {Env : Type}.
Variable service : Service Env.

Local Abbreviation check := (ollama_check_similarity U CONFIG service).
Local Abbreviation classify := (classify_email U CONFIG service).

(** [move_email] is one [modify] request. *)
Lemma move_email_eq (msg target_label_id : pystr) (all_labels_map : Dict.dict pystr)
    (source_label_name : pystr) (st : state Env) :
  let body := move_request target_label_id all_labels_map source_label_name in
  let answer := messages_modify service msg body (env st) in
  move_email service msg target_label_id all_labels_map source_label_name st =
  (Done (match fst answer with Returned _ => true | Raised => false end),
   {| env := snd answer; trace := trace st ++ [ModifyMessage msg body] |}).
Proof.
  intros body answer. unfold move_email, bind. rewrite request_eq.
  fold body. fold answer. now destruct (fst answer).
Qed.

(** One check sends at most one chat request, and never exits. *)
Lemma check_chat_calls (category_name : pystr) (example_emails_list : list email_content)
    (new_email_content : email_content) (st : state Env) :
  let r := check category_name example_emails_list new_email_content st in
  chat_calls (trace (snd r)) <= chat_calls (trace st) + 1 /\
  (forall code, fst r <> Exit code).
Proof.
  unfold ollama_check_similarity.
  destruct (ollama_host CONFIG) as [host|]; [|simpl; split; [lia|discriminate]].
  unfold bind. rewrite request_eq.
  destruct (fst (ollama_Client service host (env st)));
    [|simpl; rewrite chat_calls_app; simpl; split; [lia|discriminate]].
  destruct (similarity_prompt_v3 CONFIG) as [[|line lines]|];
    try (simpl; rewrite chat_calls_app; simpl; split; [lia|discriminate]).
  destruct (format _ _) as [prompt|];
    [|simpl; rewrite chat_calls_app; simpl; split; [lia|discriminate]].
  rewrite request_eq.
  destruct (fst (ollama_chat service _ _ _)) as [[content|]|];
    simpl; rewrite !chat_calls_app; simpl; split; try lia; discriminate.
Qed.

Lemma all_rejected_chat_calls (new_email_item : email_content)
    (categories : Dict.dict folder) (st st1 : state Env) :
  all_rejected U CONFIG service new_email_item categories st st1 ->
  chat_calls (trace st1) <= chat_calls (trace st) + length categories.
Proof.
  induction 1 as [|category folder_meta rest st st1 st2 Hcheck Hrest IH]; simpl; [lia|].
  pose proof (check_chat_calls category (examples folder_meta) new_email_item st) as [Hle _].
  cbv zeta in Hle. rewrite Hcheck in Hle. simpl in Hle. lia.
Qed.

(** The loop passes over the categories that are rejected. *)
Lemma classify_rejected (all_labels_map : Dict.dict pystr) (new_email_item : email_content)
    (pre rest : Dict.dict folder) (st st1 : state Env) :
  all_rejected U CONFIG service new_email_item pre st st1 ->
  classify all_labels_map (pre ++ rest) new_email_item st =
  classify all_labels_map rest new_email_item st1.
Proof.
  induction 1 as [|category folder_meta pre st st1 st2 Hcheck Hpre IH]; [reflexivity|].
  cbn [app classify_email]. unfold bind at 1. rewrite Hcheck. exact IH.
Qed.

(** What the loop returns, read back as a run of checks. *)
Lemma classify_email_spec (all_labels_map : Dict.dict pystr)
    (new_email_item : email_content) (categories : Dict.dict folder) (st : state Env) :
  match classify all_labels_map categories new_email_item st with
  | (Done (Some (category, moved)), st3) =>
      exists pre folder_meta post st1 st2,
        categories = pre ++ (category, folder_meta) :: post /\
        all_rejected U CONFIG service new_email_item pre st st1 /\
        check category (examples folder_meta) new_email_item st1 = (Done true, st2) /\
        move_email service (id new_email_item) (folder_id folder_meta) all_labels_map
          (inbox_label CONFIG) st2 = (Done moved, st3)
  | (Done None, st1) =>
      all_rejected U CONFIG service new_email_item categories st st1
  | (Exit _, _) => False
  | (Uncaught, st2) =>
      exists pre category folder_meta post st1,
        categories = pre ++ (category, folder_meta) :: post /\
        all_rejected U CONFIG service new_email_item pre st st1 /\
        check category (examples folder_meta) new_email_item st1 = (Uncaught, st2)
  end.
Proof.
  revert st. induction categories as [|[category folder_meta] rest IH]; intros st.
  - simpl. constructor.
  - cbn [classify_email]. unfold bind at 1.
    destruct (check category (examples folder_meta) new_email_item st)
      as [[[|]|code|] st1] eqn:Hcheck.
    + unfold bind. rewrite move_email_eq. unfold ret.
      exists [], folder_meta, rest, st, st1. repeat split; try assumption.
      * constructor.
      * now rewrite move_email_eq.
    + specialize (IH st1).
      destruct (classify all_labels_map rest new_email_item st1)
        as [[[[c moved]|]|code|] st2].
      * destruct IH as (pre & fm & post & sa & sb & -> & Hrej & Hc & Hm).
        exists ((category, folder_meta) :: pre), fm, post, sa, sb.
        repeat split; try assumption. econstructor; eassumption.
      * econstructor; eassumption.
      * assumption.
      * destruct IH as (pre & c & fm & post & sa & -> & Hrej & Hc).
        exists ((category, folder_meta) :: pre), c, fm, post, sa.
        repeat split; try assumption. econstructor; eassumption.
    + pose proof (check_chat_calls category (examples folder_meta) new_email_item st)
        as [_ Hne].
      cbv zeta in Hne. rewrite Hcheck in Hne. now apply (Hne code).
    + exists [], category, folder_meta, rest, st. repeat split; try assumption.
      constructor.
Qed.

End Driver.

(** C2.  The loop over the categories goes through them in the order of
    the map and stops at the first one whose check is a match.  If the
    categories [pre] are rejected in turn and the check of the next one
    matches, the loop returns that category, after the one relabel request,
    whatever categories [post] follow: its result and final state do not
    depend on [post], and the trace gains no chat request after the
    matching check (at most one per category of [pre], plus one).
    Conversely the category the loop returns is always the first match in
    this sense. *)
Theorem C2_first_match_wins (U : Unicode) (CONFIG : Config) {Env : Type}
    (service : Service Env) (all_labels_map : Dict.dict pystr)
    (new_email_item : email_content) :
  (forall pre category folder_meta post st st1 st2,
     all_rejected U CONFIG service new_email_item pre st st1 ->
     ollama_check_similarity U CONFIG service category (examples folder_meta)
       new_email_item st1 = (Done true, st2) ->
     exists moved st3,
       move_email service (id new_email_item) (folder_id folder_meta) all_labels_map
         (inbox_label CONFIG) st2 = (Done moved, st3) /\
       classify_email U CONFIG service all_labels_map
         (pre ++ (category, folder_meta) :: post) new_email_item st
         = (Done (Some (category, moved)), st3) /\
       chat_calls (trace st3) = chat_calls (trace st2) /\
       chat_calls (trace st3) <= chat_calls (trace st) + length pre + 1) /\
  (forall categories st,
     match classify_email U CONFIG service all_labels_map categories new_email_item st with
     | (Done (Some (category, moved)), st3) =>
         exists pre folder_meta post st1 st2,
           categories = pre ++ (category, folder_meta) :: post /\
           all_rejected U CONFIG service new_email_item pre st st1 /\
           ollama_check_similarity U CONFIG service category (examples folder_meta)
             new_email_item st1 = (Done true, st2) /\
           move_email service (id new_email_item) (folder_id folder_meta) all_labels_map
             (inbox_label CONFIG) st2 = (Done moved, st3)
     | (Done None, st1) =>
         all_rejected U CONFIG service new_email_item categories st st1
     | (Exit _, _) => False
     | (Uncaught, st2) =>
         exists pre category folder_meta post st1,
           categories = pre ++ (category, folder_meta) :: post /\
           all_rejected U CONFIG service new_email_item pre st st1 /\
           ollama_check_similarity U CONFIG service category (examples folder_meta)
             new_email_item st1 = (Uncaught, st2)
     end).
Proof.
  split.
  - intros pre category folder_meta post st st1 st2 Hpre Hcheck.
    eexists _, _. split; [apply move_email_eq|]. split; [|split].
    + rewrite (classify_rejected U CONFIG service all_labels_map new_email_item
                 pre _ st st1 Hpre).
      cbn [classify_email]. unfold bind at 1. rewrite Hcheck.
      unfold bind. rewrite move_email_eq. reflexivity.
    + simpl. rewrite chat_calls_app. simpl. lia.
    + simpl. rewrite chat_calls_app. simpl.
      pose proof (all_rejected_chat_calls U CONFIG service new_email_item pre st st1 Hpre).
      pose proof (check_chat_calls U CONFIG service category (examples folder_meta)
                    new_email_item st1) as [Hle _].
      cbv zeta in Hle. rewrite Hcheck in Hle. simpl in Hle. lia.
  - intros categories st. apply classify_email_spec.
Qed.

(** C5.  When the model call of a check fails (the client cannot be
    built, the chat request raises, or the response has no message text),
    the check returns no match, and the loop goes on with the categories
    that follow, from the state the failure left. *)
Theorem C5_model_failure_is_no_match (U : Unicode) (CONFIG : Config) {Env : Type}
    (service : Service Env) (category : pystr) (folder_meta : folder)
    (new_email_item : email_content) (st st1 : state Env) :
  model_call_fails U CONFIG service category (examples folder_meta) new_email_item st st1 ->
  ollama_check_similarity U CONFIG service category (examples folder_meta)
    new_email_item st = (Done false, st1) /\
  forall all_labels_map rest,
    classify_email U CONFIG service all_labels_map ((category, folder_meta) :: rest)
      new_email_item st =
    classify_email U CONFIG service all_labels_map rest new_email_item st1.
Proof.
  intros Hfail.
  assert (Hcheck : ollama_check_similarity U CONFIG service category
            (examples folder_meta) new_email_item st = (Done false, st1)).
  { unfold ollama_check_similarity.
    destruct Hfail as [host env1 Hhost Hclient
                      |host env1 client line lines prompt response env2
                         Hhost Hclient Htemplate Hformat Hchat Hresponse].
    - rewrite Hhost. unfold bind. rewrite request_eq, Hclient. reflexivity.
    - rewrite Hhost. unfold bind. rewrite request_eq, Hclient. cbn [fst snd].
      rewrite Htemplate, Hformat, request_eq. cbn [env trace]. rewrite Hchat. cbn [fst snd].
      destruct Hresponse as [-> | ->]; reflexivity. }
  split; [exact Hcheck|].
  intros all_labels_map rest. cbn [classify_email]. unfold bind at 1.
  now rewrite Hcheck.
Qed.

(* ================================================================== *)
(** * The prompt template *)
(* ================================================================== *)

Lemma eqb_sym (a b : pystr) : PyStr.eqb a b = PyStr.eqb b a.
Proof.
  destruct (PyStr.eqb a b) eqn:E1, (PyStr.eqb b a) eqn:E2; try reflexivity.
  - apply eqb_eq in E1. subst. now rewrite eqb_refl in E2.
  - apply eqb_eq in E2. subst. now rewrite eqb_refl in E1.
Qed.

Lemma dict_get_keys {V} (d : Dict.dict V) (k : pystr) :
  match Dict.get d k with
  | Some _ => existsb (PyStr.eqb k) (List.map fst d) = true
  | None => existsb (PyStr.eqb k) (List.map fst d) = false
  end.
Proof.
  induction d as [|[k' v] d IH]; simpl; [reflexivity|].
  rewrite (eqb_sym k k'). destruct (PyStr.eqb k' k); simpl; [reflexivity|exact IH].
Qed.

(** A field is bound by the [format] call exactly when it is one of the
    eight keyword names. *)
Lemma kwargs_get (CONFIG : Config) (category_name : pystr)
    (example_emails_list : list email_content) (new_email_content : email_content)
    (name : pystr) :
  match Dict.get (prompt_kwargs CONFIG category_name example_emails_list new_email_content)
          name with
  | Some _ => is_keyword name = true
  | None => is_keyword name = false
  end.
Proof.
  exact (dict_get_keys
           (prompt_kwargs CONFIG category_name example_emails_list new_email_content) name).
Qed.

Lemma render_known (U : Unicode) (CONFIG : Config) (category_name : pystr)
    (example_emails_list : list email_content) (new_email_content : email_content)
    (template : list segment) :
  plain_fields template = true ->
  forallb is_keyword (fields template) = true ->
  exists prompt,
    render U template
      (prompt_kwargs CONFIG category_name example_emails_list new_email_content)
    = Some prompt.
Proof.
  induction template as [|[text|name|name field] rest IH]; intros Hplain Hall.
  - now exists [].
  - destruct (IH Hplain Hall) as [p Hp]. exists (text ++ p). cbn [render]. now rewrite Hp.
  - cbn [fields forallb] in Hall. apply andb_true_iff in Hall as [Hname Hrest].
    destruct (IH Hplain Hrest) as [p Hp].
    pose proof (kwargs_get CONFIG category_name example_emails_list new_email_content name)
      as Hget.
    cbn [render].
    destruct (Dict.get _ name) as [value|]; [|congruence].
    exists (value ++ p). now rewrite Hp.
  - discriminate.
Qed.

Lemma render_unknown (U : Unicode) (CONFIG : Config) (category_name : pystr)
    (example_emails_list : list email_content) (new_email_content : email_content)
    (template : list segment) :
  forallb is_keyword (fields template) = false ->
  render U template
    (prompt_kwargs CONFIG category_name example_emails_list new_email_content)
  = None.
Proof.
  induction template as [|[text|name|name field] rest IH]; intros Hall.
  - discriminate.
  - cbn [render]. now rewrite (IH Hall).
  - cbn [fields forallb] in Hall.
    pose proof (kwargs_get CONFIG category_name example_emails_list new_email_content name)
      as Hget.
    cbn [render].
    destruct (Dict.get _ name) as [value|]; [|reflexivity].
    rewrite Hget in Hall. simpl in Hall. now rewrite (IH Hall).
  - cbn [fields forallb] in Hall.
    pose proof (kwargs_get CONFIG category_name example_emails_list new_email_content name)
      as Hget.
    cbn [render].
    destruct (Dict.get _ name) as [value|]; [|reflexivity].
    rewrite Hget in Hall. simpl in Hall. rewrite (IH Hall).
    now destruct (py_format_field U field _).
Qed.

(** An exception that leaves a check leaves the loop over the inbox
    too. *)
Lemma process_inbox_uncaught (U : Unicode) (CONFIG : Config) {Env : Type}
    (service : Service Env) (all_labels_map : Dict.dict pystr)
    (categories : Dict.dict folder) (new_email_item : email_content)
    (rest : list email_content) (c : counters) (st st1 : state Env) :
  classify_email U CONFIG service all_labels_map categories new_email_item st
    = (Uncaught, st1) ->
  process_inbox U CONFIG service all_labels_map categories (new_email_item :: rest) c st
    = (Uncaught, st1).
Proof.
  intros H. cbn [process_inbox]. unfold bind at 1. now rewrite H.
Qed.

(** The check once the client is built. *)
Lemma check_with_client (U : Unicode) (CONFIG : Config) {Env : Type}
    (service : Service Env) (category_name : pystr)
    (example_emails_list : list email_content) (new_email_content : email_content)
    (st : state Env) (host : pystr) (client : unit) (env1 : Env) :
  ollama_host CONFIG = Some host ->
  ollama_Client service host (env st) = (Returned client, env1) ->
  let st1 := {| env := env1; trace := trace st ++ [NewClient host] |} in
  ollama_check_similarity U CONFIG service category_name example_emails_list
    new_email_content st =
  match similarity_prompt_v3 CONFIG with
  | None | Some [] => (Done false, st1)
  | Some ((_ :: _) as prompt_template_lines) =>
      match format U (join NEWLINE prompt_template_lines)
              (prompt_kwargs CONFIG category_name example_emails_list new_email_content) with
      | None => (Uncaught, st1)
      | Some prompt =>
          let answer := ollama_chat service (model_name CONFIG) prompt env1 in
          (Done match fst answer with
                | Returned (Some content) => interpret_answer U content
                | _ => false
                end,
           {| env := snd answer;
              trace := trace st1 ++ [Chat (model_name CONFIG) prompt] |})
      end
  end.
Proof.
  intros Hhost Hclient st1. subst st1. unfold ollama_check_similarity. rewrite Hhost.
  unfold bind. rewrite request_eq, Hclient. cbn [fst snd].
  destruct (similarity_prompt_v3 CONFIG) as [[|line lines]|]; try reflexivity.
  destruct (format _ _) as [prompt|]; [|reflexivity].
  rewrite request_eq. cbn [env trace].
  destruct (fst (ollama_chat service (model_name CONFIG) prompt env1)) as [[content|]|];
    reflexivity.
Qed.

(** C8.  With the host configured and the client built: a missing (or
    empty) template makes the check return no match without a chat
    request, and the loop goes on with the next category; a template of
    literal text and of fields that are names among the eight keyword
    names, and nothing else, is rendered and sent, whichever of the names
    it leaves out; a template that [str.format] cannot parse, or that has
    a field whose first name is none of the eight, makes [format] raise,
    and the exception leaves the check, the loop over the categories and
    the loop over the inbox before any chat request for that email. *)
Theorem C8_template_errors (U : Unicode) (CONFIG : Config) {Env : Type}
    (service : Service Env) (category : pystr) (folder_meta : folder)
    (new_email_item : email_content) (st : state Env)
    (host : pystr) (client : unit) (env1 : Env) :
  ollama_host CONFIG = Some host ->
  ollama_Client service host (env st) = (Returned client, env1) ->
  let st1 := {| env := env1; trace := trace st ++ [NewClient host] |} in
  let check :=
    ollama_check_similarity U CONFIG service category (examples folder_meta)
      new_email_item st in
  (similarity_prompt_v3 CONFIG = None \/ similarity_prompt_v3 CONFIG = Some [] ->
   check = (Done false, st1) /\
   forall all_labels_map rest,
     classify_email U CONFIG service all_labels_map ((category, folder_meta) :: rest)
       new_email_item st =
     classify_email U CONFIG service all_labels_map rest new_email_item st1) /\
  (forall line lines segments,
     similarity_prompt_v3 CONFIG = Some (line :: lines) ->
     Template.parse (join NEWLINE (line :: lines)) = Some segments ->
     plain_fields segments = true ->
     forallb is_keyword (fields segments) = true ->
     exists prompt,
       format U (join NEWLINE (line :: lines))
         (prompt_kwargs CONFIG category (examples folder_meta) new_email_item)
         = Some prompt /\
       let answer := ollama_chat service (model_name CONFIG) prompt env1 in
       check =
       (Done match fst answer with
             | Returned (Some content) => interpret_answer U content
             | _ => false
             end,
        {| env := snd answer;
           trace := trace st1 ++ [Chat (model_name CONFIG) prompt] |})) /\
  (forall line lines,
     similarity_prompt_v3 CONFIG = Some (line :: lines) ->
     Template.parse (join NEWLINE (line :: lines)) = None \/
     (exists segments,
        Template.parse (join NEWLINE (line :: lines)) = Some segments /\
        forallb is_keyword (fields segments) = false) ->
     check = (Uncaught, st1) /\
     forall all_labels_map rest more c,
       classify_email U CONFIG service all_labels_map ((category, folder_meta) :: rest)
         new_email_item st = (Uncaught, st1) /\
       process_inbox U CONFIG service all_labels_map ((category, folder_meta) :: rest)
         (new_email_item :: more) c st = (Uncaught, st1)).
Proof.
  intros Hhost Hclient st1 check.
  pose proof (check_with_client U CONFIG service category (examples folder_meta)
                new_email_item st host client env1 Hhost Hclient) as Hstart.
  cbv zeta in Hstart. fold st1 in Hstart. fold check in Hstart.
  split; [|split].
  - intros Hmissing.
    assert (Hcheck : check = (Done false, st1)).
    { rewrite Hstart. destruct Hmissing as [-> | ->]; reflexivity. }
    split; [exact Hcheck|].
    intros all_labels_map rest. cbn [classify_email]. unfold bind at 1.
    fold check. now rewrite Hcheck.
  - intros line lines segments Htemplate Hparse Hplain Hknown.
    destruct (render_known U CONFIG category (examples folder_meta) new_email_item
                segments Hplain Hknown) as [prompt Hprompt].
    assert (Hformat : format U (join NEWLINE (line :: lines))
                        (prompt_kwargs CONFIG category (examples folder_meta)
                           new_email_item) = Some prompt).
    { unfold format. now rewrite Hparse. }
    exists prompt. split; [exact Hformat|].
    intros answer. rewrite Hstart, Htemplate, Hformat. reflexivity.
  - intros line lines Htemplate Hbad.
    assert (Hformat : format U (join NEWLINE (line :: lines))
                        (prompt_kwargs CONFIG category (examples folder_meta)
                           new_email_item) = None).
    { unfold format. destruct Hbad as [-> | (segments & -> & Hunknown)]; [reflexivity|].
      now apply render_unknown. }
    assert (Hcheck : check = (Uncaught, st1)).
    { rewrite Hstart, Htemplate. now rewrite Hformat. }
    split; [exact Hcheck|].
    intros all_labels_map rest more c.
    assert (Hclassify : classify_email U CONFIG service all_labels_map
              ((category, folder_meta) :: rest) new_email_item st = (Uncaught, st1)).
    { cbn [classify_email]. unfold bind at 1. fold check. now rewrite Hcheck. }
    split; [exact Hclassify|]. now apply process_inbox_uncaught.
Qed.

(** In a configuration without the template every check is a no match
    and the loop runs to its end; with a template that has only the
    category name of the eight keyword names, the prompt is rendered, sent
    and answered.  Neither ends the run. *)
Lemma C8_template_gaps_are_not_fatal :
  similarity_prompt_v3 Fixture.config_without_template = None /\
  classify_email Sample.ascii_only Fixture.config_without_template (Fixture.service true)
    Fixture.all_labels_map Fixture.categories Fixture.trip
    (Fixture.start [Returned (Some (str "YES"))])
  = (Done None,
     {| env := [Returned (Some (str "YES"))];
        trace := [NewClient (str "http://localhost:11434");
                  NewClient (str "http://localhost:11434")] |}) /\
  is_keyword (str "new_email_body") = true /\
  option_map fields
    (Template.parse
       (join NEWLINE (get_default (similarity_prompt_v3 Fixture.config_short_template) [])))
  = Some [str "category_name"] /\
  ollama_check_similarity Sample.ascii_only Fixture.config_short_template
    (Fixture.service true) (str "Receipts") (Fixture.example (str "m1")) Fixture.trip
    (Fixture.start [Returned (Some (str "YES"))])
  = (Done true,
     {| env := [];
        trace := [NewClient (str "http://localhost:11434");
                  Chat (str "qwen:14b")
                    (str "Does this email belong to Receipts? Answer YES or NO.")] |}).
Proof. repeat split; vm_compute; reflexivity. Qed.

(* ================================================================== *)
(** * The relabel request *)
(* ================================================================== *)

Lemma mailbox_modify_other (msg other : pystr) (request : modify_body)
    (mb : Mailbox.mailbox) :
  other <> msg -> snd (Mailbox.modify msg request mb) !! other = mb !! other.
Proof.
  intros Hne. unfold Mailbox.modify. destruct (mb !! msg); simpl; [|reflexivity].
  apply lookup_insert_ne. congruence.
Qed.

Lemma relabel_add_only (target : pystr) (labels : gset pystr) :
  Mailbox.relabel {| addLabelIds := [target]; removeLabelIds := None |} labels
  = labels ∪ {[target]}.
Proof.
  unfold Mailbox.relabel. simpl.
  now rewrite (right_id_L ∅ (∪) {[target]}), difference_empty_L.
Qed.

(** C10.  [move_email] sends one [modify] request, for the one message,
    whose body has [addLabelIds] with the target label and, only when the
    source label name has an id in the label map, [removeLabelIds] with
    that id; it returns whether the request went through.  When the source
    label name is not in the map the request only adds: on a mailbox of
    label sets it succeeds for a message that is there and leaves it with
    all its former labels and the target.  In every case the labels of
    every other message stay what they were. *)
Theorem C10_move_email_frame {Env : Type} (service : Service Env)
    (msg target_label_id : pystr) (all_labels_map : Dict.dict pystr)
    (source_label_name : pystr) (st : state Env) :
  let request := move_request target_label_id all_labels_map source_label_name in
  let answer := messages_modify service msg request (env st) in
  move_email service msg target_label_id all_labels_map source_label_name st =
    (Done (match fst answer with Returned _ => true | Raised => false end),
     {| env := snd answer; trace := trace st ++ [ModifyMessage msg request] |}) /\
  addLabelIds request = [target_label_id] /\
  (Dict.get all_labels_map source_label_name = None -> removeLabelIds request = None) /\
  (forall source_id,
     Dict.get all_labels_map source_label_name = Some source_id -> source_id <> [] ->
     removeLabelIds request = Some [source_id]) /\
  (forall (mb : Mailbox.mailbox) (tr : list event) moved st',
     move_email Mailbox.service msg target_label_id all_labels_map source_label_name
       {| env := mb; trace := tr |} = (Done moved, st') ->
     (forall other, other <> msg -> env st' !! other = mb !! other) /\
     (Dict.get all_labels_map source_label_name = None ->
      forall labels, mb !! msg = Some labels ->
        moved = true /\ env st' !! msg = Some (labels ∪ {[target_label_id]}))).
Proof.
  intros request answer. split; [apply move_email_eq|].
  split; [reflexivity|]. split; [|split].
  - intros Hnone. subst request. unfold move_request. now rewrite Hnone.
  - intros source_id Hsome Hne. subst request. unfold move_request. rewrite Hsome.
    destruct source_id; [contradiction|reflexivity].
  - intros mb tr moved st' Hmove. rewrite move_email_eq in Hmove.
    cbn [env trace messages_modify Mailbox.service] in Hmove.
    injection Hmove as Hmoved Hst'. subst st'. cbn [env]. split.
    + intros other Hne. now apply mailbox_modify_other.
    + intros Hnone labels Hlabels. fold request in Hmoved |- *.
      assert (Hrequest : request = {| addLabelIds := [target_label_id];
                                      removeLabelIds := None |}).
      { subst request. unfold move_request. now rewrite Hnone. }
      rewrite Hrequest in *. unfold Mailbox.modify in *. rewrite Hlabels in *.
      cbn [fst snd] in *. split; [congruence|].
      rewrite lookup_insert_eq. now rewrite relabel_add_only.
Qed.

(* ================================================================== *)
(** * The HTML substitutions *)
(* ================================================================== *)



(** A character at which nothing matches is copied. *)
Lemma sub_copy (m : pystr -> option pystr) (repl : pystr) (c : char) (s : pystr) :
  m (c :: s) = None -> Html.sub m repl (c :: s) = c :: Html.sub m repl s.
Proof. intros Hm. unfold Html.sub. cbn [Html.sub_from]. now rewrite Hm. Qed.

(** So is a run of characters at none of which anything matches. *)
Lemma sub_copy_run (m : pystr -> option pystr) (repl w s : pystr) :
  (forall c t, c <> Html.LT -> m (c :: t) = None) ->
  ~ In Html.LT w ->
  Html.sub m repl (w ++ s) = w ++ Html.sub m repl s.
Proof.
  intros Hm. induction w as [|c w IH]; intros Hw; [reflexivity|].
  cbn [app]. rewrite sub_copy.
  - rewrite IH; [reflexivity|]. intros Hin. apply Hw. now right.
  - apply Hm. intros ->. apply Hw. now left.
Qed.



Lemma match_tag_not_lt (c : char) (t : pystr) :
  c <> Html.LT -> Html.match_tag (c :: t) = None.
Proof.
  intros Hc. unfold Html.match_tag. destruct t as [|d t]; [reflexivity|].
  destruct (N.eqb_spec c Html.LT) as [->|_]; [contradiction|reflexivity].
Qed.


Section Blocks.
Variable U : Unicode.




Lemma caseless_not_letter (p ch : char) :
  is_letter p = false -> Html.caseless_char U p ch = N.eqb p ch.
Proof.
  intros Hp. unfold Html.caseless_char.
  change (ascii_isupper p || ascii_islower p) with (is_letter p). now rewrite Hp.
Qed.





Lemma match_block_not_lt (name : pystr) (c : char) (t : pystr) :
  c <> Html.LT -> Html.match_block U name (c :: t) = None.
Proof.
  intros Hc. unfold Html.match_block. cbn [Html.caseless_prefix].
  rewrite caseless_not_letter by reflexivity.
  destruct (N.eqb_spec Html.LT c) as [<-|_]; [contradiction|reflexivity].
Qed.




End Blocks.

(* ================================================================== *)
(** * The collection of the parts *)
(* ================================================================== *)

Lemma choose_app {A B} (f : A -> option B) (l1 l2 : list A) :
  choose f (l1 ++ l2) = choose f l1 ++ choose f l2.
Proof.
  induction l1 as [|x l1 IH]; [reflexivity|].
  simpl. destruct (f x); simpl; now rewrite IH.
Qed.

Section Collection.
Variable U : Unicode.

(** One part adds its candidate to the list of its kind. *)
Lemma append_text_spec (acc : list pystr * list pystr) (p : part) :
  append_text acc (extract_text_from_part U p) =
  (fst acc ++ choose plain_candidate [p], snd acc ++ choose (html_candidate U) [p]).
Proof.
  destruct acc as [plain_parts html_parts], p as [mime body sub_parts].
  unfold extract_text_from_part, plain_candidate, html_candidate.
  cbn [part_body part_mimeType choose fst snd].
  destruct body as [[| |decoded]|]; try (now rewrite !app_nil_r).
  destruct (PyStr.eqb mime (str "text/plain")) eqn:Eplain.
  - apply eqb_eq in Eplain. subst mime.
    change (PyStr.eqb (str "text/plain") (str "text/html")) with false.
    destruct decoded; cbn [append_text]; now rewrite ?app_nil_r.
  - destruct (PyStr.eqb mime (str "text/html")).
    + destruct decoded; (destruct (Html.strip_html U _); cbn [append_text];
        now rewrite ?app_nil_r).
    + destruct decoded; cbn [append_text]; now rewrite ?app_nil_r.
Qed.

Lemma fold_append_text (sub_parts : list part) (acc : list pystr * list pystr) :
  fold_left (fun a sub_part_item => append_text a (extract_text_from_part U sub_part_item))
    sub_parts acc =
  (fst acc ++ choose plain_candidate sub_parts,
   snd acc ++ choose (html_candidate U) sub_parts).
Proof.
  revert acc. induction sub_parts as [|p sub_parts IH]; intros acc.
  - destruct acc. simpl. now rewrite !app_nil_r.
  - cbn [fold_left]. rewrite IH, append_text_spec. cbn [fst snd].
    change (p :: sub_parts) with ([p] ++ sub_parts).
    now rewrite !choose_app, !app_assoc.
Qed.

Lemma collect_part_item_spec (acc : list pystr * list pystr) (part_item : part) :
  collect_part_item U acc part_item =
  (fst acc ++ choose plain_candidate
                (part_item :: get_default (part_parts part_item) []),
   snd acc ++ choose (html_candidate U)
                (part_item :: get_default (part_parts part_item) [])).
Proof.
  unfold collect_part_item.
  change (part_item :: get_default (part_parts part_item) [])
    with ([part_item] ++ get_default (part_parts part_item) []).
  rewrite !choose_app, !app_assoc.
  destruct (part_parts part_item) as [sub_parts|]; cbn [get_default].
  - rewrite fold_append_text, append_text_spec. reflexivity.
  - rewrite append_text_spec. cbn [choose]. now rewrite !app_nil_r.
Qed.

Lemma fold_collect_part_item (parts : list part) (acc : list pystr * list pystr) :
  fold_left (collect_part_item U) parts acc =
  (fst acc ++ choose plain_candidate
                (flat_map (fun p => p :: get_default (part_parts p) []) parts),
   snd acc ++ choose (html_candidate U)
                (flat_map (fun p => p :: get_default (part_parts p) []) parts)).
Proof.
  revert acc. induction parts as [|p parts IH]; intros acc.
  - destruct acc. simpl. now rewrite !app_nil_r.
  - cbn [fold_left flat_map]. rewrite IH, collect_part_item_spec. cbn [fst snd].
    now rewrite !choose_app, !app_assoc.
Qed.

(** The two lists of the collection are the plain and the HTML
    candidates of the parts it looks at, in its order. *)
Lemma collect_parts_spec (payload : part) :
  collect_parts U payload =
  (choose plain_candidate (visited_parts payload),
   choose (html_candidate U) (visited_parts payload)).
Proof.
  unfold collect_parts, visited_parts.
  destruct (part_parts payload) as [parts|].
  - now rewrite fold_collect_part_item.
  - destruct (part_body payload); [|reflexivity].
    now rewrite append_text_spec.
Qed.

(** ** Characters of the body *)








End Collection.


Lemma In_choose {A B} (f : A -> option B) (l : list A) (y : B) :
  In y (choose f l) -> exists x, In x l /\ f x = Some y.
Proof.
  induction l as [|x l IH]; [intros []|].
  simpl. destruct (f x) as [y'|] eqn:E.
  - intros [<-|Hin]; [exists x; split; [now left|assumption]|].
    destruct (IH Hin) as (x0 & Hx0 & Hf). exists x0. split; [now right|assumption].
  - intros Hin. destruct (IH Hin) as (x0 & Hx0 & Hf).
    exists x0. split; [now right|assumption].
Qed.





(** Plain text is taken as it is: what looks like a tag in it stays. *)
Lemma plain_text_is_not_stripped (U : Unicode)
    (parsedate_to_datetime : pystr -> option Date.datetime) :
  body (get_email_content U parsedate_to_datetime Sample.config
          {| msg_id := str "p1"; msg_snippet := [];
             msg_headers := [];
             msg_payload :=
               Part (str "multipart/alternative") None
                 (Some [ Part (str "text/plain")
                           (Some (Data (str "Use <b>bold</b> here"))) None;
                         Part (str "text/html")
                           (Some (Data (str "<p>Use bold here</p>"))) None ]) |})
  = str "Use <b>bold</b> here".
Proof. vm_compute. reflexivity. Qed.

(** ** The substitutions as passes *)




Section Passes.
Variable U : Unicode.



End Passes.




(** A style block (whatever the case of its name, with attributes), a
    script block and tags, each replaced by a space; the spaces are
    collapsed afterwards. *)
Example styled_body :
  Html.strip_html Sample.ascii_only
    (str "<STYLE type='text/css'>p{color:red}</style><script>alert(1)</Script><p>Hi</p>")
  = str "   Hi " /\
  body (get_email_content Sample.ascii_only Sample.parse_invoice_date Sample.config
          HtmlSample.styled) = str "Hi".
Proof. split; vm_compute; reflexivity. Qed.

(** A ['<'] that starts no match of the tag pattern stays. *)
Example unmatched_bracket_stays (U : Unicode) :
  Html.strip_html U (str "<>x") = str "<>x" /\
  markup_check InText (str "<>x") = false.
Proof. split; reflexivity. Qed.



(* ================================================================== *)
(** * The properties at work on the sample data *)
(* ================================================================== *)

Example truncation_at_five :
  body (get_email_content Sample.ascii_only Sample.parse_invoice_date
          (Sample.with_body_limit 5) Sample.invoice) = str "Pleas...".
Proof. vm_compute. reflexivity. Qed.

Example collapse_example :
  collapse Sample.ascii_only (str "  Dear   customer,  please pay. ")
  = str "Dear customer, please pay.".
Proof. vm_compute. reflexivity. Qed.

Lemma C6_body_collapsed_truncated_witness :
  body (get_email_content Sample.ascii_only Sample.parse_invoice_date
          (Sample.with_body_limit 5) Sample.invoice)
  = firstn 5 (collapse Sample.ascii_only
                (collected_text Sample.ascii_only (msg_payload Sample.invoice)))
    ++ str "...".
Proof.
  pose proof (C6_body_collapsed_truncated Sample.ascii_only Sample.parse_invoice_date
                (Sample.with_body_limit 5) Sample.invoice) as H.
  cbv zeta in H.
  destruct H as (_ & _ & _ & Hgt); [vm_compute; discriminate|].
  destruct Hgt as [Hb _]; [vm_compute; reflexivity|]. exact Hb.
Defined.

Lemma C3_contentless_dropped_witness :
  Forall contentful
    (match fetch_inbox_emails Sample.ascii_only Sample.parse_invoice_date Sample.config
             (Fixture.service true) Fixture.all_labels_map [str "L1"; str "L3"]
             (Fixture.start []) with
     | (Done candidates, _) => candidates
     | _ => []
     end).
Proof.
  apply (proj2 (proj2 (C3_contentless_dropped Sample.ascii_only Sample.parse_invoice_date
                         Sample.config (Fixture.service true)))
           Fixture.all_labels_map [str "L1"; str "L3"] (Fixture.start []) _
           (snd (fetch_inbox_emails Sample.ascii_only Sample.parse_invoice_date
                   Sample.config (Fixture.service true) Fixture.all_labels_map
                   [str "L1"; str "L3"] (Fixture.start [])))).
  vm_compute. reflexivity.
Defined.

(** The store of the scripted mailbox: the category whose only message
    is contentless is gone. *)
Example store_of_fixture :
  match fetch_example_emails Sample.ascii_only Sample.parse_invoice_date Sample.config
          (Fixture.service true)
          (get_ai_auto_folders Sample.config Fixture.all_labels_map) (Fixture.start []) with
  | (Done final, _) => List.map fst final = [str "Receipts"; str "Travel"]
  | _ => False
  end.
Proof. vm_compute. reflexivity. Qed.

(** A run over the two categories: the first answers NO, the second
    YES; a third category after them is never asked. *)
Lemma C2_first_match_wins_witness :
  exists moved st3,
    classify_email Sample.ascii_only Sample.config (Fixture.service true)
      Fixture.all_labels_map
      (Fixture.categories ++
       [(str "Other", {| folder_id := str "L9"; folder_name := str "AI_AUTO_Other";
                         examples := Fixture.example (str "i2") |})])
      Fixture.trip
      (Fixture.start [Returned (Some (str "NO")); Returned (Some (str "yes"))])
    = (Done (Some (str "Travel", moved)), st3) /\
    chat_calls (trace st3) <= 2.
Proof.
  pose (st := Fixture.start [Returned (Some (str "NO")); Returned (Some (str "yes"))]).
  pose (receipts := {| folder_id := str "L1"; folder_name := str "AI_AUTO_Receipts";
                       examples := Fixture.example (str "m1") |}).
  pose (travel := {| folder_id := str "L3"; folder_name := str "AI_AUTO_Travel";
                     examples := Fixture.example (str "t1") |}).
  pose (st1 := snd (ollama_check_similarity Sample.ascii_only Sample.config
                      (Fixture.service true) (str "Receipts") (examples receipts)
                      Fixture.trip st)).
  pose (st2 := snd (ollama_check_similarity Sample.ascii_only Sample.config
                      (Fixture.service true) (str "Travel") (examples travel)
                      Fixture.trip st1)).
  destruct (proj1 (C2_first_match_wins Sample.ascii_only Sample.config
                     (Fixture.service true) Fixture.all_labels_map Fixture.trip)
              [(str "Receipts", receipts)] (str "Travel") travel
              [(str "Other", {| folder_id := str "L9"; folder_name := str "AI_AUTO_Other";
                                examples := Fixture.example (str "i2") |})]
              st st1 st2)
    as (moved & st3 & _ & Hclassify & _ & Hcalls).
  - apply (rejected_cons _ _ _ _ _ receipts [] st st1 st1).
    + vm_compute. reflexivity.
    + constructor.
  - vm_compute. reflexivity.
  - exists moved, st3. split; [exact Hclassify|]. exact Hcalls.
Defined.

(** The chat request raises for the first category: no match there, and
    the second category is asked. *)
Example chat_failure_goes_on :
  classify_email Sample.ascii_only Sample.config (Fixture.service true)
    Fixture.all_labels_map Fixture.categories Fixture.trip
    (Fixture.start [Raised; Returned (Some (str "YES"))])
  = (Done (Some (str "Travel", true)),
     snd (classify_email Sample.ascii_only Sample.config (Fixture.service true)
            Fixture.all_labels_map Fixture.categories Fixture.trip
            (Fixture.start [Raised; Returned (Some (str "YES"))]))).
Proof. vm_compute. reflexivity. Qed.

Lemma C5_model_failure_is_no_match_witness :
  ollama_check_similarity Sample.ascii_only Sample.config (Fixture.service false)
    (str "Receipts") (Fixture.example (str "m1")) Fixture.trip (Fixture.start [])
  = (Done false,
     {| env := []; trace := [NewClient (str "http://localhost:11434")] |}).
Proof.
  apply (C5_model_failure_is_no_match Sample.ascii_only Sample.config
           (Fixture.service false) (str "Receipts")
           {| folder_id := str "L1"; folder_name := str "AI_AUTO_Receipts";
              examples := Fixture.example (str "m1") |}
           Fixture.trip (Fixture.start [])
           {| env := []; trace := [NewClient (str "http://localhost:11434")] |}).
  apply (client_fails Sample.ascii_only Sample.config (Fixture.service false) (str "Receipts")
           (Fixture.example (str "m1")) Fixture.trip (Fixture.start [])
           (str "http://localhost:11434") []); reflexivity.
Defined.

Lemma C8_template_errors_witness :
  ollama_check_similarity Sample.ascii_only Fixture.config_unknown_field
    (Fixture.service true) (str "Receipts") (Fixture.example (str "m1")) Fixture.trip
    (Fixture.start [Returned (Some (str "YES"))])
  = (Uncaught,
     {| env := [Returned (Some (str "YES"))];
        trace := [NewClient (str "http://localhost:11434")] |}).
Proof.
  pose proof (C8_template_errors Sample.ascii_only Fixture.config_unknown_field
                (Fixture.service true) (str "Receipts")
                {| folder_id := str "L1"; folder_name := str "AI_AUTO_Receipts";
                   examples := Fixture.example (str "m1") |}
                Fixture.trip (Fixture.start [Returned (Some (str "YES"))])
                (str "http://localhost:11434") tt [Returned (Some (str "YES"))]
                eq_refl eq_refl) as H.
  cbv zeta in H. destruct H as (_ & _ & Hunknown).
  destruct (Hunknown (str "Category {category_name}") [str "Email: {email_text}"]
              eq_refl)
    as [Hcheck _].
  { right. eexists. split; reflexivity. }
  exact Hcheck.
Defined.

(** Templates that [str.format] refuses, whatever the interpreter: a
    single closing brace, a field that is not closed, a conversion that is
    cut short, a positional field, a field that starts on one line and
    names nothing known.  The check raises before anything is sent to the
    model. *)
Example malformed_templates_raise (U : Unicode) :
  Forall (fun prompt_template_lines =>
            ollama_check_similarity U (config_with_template prompt_template_lines)
              (Fixture.service true) (str "Receipts") (Fixture.example (str "m1"))
              Fixture.trip (Fixture.start [Returned (Some (str "YES"))])
            = (Uncaught,
               {| env := [Returned (Some (str "YES"))];
                  trace := [NewClient (str "http://localhost:11434")] |}))
    [ [str "Is this {category_name}? }"];
      [str "Is this {category_name"];
      [str "{category_name!}"];
      [str "{}"];
      [str "{category_name[}"];
      [str "Is this {category_"; str "name}?"] ].
Proof. repeat (constructor; [vm_compute; reflexivity|]). constructor. Qed.

(** Doubled braces are braces of the text. *)
Example doubled_braces_are_text (U : Unicode) :
  format U (str "{{{category_name}}} }}{{")
    (prompt_kwargs Sample.config (str "Receipts") [] Fixture.trip)
  = Some (str "{Receipts} }{").
Proof. vm_compute. reflexivity. Qed.

(** A field with a format specification is parsed, and rendered as the
    interpreter decides. *)
Example format_specification_is_a_field :
  Template.parse (str "{max_body_length_for_llm:s} {new_email_body[0]}")
  = Some [ Lit []; Fancy (str "max_body_length_for_llm") (str "max_body_length_for_llm:s");
           Lit (str " "); Fancy (str "new_email_body") (str "new_email_body[0]");
           Lit [] ].
Proof. reflexivity. Qed.

Lemma C10_move_email_frame_witness :
  env (snd (move_email Mailbox.service (str "i1") (str "L1")
              [(str "AI_AUTO_Receipts", str "L1")] (str "INBOX")
              {| env := Mailbox.two_messages; trace := [] |})) !! str "i2"
  = Mailbox.two_messages !! str "i2" /\
  env (snd (move_email Mailbox.service (str "i1") (str "L1")
              [(str "AI_AUTO_Receipts", str "L1")] (str "INBOX")
              {| env := Mailbox.two_messages; trace := [] |})) !! str "i1"
  = Some ({[str "INBOX"]} ∪ {[str "L1"]}).
Proof.
  pose proof (C10_move_email_frame Mailbox.service (str "i1") (str "L1")
                [(str "AI_AUTO_Receipts", str "L1")] (str "INBOX")
                {| env := Mailbox.two_messages; trace := [] |}) as H.
  cbv zeta in H. destruct H as (Hmove & _ & _ & _ & Hframe).
  destruct (Hframe Mailbox.two_messages [] _ _ Hmove) as [Hother Hkept].
  rewrite Hmove. cbn [snd]. split.
  - apply Hother. intros Heq. vm_compute in Heq. discriminate.
  - apply (Hkept eq_refl {[str "INBOX"]}). reflexivity.
Defined.

(** The answers the specification lists as ambiguous, and two that are
    not. *)
Example ambiguous_answers (U : Unicode) :
  interpret_answer U (str "YES and NO both apply") = false /\
  interpret_answer U [] = false /\
  interpret_answer U (str "Maybe") = false /\
  interpret_answer U (str "yesterday") = false /\
  interpret_answer U (str "Yes, it matches.") = true /\
  interpret_answer U (str "no") = false.
Proof. repeat split; vm_compute; reflexivity. Qed.

(** Without [ollama_host] in the configuration the check sends nothing
    and does not return: [CONFIG["ollama_host"]] raises [KeyError] inside
    the [try], and the handler's log line reads the key again, outside any
    [try]. *)
Lemma missing_host_raises (U : Unicode) (CONFIG : Config) {Env : Type}
    (service : Service Env) (category_name : pystr)
    (example_emails_list : list email_content) (new_email_content : email_content)
    (st : state Env) :
  ollama_host CONFIG = None ->
  ollama_check_similarity U CONFIG service category_name example_emails_list
    new_email_content st = (Uncaught, st).
Proof. intros Hhost. unfold ollama_check_similarity. now rewrite Hhost. Qed.

Lemma missing_host_raises_witness :
  ollama_check_similarity Sample.ascii_only
    {| ai_folder_prefix := str "AI_AUTO_"; inbox_label_name := None;
       max_emails_to_scan_inbox := 10; max_examples_per_folder := None;
       max_body_length_for_llm := None; ollama_host := None; ollama_model := None;
       similarity_prompt_v3 := similarity_prompt_v3 Sample.config |}
    (Fixture.service true) (str "Receipts") (Fixture.example (str "m1")) Fixture.trip
    (Fixture.start [])
  = (Uncaught, Fixture.start []).
Proof. apply missing_host_raises. reflexivity. Defined.

Lemma truncate_negative_limit_witness :
  truncate Sample.ascii_only (Sample.with_body_limit (-4))
    (collapse Sample.ascii_only (str "Please  pay."))
  = str "Please ...".
Proof.
  rewrite (truncate_negative_limit Sample.ascii_only (Sample.with_body_limit (-4)) (-4)
             (str "Please  pay.") eq_refl); [reflexivity|].
  vm_compute. reflexivity.
Defined.

(* ================================================================== *)
(** * The label map and the categories *)
(* ================================================================== *)

Lemma dict_get_set_eq {V} (d : Dict.dict V) (k : pystr) (v : V) :
  Dict.get (Dict.set d k v) k = Some v.
Proof.
  induction d as [|[k' v'] d IH]; simpl.
  - now rewrite eqb_refl.
  - destruct (PyStr.eqb k' k) eqn:E; simpl; rewrite E; [reflexivity|exact IH].
Qed.

Lemma dict_get_set_ne {V} (d : Dict.dict V) (k k0 : pystr) (v : V) :
  k <> k0 -> Dict.get (Dict.set d k v) k0 = Dict.get d k0.
Proof.
  intros Hne. induction d as [|[k' v'] d IH]; simpl.
  - apply eqb_neq in Hne. now rewrite Hne.
  - destruct (PyStr.eqb k' k) eqn:E; simpl.
    + apply eqb_eq in E. subst k'. apply eqb_neq in Hne. now rewrite Hne.
    + destruct (PyStr.eqb k' k0); [reflexivity|exact IH].
Qed.

Lemma dict_set_fresh {V} (d : Dict.dict V) (k : pystr) (v : V) :
  ~ In k (List.map fst d) -> Dict.set d k v = d ++ [(k, v)].
Proof.
  induction d as [|[k' v'] d IH]; intros Hk; simpl; [reflexivity|].
  destruct (PyStr.eqb k' k) eqn:E.
  - apply eqb_eq in E. subst. exfalso. apply Hk. now left.
  - rewrite IH; [reflexivity|]. intros Hin. apply Hk. now right.
Qed.

Lemma dict_set_keys {V} (d : Dict.dict V) (k : pystr) (v : V) :
  List.map fst (Dict.set d k v) =
  if existsb (PyStr.eqb k) (List.map fst d) then List.map fst d
  else List.map fst d ++ [k].
Proof.
  induction d as [|[k' v'] d IH]; simpl; [reflexivity|].
  rewrite (eqb_sym k k'). destruct (PyStr.eqb k' k); simpl; [reflexivity|].
  rewrite IH. now destruct (existsb _ _).
Qed.

Lemma existsb_eqb_In (k : pystr) (l : list pystr) :
  existsb (PyStr.eqb k) l = true <-> In k l.
Proof.
  rewrite existsb_exists. split.
  - intros (x & Hx & Heq). apply eqb_eq in Heq. now subst.
  - intros Hin. exists k. split; [assumption|apply eqb_refl].
Qed.

Lemma dict_set_NoDup {V} (d : Dict.dict V) (k : pystr) (v : V) :
  List.NoDup (List.map fst d) -> List.NoDup (List.map fst (Dict.set d k v)).
Proof.
  intros Hd. rewrite dict_set_keys.
  destruct (existsb (PyStr.eqb k) (List.map fst d)) eqn:E; [assumption|].
  assert (Hk : ~ In k (List.map fst d)).
  { intros Hin. apply existsb_eqb_In in Hin. congruence. }
  apply List.NoDup_rev in Hd. rewrite <- (rev_involutive (_ ++ [k])).
  apply List.NoDup_rev. rewrite rev_app_distr. simpl.
  constructor; [|assumption]. now rewrite <- in_rev.
Qed.

Lemma of_items_snoc {V} (items : list (pystr * V)) (kv : pystr * V) :
  Dict.of_items (items ++ [kv]) = Dict.set (Dict.of_items items) (fst kv) (snd kv).
Proof. unfold Dict.of_items. now rewrite fold_left_app. Qed.

(** A dictionary built from pairs has each key once, and gives for a key
    the value of the last pair that has it. *)
Lemma of_items_spec {V} (items : list (pystr * V)) :
  List.NoDup (List.map fst (Dict.of_items items)) /\
  forall k, Dict.get (Dict.of_items items) k = last_with_key k items.
Proof.
  induction items as [|kv items [IHnd IHget]] using rev_ind.
  - split; [constructor|reflexivity].
  - rewrite of_items_snoc. split; [now apply dict_set_NoDup|].
    intros k. unfold last_with_key. rewrite List.filter_app. cbn [List.filter].
    destruct (PyStr.eqb (fst kv) k) eqn:E.
    + apply eqb_eq in E. subst k. rewrite dict_get_set_eq.
      now rewrite last_snoc.
    + rewrite app_nil_r. rewrite dict_get_set_ne; [apply IHget|].
      now apply eqb_neq.
Qed.

(** [get_labels]: one request; when it raises the run ends by [exit(1)];
    otherwise the map has each label name once and gives for a name the id
    of the last label listed with it. *)
Theorem get_labels_spec {Env : Type} (service : Service Env) (st : state Env) :
  let answer := labels_list service (env st) in
  let st1 := {| env := snd answer; trace := trace st ++ [ListLabels] |} in
  match fst answer with
  | Raised => get_labels service st = (Exit 1, st1)
  | Returned labels =>
      exists all_labels_map,
        get_labels service st = (Done all_labels_map, st1) /\
        List.NoDup (List.map fst all_labels_map) /\
        forall name, Dict.get all_labels_map name = last_with_key name labels
  end.
Proof.
  intros answer st1. unfold get_labels, bind. rewrite request_eq.
  fold answer. fold st1. destruct (fst answer) as [labels|]; [|reflexivity].
  exists (Dict.of_items labels). split; [reflexivity|apply of_items_spec].
Qed.

Lemma strip_prefix_inj (p a b c : pystr) :
  strip_prefix p a = Some c -> strip_prefix p b = Some c -> a = b.
Proof. intros Ha Hb. apply strip_prefix_Some in Ha, Hb. congruence. Qed.

Lemma category_entry_key (CONFIG : Config) (label : pystr * pystr)
    (entry : pystr * folder) :
  category_entry CONFIG label = Some entry ->
  fst label = ai_folder_prefix CONFIG ++ fst entry.
Proof.
  unfold category_entry. destruct (strip_prefix _ _) as [c|] eqn:E; [|discriminate].
  intros [= <-]. now apply strip_prefix_Some.
Qed.

Lemma choose_keys_In (CONFIG : Config) (labels : list (pystr * pystr)) (c : pystr) :
  In c (List.map fst (choose (category_entry CONFIG) labels)) ->
  In (ai_folder_prefix CONFIG ++ c) (List.map fst labels).
Proof.
  rewrite !in_map_iff. intros (entry & <- & Hin).
  apply In_choose in Hin as (label & Hlabel & Hentry).
  exists label. split; [|assumption].
  now apply category_entry_key.
Qed.

Lemma get_ai_auto_folders_fold (CONFIG : Config) (labels : list (pystr * pystr))
    (acc : Dict.dict folder) :
  List.NoDup (List.map fst labels) ->
  (forall c, In c (List.map fst acc) ->
             ~ In (ai_folder_prefix CONFIG ++ c) (List.map fst labels)) ->
  fold_left
    (fun ai_folders '(name, label_id) =>
       match strip_prefix (ai_folder_prefix CONFIG) name with
       | Some category_name =>
           Dict.set ai_folders category_name
             {| folder_id := label_id; folder_name := name; examples := [] |}
       | None => ai_folders
       end) labels acc
  = acc ++ choose (category_entry CONFIG) labels.
Proof.
  revert acc. induction labels as [|[name label_id] labels IH]; intros acc Hnd Hacc.
  - simpl. now rewrite app_nil_r.
  - cbn [fold_left choose]. unfold category_entry at 1. cbn [fst snd].
    inversion Hnd as [|? ? Hname Hnd']; subst.
    destruct (strip_prefix (ai_folder_prefix CONFIG) name) as [c|] eqn:E.
    + apply strip_prefix_Some in E.
      rewrite dict_set_fresh.
      * rewrite IH; [now rewrite <- app_assoc|assumption|].
        intros c' Hc'. rewrite List.map_app, in_app_iff in Hc'.
        destruct Hc' as [Hc'|[<-|[]]].
        -- intros Hin. apply (Hacc c' Hc'). now right.
        -- intros Hin. apply Hname. rewrite E. exact Hin.
      * intros Hin. apply (Hacc c Hin). left. cbn [fst]. exact E.
    + apply IH; [assumption|].
      intros c' Hc' Hin. apply (Hacc c' Hc'). now right.
Qed.

(** [get_ai_auto_folders]: over a label map (each name once) the
    categories are the labels whose name starts with the prefix, in the
    order of the map, each under its name without the prefix, with the
    label's id and name and no examples. *)
Theorem get_ai_auto_folders_spec (CONFIG : Config) (all_labels_map : Dict.dict pystr) :
  List.NoDup (List.map fst all_labels_map) ->
  get_ai_auto_folders CONFIG all_labels_map
  = choose (category_entry CONFIG) all_labels_map /\
  List.NoDup (List.map fst (get_ai_auto_folders CONFIG all_labels_map)).
Proof.
  intros Hnd.
  assert (Heq : get_ai_auto_folders CONFIG all_labels_map
                = choose (category_entry CONFIG) all_labels_map).
  { unfold get_ai_auto_folders.
    now rewrite get_ai_auto_folders_fold by (assumption || intros c []). }
  split; [exact Heq|]. rewrite Heq. clear Heq.
  induction all_labels_map as [|[name label_id] labels IH]; [constructor|].
  inversion Hnd as [|? ? Hname Hnd']; subst.
  cbn [choose]. destruct (category_entry CONFIG (name, label_id)) as [entry|] eqn:E;
    [|now apply IH].
  cbn [List.map]. constructor; [|now apply IH].
  intros Hin. apply choose_keys_In in Hin.
  apply category_entry_key in E. cbn [fst] in E. apply Hname. rewrite E. exact Hin.
Qed.

Lemma get_ai_auto_folders_spec_witness :
  List.map fst (get_ai_auto_folders Sample.config Fixture.all_labels_map)
  = [str "Receipts"; str "Newsletters"; str "Travel"].
Proof.
  rewrite (proj1 (get_ai_auto_folders_spec Sample.config Fixture.all_labels_map
                    (proj1 (of_items_spec Fixture.labels)))).
  reflexivity.
Defined.

(* ================================================================== *)
(** * The headers *)
(* ================================================================== *)

Section Headers.
Variable U : Unicode.
Variable parsedate_to_datetime : pystr -> option Date.datetime.

Lemma scan_headers_snoc (headers : list header) (h : header) :
  scan_headers U parsedate_to_datetime (headers ++ [h]) =
  header_step U parsedate_to_datetime (scan_headers U parsedate_to_datetime headers) h.
Proof. unfold scan_headers. now rewrite fold_left_app. Qed.

Lemma last_header_snoc (n : pystr) (headers : list header) (h : header) :
  last_header U n (headers ++ [h]) =
  if named U n h then h_value h else last_header U n headers.
Proof.
  unfold last_header. rewrite List.filter_app. cbn [List.filter].
  destruct (named U n h).
  - now rewrite last_snoc.
  - now rewrite app_nil_r.
Qed.

Lemma last_date_snoc (headers : list header) (h : header) :
  last_date U parsedate_to_datetime (headers ++ [h]) =
  match (if named U (str "date") h then parsedate_to_datetime (h_value h) else None) with
  | Some d => Some d
  | None => last_date U parsedate_to_datetime headers
  end.
Proof.
  unfold last_date. rewrite choose_app. cbn [choose].
  destruct (if named U (str "date") h then _ else _) as [d|].
  - now rewrite last_snoc.
  - now rewrite app_nil_r.
Qed.

(** What the header loop keeps. *)
Lemma scan_headers_spec (headers : list header) :
  scan_headers U parsedate_to_datetime headers =
  (last_header U (str "subject") headers, last_header U (str "from") headers,
   last_date U parsedate_to_datetime headers).
Proof.
  induction headers as [|h headers IH] using rev_ind; [reflexivity|].
  rewrite scan_headers_snoc, IH, !last_header_snoc, last_date_snoc.
  unfold header_step, named.
  destruct (PyStr.eqb (lower U (h_name h)) (str "subject")) eqn:Es.
  - apply eqb_eq in Es. rewrite Es. reflexivity.
  - destruct (PyStr.eqb (lower U (h_name h)) (str "from")) eqn:Ef.
    + apply eqb_eq in Ef. rewrite Ef. reflexivity.
    + destruct (PyStr.eqb (lower U (h_name h)) (str "date")); [|reflexivity].
      now destruct (parsedate_to_datetime (h_value h)).
Qed.

End Headers.

(** The header fields of the extracted content: subject and sender are
    the trimmed values of the last [Subject] and [From] headers (names
    compared without regard to case), empty when there is none; the date
    is that of the last [Date] header the parser accepts, an earlier one
    staying when a later one does not parse; its text is ["Unknown Date"]
    exactly when there is no such date. *)
Theorem get_email_content_headers (U : Unicode)
    (parsedate_to_datetime : pystr -> option Date.datetime)
    (CONFIG : Config) (raw : message) :
  let content := get_email_content U parsedate_to_datetime CONFIG raw in
  subject content = strip U (last_header U (str "subject") (msg_headers raw)) /\
  sender content = strip U (last_header U (str "from") (msg_headers raw)) /\
  received_datetime content = last_date U parsedate_to_datetime (msg_headers raw) /\
  received_date_str content =
    match last_date U parsedate_to_datetime (msg_headers raw) with
    | Some d => Date.strftime d
    | None => str "Unknown Date"
    end /\
  id content = msg_id raw /\ snippet content = msg_snippet raw.
Proof.
  intros content. subst content. unfold get_email_content.
  rewrite scan_headers_spec. repeat split.
Qed.

Example headers_last_wins :
  let raw :=
    {| msg_id := str "d1"; msg_snippet := [];
       msg_headers :=
         [ {| h_name := str "SUBJECT"; h_value := str " first " |};
           {| h_name := str "Date"; h_value := Sample.invoice_date |};
           {| h_name := str "subject"; h_value := str " second " |};
           {| h_name := str "DATE"; h_value := str "not a date" |} ];
       msg_payload := Part (str "text/plain") None None |} in
  let content :=
    get_email_content Sample.ascii_only Sample.parse_invoice_date Sample.config raw in
  subject content = str "second" /\
  sender content = [] /\
  received_date_str content = str "2024-01-01 10:00:00 UTC".
Proof. repeat split. Qed.

(* ================================================================== *)
(** * How deep the collection looks *)
(* ================================================================== *)

Lemma choose_map {A B C} (f : B -> option C) (g : A -> B) (l : list A) :
  choose f (List.map g l) = choose (fun x => f (g x)) l.
Proof.
  induction l as [|x l IH]; [reflexivity|].
  simpl. destruct (f (g x)); now rewrite IH.
Qed.

Lemma choose_ext {A B} (f g : A -> option B) (l : list A) :
  (forall x, f x = g x) -> choose f l = choose g l.
Proof.
  intros H. induction l as [|x l IH]; [reflexivity|].
  simpl. rewrite H. destruct (g x); now rewrite IH.
Qed.

Lemma choose_flat_map {A B C} (f : B -> option C) (g : A -> list B) (l : list A) :
  choose f (flat_map g l) = flat_map (fun x => choose f (g x)) l.
Proof.
  induction l as [|x l IH]; [reflexivity|].
  cbn [flat_map]. now rewrite choose_app, IH.
Qed.

(** What is taken from a part does not depend on what is below it. *)
Lemma visited_two_levels {B} (f : part -> option B) (mimeType : pystr)
    (body0 : option body_data) (parts : list part) :
  (forall m b ps ps', f (Part m b ps) = f (Part m b ps')) ->
  choose f (visited_parts (two_levels parts))
  = choose f (visited_parts (Part mimeType body0 (Some parts))).
Proof.
  intros Hf. unfold visited_parts, two_levels. cbn [part_parts].
  rewrite !choose_flat_map.
  induction parts as [|[m b ps] parts IH]; [reflexivity|].
  cbn [List.map flat_map]. rewrite IH. f_equal.
  cbn [part_parts part_mimeType part_body choose].
  rewrite (Hf m b (option_map (List.map without_parts) ps) ps).
  assert (Hsub : choose f (get_default (option_map (List.map without_parts) ps) [])
                 = choose f (get_default ps [])).
  { destruct ps as [sub_parts|]; [|reflexivity]. cbn [option_map get_default].
    rewrite choose_map. apply choose_ext. intros [m' b' ps']. apply Hf. }
  now rewrite Hsub.
Qed.

(** A message whose payload has a [parts] key is read two levels deep:
    the payload's own type and body, and whatever lies below the parts of
    its parts, have no influence on the extracted content. *)
Theorem get_email_content_two_levels (U : Unicode)
    (parsedate_to_datetime : pystr -> option Date.datetime) (CONFIG : Config)
    (msg text : pystr) (headers : list header)
    (mimeType : pystr) (body0 : option body_data) (parts : list part) :
  get_email_content U parsedate_to_datetime CONFIG
    {| msg_id := msg; msg_snippet := text; msg_headers := headers;
       msg_payload := Part mimeType body0 (Some parts) |}
  = get_email_content U parsedate_to_datetime CONFIG
      {| msg_id := msg; msg_snippet := text; msg_headers := headers;
         msg_payload := two_levels parts |}.
Proof.
  unfold get_email_content, collected_text. cbn [msg_payload msg_headers msg_id msg_snippet].
  rewrite !collect_parts_spec.
  rewrite (visited_two_levels plain_candidate mimeType body0 parts) by reflexivity.
  rewrite (visited_two_levels (html_candidate U) mimeType body0 parts) by reflexivity.
  reflexivity.
Qed.

(** A text three levels down is not read, and neither is the body of a
    payload that has parts. *)
Example third_level_is_not_read :
  let deep :=
    Part (str "multipart/mixed") (Some (Data (str "top")))
      (Some [ Part (str "multipart/related") None
                (Some [ Part (str "multipart/alternative") None
                          (Some [ Part (str "text/plain")
                                    (Some (Data (str "Hello"))) None ]) ]) ]) in
  body (get_email_content Sample.ascii_only Sample.parse_invoice_date Sample.config
          {| msg_id := str "d3"; msg_snippet := []; msg_headers := [];
             msg_payload := deep |}) = [].
Proof. reflexivity. Qed.

(* ================================================================== *)
(** * Surrounding whitespace *)
(* ================================================================== *)

Section Trimming.
Variable U : Unicode.

Lemma lstrip_spaces (l s : pystr) :
  Forall (fun c => isspace U c = true) l -> lstrip U (l ++ s) = lstrip U s.
Proof.
  induction 1 as [|c l Hc Hl IH]; [reflexivity|].
  cbn [app lstrip]. now rewrite Hc.
Qed.

Lemma lstrip_nil (s : pystr) :
  lstrip U s = [] -> Forall (fun c => isspace U c = true) s.
Proof.
  induction s as [|c s IH]; [constructor|].
  cbn [lstrip]. destruct (isspace U c) eqn:Ec; [|discriminate].
  intros H. constructor; [exact Ec|now apply IH].
Qed.

Lemma lstrip_app (s r : pystr) :
  lstrip U s <> [] -> lstrip U (s ++ r) = lstrip U s ++ r.
Proof.
  induction s as [|c s IH]; [contradiction|].
  cbn [app lstrip]. destruct (isspace U c); [exact IH|reflexivity].
Qed.

Lemma rstrip_spaces (s r : pystr) :
  Forall (fun c => isspace U c = true) r -> rstrip U (s ++ r) = rstrip U s.
Proof.
  intros Hr. unfold rstrip. rewrite rev_app_distr, lstrip_spaces; [reflexivity|].
  apply Forall_forall. intros c Hc. rewrite Forall_forall in Hr. apply Hr.
  apply list_elem_of_In. apply list_elem_of_In in Hc. now apply in_rev.
Qed.

(** Whitespace around a text does not change what [strip] gives. *)
Lemma strip_surrounded (l s r : pystr) :
  Forall (fun c => isspace U c = true) l ->
  Forall (fun c => isspace U c = true) r ->
  strip U (l ++ s ++ r) = strip U s.
Proof.
  intros Hl Hr. unfold strip. rewrite lstrip_spaces by assumption.
  destruct (lstrip U s) as [|c t] eqn:E.
  - apply lstrip_nil in E.
    rewrite lstrip_spaces by assumption.
    rewrite <- (app_nil_r r), lstrip_spaces by assumption. reflexivity.
  - rewrite lstrip_app by (rewrite E; discriminate).
    rewrite E. now apply rstrip_spaces.
Qed.

End Trimming.

(** The verdict read from the model's message does not depend on the
    whitespace before and after it: the message is stripped first, so an
    answer followed by a line break is still an exact answer. *)
Theorem interpret_answer_surrounding_whitespace (U : Unicode) (before content after : pystr) :
  Forall (fun c => isspace U c = true) before ->
  Forall (fun c => isspace U c = true) after ->
  interpret_answer U (before ++ content ++ after) = interpret_answer U content.
Proof.
  intros Hb Ha. unfold interpret_answer, processed_answer.
  now rewrite strip_surrounded.
Qed.

Lemma interpret_answer_surrounding_whitespace_witness :
  interpret_answer Sample.ascii_only (str "  " ++ str "no, yes" ++ [10%N; 9%N])
  = interpret_answer Sample.ascii_only (str "no, yes").
Proof.
  apply interpret_answer_surrounding_whitespace;
    repeat (constructor; [reflexivity|]); constructor.
Defined.

(* ================================================================== *)
(** * The query of the inbox listing *)
(* ================================================================== *)

Lemma last_app_nonempty {A} (l1 l2 : list A) :
  l2 <> [] -> last (l1 ++ l2) = last l2.
Proof.
  intros H. destruct l2 as [|x l2]; [contradiction|].
  destruct (exists_last (l := x :: l2)) as (l' & y & E); [discriminate|].
  rewrite E, app_assoc, !last_snoc. reflexivity.
Qed.

(** The query sent with the inbox listing: spam and trash are left out,
    and so is every label id passed in, each under its own [-label:]
    term, in the order given.  (Label ids have no whitespace in them.) *)
Theorem full_query_string_shape (U : Unicode) (ai_auto_label_ids_to_exclude : list pystr) :
  Forall (Forall (fun c => isspace U c = false)) ai_auto_label_ids_to_exclude ->
  full_query_string U ai_auto_label_ids_to_exclude =
  match ai_auto_label_ids_to_exclude with
  | [] => str "-in:spam -in:trash"
  | _ :: _ =>
      str "-in:spam -in:trash " ++
      join (str " ")
        (List.map (fun label => str "-label:" ++ label) ai_auto_label_ids_to_exclude)
  end.
Proof.
  intros Hids. unfold full_query_string.
  destruct ai_auto_label_ids_to_exclude as [|id0 ids]; [reflexivity|].
  set (terms := List.map (fun label => str "-label:" ++ label) (id0 :: ids)).
  assert (Hterms : Forall (is_token U) terms).
  { subst terms. apply Forall_forall. intros t Ht.
    apply list_elem_of_In, in_map_iff in Ht as (label & <- & Hin).
    rewrite Forall_forall in Hids. apply list_elem_of_In, Hids in Hin.
    split; [discriminate|].
    apply Forall_app. split; [|exact Hin].
    repeat (constructor; [reflexivity|]). constructor. }
  assert (Hne : join (str " ") terms <> []).
  { subst terms. destruct ids; cbn; discriminate. }
  change (str "-in:spam -in:trash" ++ str " " ++ join (str " ") terms)
    with (str "-in:spam -in:trash " ++ join (str " ") terms).
  apply strip_id.
  - intros c [= <-]. reflexivity.
  - intros c. rewrite last_app_nonempty by exact Hne. now apply last_join_tokens.
Qed.

Lemma full_query_string_shape_witness :
  full_query_string Sample.ascii_only [str "Label_7"; str "Label_9"]
  = str "-in:spam -in:trash -label:Label_7 -label:Label_9".
Proof.
  rewrite full_query_string_shape; [reflexivity|].
  repeat (constructor; [repeat (constructor; [reflexivity|]); constructor|]).
  constructor.
Defined.

(* ================================================================== *)
(** * HTML parts without markup *)
(* ================================================================== *)

(** A [text/html] part whose decoded text has no ['<'] goes through the
    three substitutions unchanged: none of the patterns can match. *)
Theorem strip_html_without_lt (U : Unicode) (decoded_data : pystr) :
  ~ In Html.LT decoded_data -> Html.strip_html U decoded_data = decoded_data.
Proof.
  intros Hlt. unfold Html.strip_html.
  assert (Hsub : forall m, (forall c t, c <> Html.LT -> m (c :: t) = None) ->
                           Html.sub m Html.SPACE decoded_data = decoded_data).
  { intros m Hm. rewrite <- (app_nil_r decoded_data) at 1.
    rewrite sub_copy_run by assumption. cbn. apply app_nil_r. }
  rewrite (Hsub (Html.match_block U (str "style"))) by (intros; now apply match_block_not_lt).
  rewrite (Hsub (Html.match_block U (str "script"))) by (intros; now apply match_block_not_lt).
  apply Hsub. intros. now apply match_tag_not_lt.
Qed.

Lemma strip_html_without_lt_witness :
  Html.strip_html Sample.ascii_only (str "1 > 0 & more") = str "1 > 0 & more".
Proof.
  apply strip_html_without_lt. intros Hin. simpl in Hin.
  repeat (destruct Hin as [Hin|Hin]; [discriminate|]). exact Hin.
Defined.

(* ================================================================== *)
(** * A fetch that raises: the example loop and the inbox loop *)
(* ================================================================== *)

Section FailingFetch.
Variable U : Unicode.
Variable parsedate_to_datetime : pystr -> option Date.datetime.
Variable CONFIG : Config.
Context {Env : Type}.
Variable service : Service Env.
(** What a fetch gives, whenever it is asked. *)
Variable get : pystr -> result message.
Hypothesis messages_get_get :
  forall msg e, fst (messages_get service msg e) = get msg.

Local Abbreviation kept := (with_content U parsedate_to_datetime CONFIG).

Lemma with_content_cons (raw : message) (raws : list message) :
  kept (raw :: raws) =
  (if has_content (get_email_content U parsedate_to_datetime CONFIG raw)
   then [get_email_content U parsedate_to_datetime CONFIG raw] else []) ++ kept raws.
Proof.
  unfold with_content. cbn [List.map List.filter].
  now destruct (has_content _).
Qed.

Lemma load_examples_until_raised (messages : list pystr) (loaded : list email_content)
    (st : state Env) :
  exists st',
    load_examples U parsedate_to_datetime CONFIG service messages loaded st
    = (Done (loaded ++ kept (until_raised get messages)), st') /\
    trace st' = trace st ++ List.map GetMessage (asked_until_raised get messages).
Proof using Type*.
  revert loaded st. induction messages as [|msg messages IH]; intros loaded st.
  - exists st. cbn. now rewrite !app_nil_r.
  - cbn [load_examples until_raised asked_until_raised]. unfold bind.
    rewrite request_eq, messages_get_get.
    destruct (get msg) as [raw|].
    + rewrite with_content_cons.
      destruct (IH (if has_content (get_email_content U parsedate_to_datetime CONFIG raw)
                    then loaded ++ [get_email_content U parsedate_to_datetime CONFIG raw]
                    else loaded)
                  {| env := snd (messages_get service msg (env st));
                     trace := trace st ++ [GetMessage msg] |})
        as (st' & Heq & Htrace).
      exists st'. rewrite Heq, Htrace. cbn [trace List.map].
      rewrite <- (app_assoc (trace st)). split; [|reflexivity].
      destruct (has_content _); [now rewrite <- app_assoc|reflexivity].
    + exists {| env := snd (messages_get service msg (env st));
                trace := trace st ++ [GetMessage msg] |}.
      split; [|reflexivity]. unfold with_content. cbn [List.map List.filter].
      now rewrite app_nil_r.
Qed.

Lemma fetch_contents_returned (messages_meta : list pystr) (fetched : list email_content)
    (st : state Env) :
  exists st',
    fetch_contents U parsedate_to_datetime CONFIG service messages_meta fetched st
    = (Done (fetched ++ kept (returned get messages_meta)), st') /\
    trace st' = trace st ++ List.map GetMessage messages_meta.
Proof using Type*.
  revert fetched st. induction messages_meta as [|msg rest IH]; intros fetched st.
  - exists st. cbn. now rewrite !app_nil_r.
  - cbn [fetch_contents]. unfold bind, returned. cbn [choose]. fold (returned get rest).
    rewrite request_eq, messages_get_get.
    destruct (get msg) as [raw|].
    + rewrite with_content_cons.
      destruct (IH (if has_content (get_email_content U parsedate_to_datetime CONFIG raw)
                    then fetched ++ [get_email_content U parsedate_to_datetime CONFIG raw]
                    else fetched)
                  {| env := snd (messages_get service msg (env st));
                     trace := trace st ++ [GetMessage msg] |})
        as (st' & Heq & Htrace).
      exists st'. rewrite Heq, Htrace. cbn [trace List.map].
      rewrite <- (app_assoc (trace st)). split; [|reflexivity].
      destruct (has_content _); [now rewrite <- app_assoc|reflexivity].
    + destruct (IH fetched
                  {| env := snd (messages_get service msg (env st));
                     trace := trace st ++ [GetMessage msg] |})
        as (st' & Heq & Htrace).
      exists st'. rewrite Heq, Htrace. cbn [trace List.map].
      now rewrite <- (app_assoc (trace st)).
Qed.

End FailingFetch.

(** Loading the examples of one folder, over a mailbox in which what a
    fetch gives does not change during the run: the folder gets the
    contentful extractions of the listed messages up to the first one
    whose fetch raises, and the messages after that one are not asked
    for.  A listing that raises leaves the folder as it was. *)
Theorem load_folder_until_raised (U : Unicode)
    (parsedate_to_datetime : pystr -> option Date.datetime) (CONFIG : Config)
    {Env : Type} (service : Service Env) (get : pystr -> result message)
    (folder_data : folder) (st : state Env) :
  (forall msg e, fst (messages_get service msg e) = get msg) ->
  let listing := ListMessages [folder_id folder_data] None (examples_limit CONFIG) in
  let messages :=
    match fst (messages_list service [folder_id folder_data] None
                 (examples_limit CONFIG) (env st)) with
    | Returned messages => messages
    | Raised => []
    end in
  exists st',
    load_folder U parsedate_to_datetime CONFIG service folder_data st
    = (Done {| folder_id := folder_id folder_data;
               folder_name := folder_name folder_data;
               examples :=
                 examples folder_data ++
                 with_content U parsedate_to_datetime CONFIG (until_raised get messages) |},
       st') /\
    trace st' =
      trace st ++ listing :: List.map GetMessage (asked_until_raised get messages).
Proof.
  intros Hget listing messages. subst listing messages.
  unfold load_folder, bind. rewrite request_eq.
  destruct (fst (messages_list service _ _ _ _)) as [messages|].
  - destruct (load_examples_until_raised U parsedate_to_datetime CONFIG service get Hget
                messages (examples folder_data)
                {| env := snd (messages_list service [folder_id folder_data] None
                                 (examples_limit CONFIG) (env st));
                   trace := trace st ++
                     [ListMessages [folder_id folder_data] None (examples_limit CONFIG)] |})
      as (st' & Heq & Htrace).
    exists st'. rewrite Heq, Htrace. cbn [trace].
    now rewrite <- (app_assoc (trace st)).
  - exists {| env := snd (messages_list service [folder_id folder_data] None
                            (examples_limit CONFIG) (env st));
              trace := trace st ++
                [ListMessages [folder_id folder_data] None (examples_limit CONFIG)] |}.
    split; [|reflexivity]. unfold with_content. cbn [until_raised List.map List.filter].
    rewrite app_nil_r. destruct folder_data; reflexivity.
Qed.

Lemma load_folder_until_raised_witness :
  exists st',
    load_folder Sample.ascii_only Sample.parse_invoice_date Sample.config Flaky.service
      {| folder_id := str "L1"; folder_name := str "AI_AUTO_Receipts"; examples := [] |}
      Flaky.start
    = (Done {| folder_id := str "L1"; folder_name := str "AI_AUTO_Receipts";
               examples := Fixture.example (str "m1") |}, st') /\
    trace st' =
      [ ListMessages [str "L1"] None (examples_limit Sample.config);
        GetMessage (str "m1"); GetMessage (str "x9") ].
Proof.
  exact (load_folder_until_raised Sample.ascii_only Sample.parse_invoice_date Sample.config
           Flaky.service Fixture.fetch
           {| folder_id := str "L1"; folder_name := str "AI_AUTO_Receipts"; examples := [] |}
           Flaky.start (fun _ _ => eq_refl)).
Defined.

(** The inbox listing, over the same kind of mailbox: the candidates are
    the contentful extractions of the listed messages in reverse listing
    order, a message whose fetch raises being skipped; every listed
    message is asked for once. *)
Theorem fetch_inbox_emails_skips_raised (U : Unicode)
    (parsedate_to_datetime : pystr -> option Date.datetime) (CONFIG : Config)
    {Env : Type} (service : Service Env) (get : pystr -> result message)
    (all_labels_map : Dict.dict pystr) (ai_auto_label_ids_to_exclude : list pystr)
    (inbox_label_id : pystr) (messages_meta : list pystr) (st : state Env) :
  (forall msg e, fst (messages_get service msg e) = get msg) ->
  Dict.get all_labels_map (inbox_label CONFIG) = Some inbox_label_id ->
  inbox_label_id <> [] ->
  let q := full_query_string U ai_auto_label_ids_to_exclude in
  fst (messages_list service [inbox_label_id] (Some q)
         (max_emails_to_scan_inbox CONFIG) (env st)) = Returned messages_meta ->
  exists st',
    fetch_inbox_emails U parsedate_to_datetime CONFIG service all_labels_map
      ai_auto_label_ids_to_exclude st
    = (Done (with_content U parsedate_to_datetime CONFIG
               (returned get (rev messages_meta))), st') /\
    trace st' =
      trace st ++
      ListMessages [inbox_label_id] (Some q) (max_emails_to_scan_inbox CONFIG)
      :: List.map GetMessage (rev messages_meta).
Proof.
  intros Hget Hlabel Hid q Hlist. subst q.
  unfold fetch_inbox_emails. rewrite Hlabel.
  destruct inbox_label_id as [|c inbox_label_id]; [contradiction|].
  unfold bind. rewrite request_eq, Hlist.
  destruct (fetch_contents_returned U parsedate_to_datetime CONFIG service get Hget
              (rev messages_meta) []
              {| env := snd (messages_list service [c :: inbox_label_id]
                               (Some (full_query_string U ai_auto_label_ids_to_exclude))
                               (max_emails_to_scan_inbox CONFIG) (env st));
                 trace := trace st ++
                   [ListMessages [c :: inbox_label_id]
                      (Some (full_query_string U ai_auto_label_ids_to_exclude))
                      (max_emails_to_scan_inbox CONFIG)] |})
    as (st' & Heq & Htrace).
  exists st'. split; [exact Heq|].
  rewrite Htrace. cbn [trace]. now rewrite <- (app_assoc (trace st)).
Qed.

Lemma fetch_inbox_emails_skips_raised_witness :
  exists st',
    fetch_inbox_emails Sample.ascii_only Sample.parse_invoice_date Sample.config
      Flaky.service Fixture.all_labels_map [str "L1"] Flaky.start
    = (Done (Fixture.example (str "t1") ++ Fixture.example (str "m1")), st') /\
    trace st' =
      [ ListMessages [str "INBOX"] (Some (str "-in:spam -in:trash -label:L1"))
          (max_emails_to_scan_inbox Sample.config);
        GetMessage (str "t1"); GetMessage (str "x9"); GetMessage (str "m1") ].
Proof.
  exact (fetch_inbox_emails_skips_raised Sample.ascii_only Sample.parse_invoice_date
           Sample.config Flaky.service Fixture.fetch Fixture.all_labels_map [str "L1"]
           (str "INBOX") Flaky.listed Flaky.start (fun _ _ => eq_refl) eq_refl
           ltac:(discriminate) eq_refl).
Defined.

(* ================================================================== *)
(** * The requests of the classification *)
(* ================================================================== *)

Lemma modify_calls_app (t1 t2 : list event) :
  modify_calls (t1 ++ t2) = modify_calls t1 + modify_calls t2.
Proof.
  induction t1 as [|e t1 IH]; [reflexivity|].
  destruct e; simpl; rewrite IH; reflexivity.
Qed.

Lemma inbox_request_incl (CONFIG : Config) (all_labels_map : Dict.dict pystr)
    (categories categories' : Dict.dict folder) (emails emails' : list email_content)
    (e : event) :
  incl categories categories' -> incl emails emails' ->
  inbox_request CONFIG all_labels_map categories emails e ->
  inbox_request CONFIG all_labels_map categories' emails' e.
Proof.
  intros Hc He [Hm|(email & category & folder_meta & Hin1 & Hin2 & ->)]; [now left|].
  right. exists email, category, folder_meta. auto.
Qed.

Section Requests.
Variable U : Unicode.
Variable CONFIG : Config.
Context {Env : Type}.
Variable service : Service Env.

Local Abbreviation check := (ollama_check_similarity U CONFIG service).
Local Abbreviation classify := (classify_email U CONFIG service).
Local Abbreviation process := (process_inbox U CONFIG service).

Local Ltac sent_is l :=
  solve [ unfold ret, raise, exit;
          exists l; cbn [fst snd trace app chat_calls modify_calls];
          rewrite <- ?app_assoc, ?app_nil_r;
          repeat split; try reflexivity; try lia; try discriminate;
          repeat (constructor; try exact I) ].

(** What one check sends: requests to the model side only, at most one
    of them a chat request. *)
Lemma check_sent (category_name : pystr) (example_emails_list : list email_content)
    (new_email_content : email_content) (st : state Env) :
  let r := check category_name example_emails_list new_email_content st in
  exists sent,
    trace (snd r) = trace st ++ sent /\
    Forall model_event sent /\
    chat_calls sent <= 1 /\ modify_calls sent = 0 /\
    (forall code, fst r <> Exit code).
Proof.
  cbv zeta. unfold ollama_check_similarity.
  destruct (ollama_host CONFIG) as [host|]; [|sent_is constr:(@nil event)].
  unfold bind. rewrite request_eq.
  destruct (fst (ollama_Client service host (env st))); [|sent_is [NewClient host]].
  destruct (similarity_prompt_v3 CONFIG) as [[|line lines]|];
    try (sent_is [NewClient host]).
  destruct (format _ _) as [prompt|]; [|sent_is [NewClient host]].
  rewrite request_eq.
  destruct (fst (ollama_chat service _ _ _)) as [[content|]|];
    sent_is [NewClient host; Chat (model_name CONFIG) prompt].
Qed.

Lemma classify_sent (all_labels_map : Dict.dict pystr) (new_email_item : email_content)
    (categories : Dict.dict folder) (st : state Env) :
  let r := classify all_labels_map categories new_email_item st in
  exists sent,
    trace (snd r) = trace st ++ sent /\
    Forall (inbox_request CONFIG all_labels_map categories [new_email_item]) sent /\
    modify_calls sent <= 1 /\ chat_calls sent <= length categories /\
    (forall code, fst r <> Exit code) /\
    (forall res, fst r = Done res -> moved_of res <= modify_calls sent).
Proof.
  cbv zeta. revert st.
  induction categories as [|[category folder_meta] rest IH]; intros st.
  - exists []. cbn [classify_email]. unfold ret.
    cbn [fst snd length chat_calls modify_calls]. rewrite app_nil_r.
    split; [reflexivity|]. split; [constructor|]. split; [lia|]. split; [lia|].
    split; [discriminate|]. intros res [= <-]. cbn. lia.
  - cbn [classify_email]. unfold bind.
    destruct (check_sent category (examples folder_meta) new_email_item st)
      as (sent1 & Htrace1 & Hmodel1 & Hchat1 & Hmod1 & Hexit1).
    assert (Hreq1 : Forall (inbox_request CONFIG all_labels_map
                              ((category, folder_meta) :: rest) [new_email_item]) sent1).
    { eapply Forall_impl; [exact Hmodel1|]. intros e He. now left. }
    destruct (check category (examples folder_meta) new_email_item st)
      as [[[|]|code|] st1] eqn:Hcheck; cbn [fst snd] in Htrace1, Hexit1.
    + rewrite move_email_eq. cbv zeta. unfold ret. cbn [fst snd trace].
      exists (sent1 ++
              [ModifyMessage (id new_email_item)
                 (move_request (folder_id folder_meta) all_labels_map (inbox_label CONFIG))]).
      rewrite Htrace1, <- app_assoc, modify_calls_app, chat_calls_app, Hmod1.
      cbn [modify_calls chat_calls length].
      split; [reflexivity|]. split.
      { apply Forall_app. split; [exact Hreq1|].
        constructor; [|constructor]. right.
        exists new_email_item, category, folder_meta.
        split; [now left|]. split; [now left|reflexivity]. }
      split; [lia|]. split; [lia|]. split; [discriminate|].
      intros res [= <-]. unfold moved_of.
      destruct (fst (messages_modify service _ _ _)); lia.
    + destruct (IH st1) as (sent2 & Htrace2 & Hreq2 & Hmod2 & Hchat2 & Hexit2 & Hmoved2).
      exists (sent1 ++ sent2).
      rewrite Htrace2, Htrace1, <- app_assoc, modify_calls_app, chat_calls_app, Hmod1.
      cbn [length].
      split; [reflexivity|]. split.
      { apply Forall_app. split; [exact Hreq1|].
        eapply Forall_impl; [exact Hreq2|]. intros e.
        apply inbox_request_incl; [apply incl_tl|]; apply incl_refl. }
      split; [lia|]. split; [lia|]. split; [exact Hexit2|].
      intros res Hres. apply Hmoved2 in Hres. lia.
    + now destruct (Hexit1 code).
    + exists sent1. cbn [fst snd]. rewrite Hmod1. cbn [length].
      split; [exact Htrace1|]. split; [exact Hreq1|].
      split; [lia|]. split; [lia|]. split; discriminate.
Qed.

Lemma process_sent (all_labels_map : Dict.dict pystr) (categories : Dict.dict folder)
    (emails : list email_content) (c : counters) (st : state Env) :
  let r := process all_labels_map categories emails c st in
  exists sent,
    trace (snd r) = trace st ++ sent /\
    Forall (inbox_request CONFIG all_labels_map categories emails) sent /\
    modify_calls sent <= length emails /\
    chat_calls sent <= length emails * length categories /\
    (forall code, fst r <> Exit code) /\
    (forall c', fst r = Done c' ->
       emails_analyzed_count c' = emails_analyzed_count c + length emails /\
       emails_moved_count c <= emails_moved_count c' /\
       emails_moved_count c' <= emails_moved_count c + modify_calls sent).
Proof.
  cbv zeta. revert c st.
  induction emails as [|new_email_item rest IH]; intros c st.
  - exists []. cbn [process_inbox]. unfold ret.
    cbn [fst snd length chat_calls modify_calls]. rewrite app_nil_r.
    split; [reflexivity|]. split; [constructor|]. split; [lia|]. split; [lia|].
    split; [discriminate|]. intros c' [= <-]. lia.
  - cbn [process_inbox]. unfold bind.
    destruct (classify_sent all_labels_map new_email_item categories st)
      as (sent1 & Htrace1 & Hreq1 & Hmod1 & Hchat1 & Hexit1 & Hmoved1).
    assert (Hreq1' : Forall (inbox_request CONFIG all_labels_map categories
                               (new_email_item :: rest)) sent1).
    { eapply Forall_impl; [exact Hreq1|]. intros e.
      apply inbox_request_incl; [apply incl_refl|].
      intros x [<-|[]]. now left. }
    destruct (classify all_labels_map categories new_email_item st)
      as [[res|code|] st1] eqn:Hclassify; cbn [fst snd] in Htrace1, Hexit1, Hmoved1.
    + specialize (Hmoved1 res eq_refl). fold (moved_of res).
      destruct (IH {| emails_analyzed_count := S (emails_analyzed_count c);
                      emails_moved_count := emails_moved_count c + moved_of res |} st1)
        as (sent2 & Htrace2 & Hreq2 & Hmod2 & Hchat2 & Hexit2 & Hcount2).
      exists (sent1 ++ sent2).
      rewrite Htrace2, Htrace1, <- app_assoc, modify_calls_app, chat_calls_app.
      cbn [length].
      split; [reflexivity|]. split.
      { apply Forall_app. split; [exact Hreq1'|].
        eapply Forall_impl; [exact Hreq2|]. intros e.
        apply inbox_request_incl; [apply incl_refl|apply incl_tl, incl_refl]. }
      split; [lia|]. split; [lia|]. split; [exact Hexit2|].
      intros c' Hc'. apply Hcount2 in Hc'.
      cbn [emails_analyzed_count emails_moved_count] in Hc'. lia.
    + now destruct (Hexit1 code).
    + exists sent1. cbn [fst snd length].
      split; [exact Htrace1|]. split; [exact Hreq1'|].
      split; [lia|]. split; [lia|]. split; discriminate.
Qed.

(** With the host configured and a template that renders, the prompt
    of a check is built. *)
Lemma format_renders (category_name : pystr) (example_emails_list : list email_content)
    (new_email_content : email_content) (line : pystr) (lines : list pystr) :
  similarity_prompt_v3 CONFIG = Some (line :: lines) ->
  template_renders CONFIG = true ->
  exists prompt,
    format U (join NEWLINE (line :: lines))
      (prompt_kwargs CONFIG category_name example_emails_list new_email_content)
    = Some prompt.
Proof.
  intros Htemplate Hrenders. unfold template_renders in Hrenders.
  rewrite Htemplate in Hrenders. unfold format.
  destruct (Template.parse (join NEWLINE (line :: lines))) as [segments|];
    [|discriminate].
  apply andb_true_iff in Hrenders as [Hplain Hknown].
  now apply render_known.
Qed.

(** With the host configured and a template that renders, a check
    returns. *)
Lemma check_returns (category_name : pystr) (example_emails_list : list email_content)
    (new_email_content : email_content) (st : state Env) :
  ollama_host CONFIG <> None ->
  template_renders CONFIG = true ->
  exists matched st',
    check category_name example_emails_list new_email_content st = (Done matched, st').
Proof.
  intros Hhost Htemplate. unfold ollama_check_similarity.
  destruct (ollama_host CONFIG) as [host|]; [|contradiction].
  unfold bind. rewrite request_eq.
  destruct (fst (ollama_Client service host (env st))); [|now eexists _, _].
  destruct (similarity_prompt_v3 CONFIG) as [[|line lines]|] eqn:Hlines;
    try (now eexists _, _).
  destruct (format_renders category_name example_emails_list new_email_content
              line lines Hlines Htemplate) as [prompt ->].
  rewrite request_eq.
  destruct (fst (ollama_chat service _ _ _)) as [[content|]|]; now eexists _, _.
Qed.

Lemma classify_returns (all_labels_map : Dict.dict pystr) (new_email_item : email_content)
    (categories : Dict.dict folder) (st : state Env) :
  ollama_host CONFIG <> None ->
  template_renders CONFIG = true ->
  exists res st',
    classify all_labels_map categories new_email_item st = (Done res, st').
Proof.
  intros Hhost Htemplate. revert st.
  induction categories as [|[category folder_meta] rest IH]; intros st.
  - now eexists _, _.
  - cbn [classify_email]. unfold bind at 1.
    destruct (check_returns category (examples folder_meta) new_email_item st
                Hhost Htemplate) as ([|] & st1 & ->).
    + unfold bind. rewrite move_email_eq. now eexists _, _.
    + apply IH.
Qed.

Lemma process_returns (all_labels_map : Dict.dict pystr) (categories : Dict.dict folder)
    (emails : list email_content) (c : counters) (st : state Env) :
  ollama_host CONFIG <> None ->
  template_renders CONFIG = true ->
  exists c' st', process all_labels_map categories emails c st = (Done c', st').
Proof.
  intros Hhost Htemplate. revert c st.
  induction emails as [|new_email_item rest IH]; intros c st.
  - now eexists _, _.
  - cbn [process_inbox]. unfold bind at 1.
    destruct (classify_returns all_labels_map new_email_item categories st
                Hhost Htemplate) as (res & st1 & ->).
    apply IH.
Qed.

End Requests.

(* ================================================================== *)
(** * The requests of the classification, email by email *)
(* ================================================================== *)

Section RequestShape.
Variable U : Unicode.
Variable CONFIG : Config.
Context {Env : Type}.
Variable service : Service Env.

Lemma check_shape (category : pystr) (folder_meta : folder)
    (new_email_item : email_content) (st : state Env) :
  exists piece,
    trace (snd (ollama_check_similarity U CONFIG service category (examples folder_meta)
                  new_email_item st)) = trace st ++ piece /\
    check_requests U CONFIG category folder_meta new_email_item piece.
Proof.
  unfold ollama_check_similarity, check_requests.
  destruct (ollama_host CONFIG) as [host|].
  2:{ exists []. cbn. rewrite app_nil_r. split; [reflexivity|]. now left. }
  unfold bind. rewrite request_eq.
  assert (Hclient : exists piece : list event,
            trace st ++ [NewClient host] = trace st ++ piece /\
            ((Some host = None /\ piece = []) \/
             exists host0, Some host = Some host0 /\
               (piece = [NewClient host0] \/
                exists prompt,
                  format U (join NEWLINE (get_default (similarity_prompt_v3 CONFIG) []))
                    (prompt_kwargs CONFIG category (examples folder_meta) new_email_item)
                  = Some prompt /\
                  piece = [NewClient host0; Chat (model_name CONFIG) prompt]))).
  { exists [NewClient host]. split; [reflexivity|]. right. exists host.
    split; [reflexivity|now left]. }
  destruct (fst (ollama_Client service host (env st))); [|exact Hclient].
  destruct (similarity_prompt_v3 CONFIG) as [[|line lines]|]; try exact Hclient.
  cbn [get_default].
  destruct (format U _ _) as [prompt|] eqn:Hformat; [|exact Hclient].
  rewrite request_eq. cbn [env trace].
  exists [NewClient host; Chat (model_name CONFIG) prompt]. split.
  - destruct (fst (ollama_chat service _ _ _)) as [[content|]|];
      cbn [snd trace ret]; now rewrite <- app_assoc.
  - right. exists host. split; [reflexivity|]. right. now exists prompt.
Qed.

Lemma classify_shape (all_labels_map : Dict.dict pystr) (new_email_item : email_content)
    (categories : Dict.dict folder) (st : state Env) :
  exists requests,
    trace (snd (classify_email U CONFIG service all_labels_map categories
                  new_email_item st)) = trace st ++ requests /\
    email_requests U CONFIG all_labels_map new_email_item categories requests.
Proof.
  revert st. induction categories as [|[category folder_meta] rest IH]; intros st.
  - exists []. cbn. rewrite app_nil_r. split; [reflexivity|constructor].
  - cbn [classify_email]. unfold bind.
    destruct (check_shape category folder_meta new_email_item st)
      as (piece & Htrace & Hpiece).
    destruct (ollama_check_similarity U CONFIG service category (examples folder_meta)
                new_email_item st) as [[[|]|code|] st1]; cbn [snd] in Htrace.
    + rewrite move_email_eq. cbv zeta. cbn [snd trace].
      eexists. rewrite Htrace, <- app_assoc. split; [reflexivity|].
      now apply requests_move.
    + destruct (IH st1) as (sent & Htrace2 & Hsent).
      exists (piece ++ sent). rewrite Htrace2, Htrace, <- app_assoc.
      split; [reflexivity|]. now apply requests_next.
    + exists piece. split; [exact Htrace|]. rewrite <- (app_nil_r piece).
      apply requests_next; [assumption|constructor].
    + exists piece. split; [exact Htrace|]. rewrite <- (app_nil_r piece).
      apply requests_next; [assumption|constructor].
Qed.

Lemma process_shape (all_labels_map : Dict.dict pystr) (categories : Dict.dict folder)
    (emails : list email_content) (c : counters) (st : state Env) :
  exists sent,
    trace (snd (process_inbox U CONFIG service all_labels_map categories emails c st))
    = trace st ++ sent /\
    inbox_requests U CONFIG all_labels_map categories emails sent.
Proof.
  revert c st. induction emails as [|new_email_item rest IH]; intros c st.
  - exists []. cbn. rewrite app_nil_r. split; [reflexivity|constructor].
  - cbn [process_inbox]. unfold bind.
    destruct (classify_shape all_labels_map new_email_item categories st)
      as (requests & Htrace & Hrequests).
    destruct (classify_email U CONFIG service all_labels_map categories new_email_item st)
      as [[res|code|] st1]; cbn [snd] in Htrace.
    + match goal with
      | |- context [process_inbox _ _ _ _ _ rest ?c1 st1] =>
          destruct (IH c1 st1) as (sent & Htrace2 & Hsent)
      end.
      exists (requests ++ sent). rewrite Htrace2, Htrace, <- app_assoc.
      split; [reflexivity|]. now apply inbox_next.
    + exists requests. split; [exact Htrace|]. rewrite <- (app_nil_r requests).
      apply inbox_next; [assumption|constructor].
    + exists requests. split; [exact Htrace|]. rewrite <- (app_nil_r requests).
      apply inbox_next; [assumption|constructor].
Qed.

(** The part of [main] behind the example loading, over categories of
    which there is at least one: what it sends behind the fetch of the
    inbox are the requests of the loop over the fetched emails and these
    categories. *)
Lemma classify_inbox_shape (parsedate_to_datetime : pystr -> option Date.datetime)
    (all_labels_map : Dict.dict pystr) (categories : Dict.dict folder) (st : state Env) :
  categories <> [] ->
  let fetched :=
    fetch_inbox_emails U parsedate_to_datetime CONFIG service all_labels_map
      (List.map (fun kv => folder_id (snd kv)) categories) st in
  let emails := match fst fetched with Done emails => emails | _ => [] end in
  exists sent,
    trace (snd (classify_inbox U parsedate_to_datetime CONFIG service all_labels_map
                  categories st)) = trace (snd fetched) ++ sent /\
    inbox_requests U CONFIG all_labels_map categories emails sent.
Proof.
  intros Hne fetched emails. subst emails fetched. unfold classify_inbox.
  destruct categories as [|entry rest]; [contradiction|].
  unfold bind.
  destruct (fetch_inbox_emails U parsedate_to_datetime CONFIG service all_labels_map _ st)
    as [[[|email emails]|code|] st1]; cbn [fst snd];
    try (exists []; rewrite app_nil_r; split; [reflexivity|constructor]).
  destruct (process_shape all_labels_map (entry :: rest) (email :: emails)
              {| emails_analyzed_count := 0; emails_moved_count := 0 |} st1)
    as (sent & Htrace & Hsent).
  exists sent. split; [|exact Hsent].
  destruct (process_inbox U CONFIG service all_labels_map (entry :: rest)
              (email :: emails) _ st1) as [[c|code|] st2]; exact Htrace.
Qed.

End RequestShape.

(* ================================================================== *)
(** * The classification as a whole *)
(* ================================================================== *)

(** A check reports a match only after the model has answered: the
    host is configured, the construction of the client returned, the
    template rendered to a prompt, the prompt was sent in one chat
    request, and the text of the response reads as a YES. *)
Theorem check_true_needs_yes (U : Unicode) (CONFIG : Config) {Env : Type}
    (service : Service Env) (category_name : pystr)
    (example_emails_list : list email_content) (new_email_content : email_content)
    (st st' : state Env) :
  ollama_check_similarity U CONFIG service category_name example_emails_list
    new_email_content st = (Done true, st') ->
  exists host client prompt content,
    ollama_host CONFIG = Some host /\
    fst (ollama_Client service host (env st)) = Returned client /\
    format U (join NEWLINE (get_default (similarity_prompt_v3 CONFIG) []))
      (prompt_kwargs CONFIG category_name example_emails_list new_email_content)
    = Some prompt /\
    trace st' = trace st ++ [NewClient host; Chat (model_name CONFIG) prompt] /\
    fst (ollama_chat service (model_name CONFIG) prompt
           (snd (ollama_Client service host (env st)))) = Returned (Some content) /\
    interpret_answer U content = true.
Proof.
  unfold ollama_check_similarity.
  destruct (ollama_host CONFIG) as [host|]; [|discriminate].
  unfold bind. rewrite request_eq.
  destruct (fst (ollama_Client service host (env st))) as [client|] eqn:Hclient;
    [|discriminate].
  destruct (similarity_prompt_v3 CONFIG) as [[|line lines]|]; try discriminate.
  cbn [get_default].
  destruct (format U _ _) as [prompt|]; [|discriminate].
  rewrite request_eq. cbn [env trace].
  destruct (fst (ollama_chat service _ _ _)) as [[content|]|] eqn:Hchat;
    try discriminate.
  unfold ret. intros [= Hyes <-]. cbn [trace].
  exists host, client, prompt, content. rewrite <- app_assoc.
  repeat split; assumption.
Qed.

Lemma check_true_needs_yes_witness :
  exists host client prompt content,
    ollama_host Sample.config = Some host /\
    fst (ollama_Client (Fixture.service true) host
           (env (Fixture.start [Returned (Some (str " Yes. "))]))) = Returned client /\
    format Sample.ascii_only
      (join NEWLINE (get_default (similarity_prompt_v3 Sample.config) []))
      (prompt_kwargs Sample.config (str "Travel") (Fixture.example (str "t1"))
         Fixture.trip)
    = Some prompt /\
    trace (snd (ollama_check_similarity Sample.ascii_only Sample.config
                  (Fixture.service true) (str "Travel") (Fixture.example (str "t1"))
                  Fixture.trip (Fixture.start [Returned (Some (str " Yes. "))])))
    = trace (Fixture.start [Returned (Some (str " Yes. "))]) ++
      [NewClient host; Chat (model_name Sample.config) prompt] /\
    fst (ollama_chat (Fixture.service true) (model_name Sample.config) prompt
           (snd (ollama_Client (Fixture.service true) host
                   (env (Fixture.start [Returned (Some (str " Yes. "))])))))
    = Returned (Some content) /\
    interpret_answer Sample.ascii_only content = true.
Proof.
  apply (check_true_needs_yes Sample.ascii_only Sample.config (Fixture.service true)
           (str "Travel") (Fixture.example (str "t1")) Fixture.trip
           (Fixture.start [Returned (Some (str " Yes. "))])).
  vm_compute. reflexivity.
Defined.

(** What the loop over the inbox sends, however it ends.  The requests
    come email by email, in the order of the emails.  For one email there
    is one check after the other, in the order of the categories and at
    most one per category: the construction of the client and at most one
    chat request, whose prompt is the one rendered for that category, its
    examples and this email.  A relabel request can only end the requests
    of an email, right behind a check: it moves this email to the label of
    the category just checked (and takes the inbox label away), and no
    other category is checked for this email after it.  So there is at
    most one relabel request per email and at most one chat request per
    email and category; nothing is listed or fetched, and the loop never
    ends by [exit]. *)
Theorem process_inbox_requests (U : Unicode) (CONFIG : Config) {Env : Type}
    (service : Service Env) (all_labels_map : Dict.dict pystr)
    (ai_folders_with_examples : Dict.dict folder)
    (inbox_emails_list : list email_content) (c : counters) (st : state Env) :
  let r := process_inbox U CONFIG service all_labels_map ai_folders_with_examples
             inbox_emails_list c st in
  exists sent,
    trace (snd r) = trace st ++ sent /\
    inbox_requests U CONFIG all_labels_map ai_folders_with_examples
      inbox_emails_list sent /\
    Forall (inbox_request CONFIG all_labels_map ai_folders_with_examples
              inbox_emails_list) sent /\
    modify_calls sent <= length inbox_emails_list /\
    chat_calls sent <= length inbox_emails_list * length ai_folders_with_examples /\
    (forall code, fst r <> Exit code).
Proof.
  intros r.
  destruct (process_sent U CONFIG service all_labels_map ai_folders_with_examples
              inbox_emails_list c st)
    as (sent & Htrace & Hreq & Hmod & Hchat & Hexit & _).
  destruct (process_shape U CONFIG service all_labels_map ai_folders_with_examples
              inbox_emails_list c st) as (sent' & Htrace' & Hshape).
  assert (sent' = sent) as ->.
  { apply (app_inv_head (trace st)). now rewrite <- Htrace, <- Htrace'. }
  exists sent. repeat split; assumption.
Qed.

(** The requests of the scripted run over two emails: the first is
    rejected for the first category and moved to the second; for the
    second email the chat requests raise, and it stays. *)
Example fixture_inbox_requests :
  exists prompt1 prompt2 prompt3 prompt4,
    trace (snd (process_inbox Sample.ascii_only Sample.config (Fixture.service true)
                  Fixture.all_labels_map Fixture.categories
                  [Fixture.trip; Sample.invoice_content (str "UTC")]
                  {| emails_analyzed_count := 0; emails_moved_count := 0 |}
                  (Fixture.start [Returned (Some (str "NO")); Returned (Some (str "YES"))])))
    = [ NewClient (str "http://localhost:11434"); Chat (str "qwen:14b") prompt1;
        NewClient (str "http://localhost:11434"); Chat (str "qwen:14b") prompt2;
        ModifyMessage (str "i1")
          {| addLabelIds := [str "L3"]; removeLabelIds := Some [str "INBOX"] |};
        NewClient (str "http://localhost:11434"); Chat (str "qwen:14b") prompt3;
        NewClient (str "http://localhost:11434"); Chat (str "qwen:14b") prompt4 ].
Proof. do 4 eexists. vm_compute. reflexivity. Qed.

(** With the host configured, and a template that is either missing or
    made of literal text and of replacement fields that are names of
    keyword arguments of the [format] call and nothing else
    ([template_renders]), the loop over the inbox runs to its end: every
    email is counted as analyzed, and an email counts as moved only for a
    relabel request that was sent. *)
Theorem process_inbox_counts (U : Unicode) (CONFIG : Config) {Env : Type}
    (service : Service Env) (all_labels_map : Dict.dict pystr)
    (ai_folders_with_examples : Dict.dict folder)
    (inbox_emails_list : list email_content) (c : counters) (st : state Env) :
  ollama_host CONFIG <> None ->
  template_renders CONFIG = true ->
  exists c' st',
    process_inbox U CONFIG service all_labels_map ai_folders_with_examples
      inbox_emails_list c st = (Done c', st') /\
    emails_analyzed_count c' = emails_analyzed_count c + length inbox_emails_list /\
    emails_moved_count c <= emails_moved_count c' /\
    emails_moved_count c' + modify_calls (trace st)
    <= emails_moved_count c + modify_calls (trace st').
Proof.
  intros Hhost Htemplate.
  destruct (process_returns U CONFIG service all_labels_map ai_folders_with_examples
              inbox_emails_list c st Hhost Htemplate) as (c' & st' & Hrun).
  destruct (process_sent U CONFIG service all_labels_map ai_folders_with_examples
              inbox_emails_list c st)
    as (sent & Htrace & _ & _ & _ & _ & Hcount).
  rewrite Hrun in Htrace, Hcount. cbn [fst snd] in Htrace, Hcount.
  destruct (Hcount c' eq_refl) as (Ha & Hm1 & Hm2).
  exists c', st'. rewrite Htrace, modify_calls_app.
  repeat split; try assumption; lia.
Qed.

Lemma process_inbox_counts_witness :
  exists c' st',
    process_inbox Sample.ascii_only Sample.config (Fixture.service true)
      Fixture.all_labels_map Fixture.categories [Fixture.trip; Fixture.trip]
      {| emails_analyzed_count := 0; emails_moved_count := 0 |}
      (Fixture.start [Returned (Some (str "NO")); Returned (Some (str "YES"))])
    = (Done c', st') /\
    emails_analyzed_count c' = 0 + 2 /\
    0 <= emails_moved_count c' /\
    emails_moved_count c' +
    modify_calls
      (trace (Fixture.start [Returned (Some (str "NO")); Returned (Some (str "YES"))]))
    <= 0 + modify_calls (trace st').
Proof.
  apply (process_inbox_counts Sample.ascii_only Sample.config (Fixture.service true)
           Fixture.all_labels_map Fixture.categories [Fixture.trip; Fixture.trip]
           {| emails_analyzed_count := 0; emails_moved_count := 0 |}
           (Fixture.start [Returned (Some (str "NO")); Returned (Some (str "YES"))])).
  - discriminate.
  - reflexivity.
Defined.

(** Examples beyond the first [max_examples_per_folder] (one, when the
    option is not set) have no part in a check: two example lists that
    agree up to there give the same requests and the same verdict. *)
Theorem check_ignores_examples_beyond_limit (U : Unicode) (CONFIG : Config) {Env : Type}
    (service : Service Env) (category_name : pystr)
    (examples1 examples2 : list email_content) (new_email_content : email_content)
    (st : state Env) :
  slice_to (examples_limit CONFIG) examples1 = slice_to (examples_limit CONFIG) examples2 ->
  ollama_check_similarity U CONFIG service category_name examples1 new_email_content st
  = ollama_check_similarity U CONFIG service category_name examples2 new_email_content st.
Proof.
  intros Hslice. unfold ollama_check_similarity, prompt_kwargs, full_examples_text.
  now rewrite Hslice.
Qed.

Lemma check_ignores_examples_beyond_limit_witness :
  ollama_check_similarity Sample.ascii_only Sample.config
    (Fixture.service true) (str "Travel")
    (Fixture.example (str "t1") ++ Fixture.example (str "m1") ++
     Fixture.example (str "i1") ++ Fixture.example (str "i2"))
    Fixture.trip (Fixture.start [Returned (Some (str "YES"))])
  = ollama_check_similarity Sample.ascii_only Sample.config
      (Fixture.service true) (str "Travel")
      (Fixture.example (str "t1") ++ Fixture.example (str "m1") ++
       Fixture.example (str "i1"))
      Fixture.trip (Fixture.start [Returned (Some (str "YES"))]).
Proof.
  apply check_ignores_examples_beyond_limit. reflexivity.
Defined.

(* ================================================================== *)
(** * Runs that end before the classification *)
(* ================================================================== *)

Lemma dict_set_keys_Forall {V} (P : pystr -> Prop) (d : Dict.dict V) (k : pystr) (v : V) :
  Forall P (List.map fst d) -> P k -> Forall P (List.map fst (Dict.set d k v)).
Proof.
  intros Hd Hk. rewrite dict_set_keys. destruct (existsb _ _); [assumption|].
  apply Forall_app. split; [assumption|]. constructor; [assumption|constructor].
Qed.

Lemma of_items_keys_Forall {V} (P : pystr -> Prop) (items : list (pystr * V)) :
  Forall P (List.map fst items) -> Forall P (List.map fst (Dict.of_items items)).
Proof.
  induction items as [|kv items IH] using rev_ind; intros Hitems.
  - constructor.
  - rewrite of_items_snoc. rewrite List.map_app in Hitems.
    apply Forall_app in Hitems as [Hitems Hkv].
    apply dict_set_keys_Forall; [now apply IH|]. now inversion Hkv.
Qed.

Lemma choose_none {A B} (f : A -> option B) (l : list A) :
  Forall (fun x => f x = None) l -> choose f l = [].
Proof. induction 1 as [|x l Hx Hl IH]; [reflexivity|]. cbn [choose]. now rewrite Hx. Qed.

(** When no label of the account has the folder prefix, [main] lists the
    labels and ends by [exit(1)]: nothing else is requested. *)
Theorem main_without_categories (U : Unicode)
    (parsedate_to_datetime : pystr -> option Date.datetime) (CONFIG : Config)
    {Env : Type} (service : Service Env) (labels : list (pystr * pystr))
    (st : state Env) :
  fst (labels_list service (env st)) = Returned labels ->
  Forall (fun label => strip_prefix (ai_folder_prefix CONFIG) (fst label) = None) labels ->
  main U parsedate_to_datetime CONFIG service st
  = (Exit 1, {| env := snd (labels_list service (env st));
                trace := trace st ++ [ListLabels] |}).
Proof.
  intros Hlist Hlabels. unfold main, get_labels, bind.
  rewrite request_eq, Hlist. unfold ret.
  assert (Hnone : get_ai_auto_folders CONFIG (Dict.of_items labels) = []).
  { unfold get_ai_auto_folders.
    rewrite get_ai_auto_folders_fold;
      [|apply of_items_spec|intros c []].
    apply choose_none.
    assert (Hkeys : Forall (fun name => strip_prefix (ai_folder_prefix CONFIG) name = None)
                      (List.map fst (Dict.of_items labels))).
    { apply of_items_keys_Forall. rewrite Forall_map. exact Hlabels. }
    rewrite Forall_map in Hkeys.
    eapply Forall_impl; [exact Hkeys|]. intros label Hlabel. cbn beta in Hlabel.
    unfold category_entry. now rewrite Hlabel. }
  rewrite Hnone. reflexivity.
Qed.

Lemma main_without_categories_witness :
  main Sample.ascii_only Sample.parse_invoice_date
    (config_renamed (str "SORT_") (str "INBOX")) (Fixture.service true) (Fixture.start [])
  = (Exit 1, {| env := []; trace := [ListLabels] |}).
Proof.
  apply (main_without_categories Sample.ascii_only Sample.parse_invoice_date
           (config_renamed (str "SORT_") (str "INBOX")) (Fixture.service true)
           Fixture.labels (Fixture.start []) eq_refl).
  repeat (constructor; [reflexivity|]). constructor.
Defined.

(** When the label map has no id for the configured inbox label (no
    entry, or an empty id), the part of [main] after the example loading
    ends by [exit(1)] without any request. *)
Theorem inbox_label_missing_exits (U : Unicode)
    (parsedate_to_datetime : pystr -> option Date.datetime) (CONFIG : Config)
    {Env : Type} (service : Service Env) (all_labels_map : Dict.dict pystr)
    (ai_folders_with_examples : Dict.dict folder) (st : state Env) :
  ai_folders_with_examples <> [] ->
  Dict.get all_labels_map (inbox_label CONFIG) = None \/
  Dict.get all_labels_map (inbox_label CONFIG) = Some [] ->
  classify_inbox U parsedate_to_datetime CONFIG service all_labels_map
    ai_folders_with_examples st = (Exit 1, st).
Proof.
  intros Hcat Hlabel. unfold classify_inbox.
  destruct ai_folders_with_examples as [|entry rest]; [contradiction|].
  unfold bind, fetch_inbox_emails. now destruct Hlabel as [-> | ->].
Qed.

Lemma inbox_label_missing_exits_witness :
  classify_inbox Sample.ascii_only Sample.parse_invoice_date
    (config_renamed (str "AI_AUTO_") (str "Inbox")) (Fixture.service true)
    Fixture.all_labels_map Fixture.categories (Fixture.start [])
  = (Exit 1, Fixture.start []).
Proof.
  apply inbox_label_missing_exits; [discriminate|]. left. reflexivity.
Defined.

(** A listing of the inbox that raises, or that has no message, ends
    the run like an empty inbox: one listing request, no email analyzed,
    and a normal return. *)
Theorem inbox_listing_failure_is_empty_inbox (U : Unicode)
    (parsedate_to_datetime : pystr -> option Date.datetime) (CONFIG : Config)
    {Env : Type} (service : Service Env) (all_labels_map : Dict.dict pystr)
    (ai_folders_with_examples : Dict.dict folder) (inbox_label_id : pystr)
    (st : state Env) :
  ai_folders_with_examples <> [] ->
  Dict.get all_labels_map (inbox_label CONFIG) = Some inbox_label_id ->
  inbox_label_id <> [] ->
  let q := full_query_string U
             (List.map (fun kv => folder_id (snd kv)) ai_folders_with_examples) in
  let answer := messages_list service [inbox_label_id] (Some q)
                  (max_emails_to_scan_inbox CONFIG) (env st) in
  fst answer = Raised \/ fst answer = Returned [] ->
  classify_inbox U parsedate_to_datetime CONFIG service all_labels_map
    ai_folders_with_examples st
  = (Done None,
     {| env := snd answer;
        trace := trace st ++
          [ListMessages [inbox_label_id] (Some q) (max_emails_to_scan_inbox CONFIG)] |}).
Proof.
  intros Hcat Hlabel Hid q answer Hanswer. subst q answer. unfold classify_inbox.
  destruct ai_folders_with_examples as [|entry rest]; [contradiction|].
  unfold bind at 1. unfold fetch_inbox_emails. rewrite Hlabel.
  destruct inbox_label_id as [|ch inbox_label_id]; [contradiction|].
  unfold bind. rewrite request_eq.
  destruct Hanswer as [-> | ->]; reflexivity.
Qed.

Lemma inbox_listing_failure_is_empty_inbox_witness :
  classify_inbox Sample.ascii_only Sample.parse_invoice_date Sample.config
    Mailbox.service Fixture.all_labels_map Fixture.categories
    {| env := Mailbox.two_messages; trace := [] |}
  = (Done None,
     {| env := Mailbox.two_messages;
        trace := [ListMessages [str "INBOX"]
                    (Some (str "-in:spam -in:trash -label:L1 -label:L3"))
                    (max_emails_to_scan_inbox Sample.config)] |}).
Proof.
  apply (inbox_listing_failure_is_empty_inbox Sample.ascii_only Sample.parse_invoice_date
           Sample.config Mailbox.service Fixture.all_labels_map Fixture.categories
           (str "INBOX") {| env := Mailbox.two_messages; trace := [] |}).
  - discriminate.
  - reflexivity.
  - discriminate.
  - left. reflexivity.
Defined.

(* ================================================================== *)
(** * The order of the requests of a run *)
(* ================================================================== *)

Section Sending.
Context {Env : Type}.

Lemma only_sends_ret {A} (P : event -> Prop) (a : A) : only_sends P (@ret Env A a).
Proof. intros st. exists []. cbn. now rewrite app_nil_r. Qed.

Lemma only_sends_exit {A} (P : event -> Prop) (code : Z) : only_sends P (@exit Env A code).
Proof. intros st. exists []. cbn. now rewrite app_nil_r. Qed.

Lemma only_sends_request {A} (P : event -> Prop) (e : event)
    (f : Env -> result A * Env) :
  P e -> only_sends P (request e f).
Proof.
  intros He st. exists [e]. rewrite request_eq. cbn [snd trace].
  split; [reflexivity|]. constructor; [assumption|constructor].
Qed.

Lemma only_sends_bind {A B} (P : event -> Prop) (m : M Env A) (k : A -> M Env B) :
  only_sends P m -> (forall a, only_sends P (k a)) -> only_sends P (bind m k).
Proof.
  intros Hm Hk st. unfold bind.
  destruct (Hm st) as (sent1 & Htrace1 & Hsent1).
  destruct (m st) as [[a|code|] st1]; cbn [snd] in Htrace1.
  - destruct (Hk a st1) as (sent2 & Htrace2 & Hsent2).
    exists (sent1 ++ sent2). rewrite Htrace2, Htrace1, <- app_assoc.
    split; [reflexivity|]. apply Forall_app. now split.
  - exists sent1. now split.
  - exists sent1. now split.
Qed.

Lemma sends_then_first {A} (P Q : event -> Prop) (m : M Env A) :
  only_sends P m -> sends_then P Q m.
Proof.
  intros Hm st. destruct (Hm st) as (sent & Htrace & Hsent).
  exists sent, []. rewrite app_nil_r. repeat split; [assumption..|constructor].
Qed.

Lemma sends_then_second {A} (P Q : event -> Prop) (m : M Env A) :
  only_sends Q m -> sends_then P Q m.
Proof.
  intros Hm st. destruct (Hm st) as (sent & Htrace & Hsent).
  exists [], sent. repeat split; [assumption|constructor|assumption].
Qed.

Lemma sends_then_bind {A B} (P Q : event -> Prop) (m : M Env A) (k : A -> M Env B) :
  only_sends P m -> (forall a, sends_then P Q (k a)) -> sends_then P Q (bind m k).
Proof.
  intros Hm Hk st. unfold bind.
  destruct (Hm st) as (sent1 & Htrace1 & Hsent1).
  destruct (m st) as [[a|code|] st1]; cbn [snd] in Htrace1.
  - destruct (Hk a st1) as (first & second & Htrace2 & Hfirst & Hsecond).
    exists (sent1 ++ first), second. rewrite Htrace2, Htrace1, <- !app_assoc.
    split; [reflexivity|]. split; [|assumption]. apply Forall_app. now split.
  - exists sent1, []. rewrite app_nil_r. repeat split; [assumption..|constructor].
  - exists sent1, []. rewrite app_nil_r. repeat split; [assumption..|constructor].
Qed.

End Sending.

Section Reading.
Variable U : Unicode.
Variable parsedate_to_datetime : pystr -> option Date.datetime.
Variable CONFIG : Config.
Context {Env : Type}.
Variable service : Service Env.

Lemma load_examples_reads (messages : list pystr) (loaded : list email_content) :
  only_sends read_event
    (load_examples U parsedate_to_datetime CONFIG service messages loaded).
Proof.
  revert loaded. induction messages as [|msg messages IH]; intros loaded.
  - apply only_sends_ret.
  - cbn [load_examples]. apply only_sends_bind.
    + now apply only_sends_request.
    + intros [raw|]; [apply IH|apply only_sends_ret].
Qed.

Lemma load_folders_reads (ai_folders_map : Dict.dict folder) :
  only_sends read_event
    (load_folders U parsedate_to_datetime CONFIG service ai_folders_map).
Proof.
  induction ai_folders_map as [|[category_name folder_data] rest IH].
  - apply only_sends_ret.
  - cbn [load_folders]. apply only_sends_bind.
    + unfold load_folder. apply only_sends_bind.
      * now apply only_sends_request.
      * intros [messages|]; [|apply only_sends_ret].
        apply only_sends_bind; [apply load_examples_reads|].
        intros loaded. apply only_sends_ret.
    + intros folder_data'. apply only_sends_bind; [exact IH|].
      intros rest'. apply only_sends_ret.
Qed.

Lemma fetch_example_emails_reads (ai_folders_map : Dict.dict folder) :
  only_sends read_event
    (fetch_example_emails U parsedate_to_datetime CONFIG service ai_folders_map).
Proof.
  unfold fetch_example_emails. apply only_sends_bind; [apply load_folders_reads|].
  intros loaded. destruct (List.filter _ loaded);
    [apply only_sends_exit|apply only_sends_ret].
Qed.

Lemma fetch_contents_reads (messages_meta : list pystr) (fetched : list email_content) :
  only_sends read_event
    (fetch_contents U parsedate_to_datetime CONFIG service messages_meta fetched).
Proof.
  revert fetched. induction messages_meta as [|msg rest IH]; intros fetched.
  - apply only_sends_ret.
  - cbn [fetch_contents]. apply only_sends_bind.
    + now apply only_sends_request.
    + intros [raw|]; apply IH.
Qed.

Lemma fetch_inbox_emails_reads (all_labels_map : Dict.dict pystr)
    (ai_auto_label_ids_to_exclude : list pystr) :
  only_sends read_event
    (fetch_inbox_emails U parsedate_to_datetime CONFIG service all_labels_map
       ai_auto_label_ids_to_exclude).
Proof.
  unfold fetch_inbox_emails.
  destruct (Dict.get all_labels_map (inbox_label CONFIG)) as [[|c inbox_label_id]|];
    try apply only_sends_exit.
  apply only_sends_bind.
  - now apply only_sends_request.
  - intros [messages_meta|]; [apply fetch_contents_reads|apply only_sends_ret].
Qed.

Lemma process_inbox_classifies (all_labels_map : Dict.dict pystr)
    (categories : Dict.dict folder) (emails : list email_content) (c : counters) :
  only_sends classification_event
    (process_inbox U CONFIG service all_labels_map categories emails c).
Proof.
  intros st.
  destruct (process_sent U CONFIG service all_labels_map categories emails c st)
    as (sent & Htrace & Hreq & _).
  exists sent. split; [exact Htrace|].
  eapply Forall_impl; [exact Hreq|].
  intros e [He|(email & category & folder_meta & _ & _ & ->)]; [|exact I].
  destruct e; try contradiction; exact I.
Qed.

End Reading.

(** The requests of a run of [main], in order, however the run ends:
    the listing of the labels, then listings and fetches only (the
    examples of each category, then the inbox), and after them requests
    to the model side and relabel requests only.  Nothing is read from
    the mailbox once the first email is being classified, and nothing is
    relabelled before the inbox has been fetched. *)
Theorem main_reads_then_classifies (U : Unicode)
    (parsedate_to_datetime : pystr -> option Date.datetime) (CONFIG : Config)
    {Env : Type} (service : Service Env) (st : state Env) :
  exists reads sent,
    trace (snd (main U parsedate_to_datetime CONFIG service st))
    = trace st ++ (ListLabels :: reads) ++ sent /\
    Forall read_event reads /\ Forall classification_event sent.
Proof.
  assert (Hrest : forall all_labels_map,
            sends_then read_event classification_event
              (bind (fetch_example_emails U parsedate_to_datetime CONFIG service
                       (get_ai_auto_folders CONFIG all_labels_map))
                    (fun ai_folders_with_examples =>
                       classify_inbox U parsedate_to_datetime CONFIG service
                         all_labels_map ai_folders_with_examples))).
  { intros all_labels_map. apply sends_then_bind; [apply fetch_example_emails_reads|].
    intros categories. unfold classify_inbox.
    destruct categories as [|entry rest];
      [apply sends_then_first, only_sends_ret|].
    apply sends_then_bind; [apply fetch_inbox_emails_reads|].
    intros [|email emails]; [apply sends_then_first, only_sends_ret|].
    apply sends_then_second, only_sends_bind; [apply process_inbox_classifies|].
    intros c. apply only_sends_ret. }
  unfold main, get_labels, bind at 1 2. rewrite request_eq.
  destruct (fst (labels_list service (env st))) as [labels|].
  - unfold ret at 1.
    destruct (Hrest (Dict.of_items labels)
                {| env := snd (labels_list service (env st));
                   trace := trace st ++ [ListLabels] |})
      as (reads & sent & Htrace & Hreads & Hsent).
    exists reads, sent. split; [|now split].
    etransitivity; [exact Htrace|]. cbn [trace].
    now rewrite <- (app_assoc (trace st)).
  - exists [], []. cbn. repeat split; constructor.
Qed.

(** The reads of a run over the scripted mailbox. *)
Example fixture_run_order :
  firstn 12
    (trace (snd (main Sample.ascii_only Sample.parse_invoice_date Sample.config
                   (Fixture.service true)
                   (Fixture.start
                      [Returned (Some (str "NO")); Returned (Some (str "YES"))]))))
  = [ ListLabels;
      ListMessages [str "L1"] None 3; GetMessage (str "m1"); GetMessage (str "e1");
      ListMessages [str "L2"] None 3; GetMessage (str "e1");
      ListMessages [str "L3"] None 3; GetMessage (str "t1");
      ListMessages [str "INBOX"] (Some (str "-in:spam -in:trash -label:L1 -label:L3")) 10;
      GetMessage (str "i2"); GetMessage (str "e1"); GetMessage (str "i1") ].
Proof. vm_compute. reflexivity. Qed.

(* ================================================================== *)
(** * The categories the classification works on *)
(* ================================================================== *)

(** C4.  [fetch_example_emails] keeps exactly the loaded categories that
    have an example, in their order, and returns only if one is left;
    with none left it ends the run by [exit(1)].  What [main] hands to
    the classification part is this returned map, and the classification
    works on it alone: behind the fetch of the inbox, the requests of the
    run are those of the loop over the fetched emails and the returned
    categories, every check being one of a returned category, with its
    examples, and every move going to one.  So no category without
    examples is among those the loop iterates over. *)
Theorem C4_categories_without_examples_removed (U : Unicode)
    (parsedate_to_datetime : pystr -> option Date.datetime) (CONFIG : Config)
    {Env : Type} (service : Service Env) :
  (forall ai_folders_map st,
     exists loaded st',
       load_folders U parsedate_to_datetime CONFIG service ai_folders_map st
         = (Done loaded, st') /\
       match fetch_example_emails U parsedate_to_datetime CONFIG service
               ai_folders_map st with
       | (Done final, st'') =>
           st'' = st' /\
           final = List.filter (fun kv => has_examples (snd kv)) loaded /\
           final <> [] /\
           Forall (fun kv => examples (snd kv) <> []) final
       | (Exit code, st'') =>
           st'' = st' /\ code = 1%Z /\
           Forall (fun kv => examples (snd kv) = []) loaded
       | (Uncaught, _) => False
       end) /\
  (forall st all_labels_map st1,
     get_labels service st = (Done all_labels_map, st1) ->
     main U parsedate_to_datetime CONFIG service st =
     match fetch_example_emails U parsedate_to_datetime CONFIG service
             (get_ai_auto_folders CONFIG all_labels_map) st1 with
     | (Done final, st2) =>
         classify_inbox U parsedate_to_datetime CONFIG service all_labels_map final st2
     | (Exit code, st2) => (Exit code, st2)
     | (Uncaught, st2) => (Uncaught, st2)
     end) /\
  (forall st all_labels_map st1 final st2,
     get_labels service st = (Done all_labels_map, st1) ->
     fetch_example_emails U parsedate_to_datetime CONFIG service
       (get_ai_auto_folders CONFIG all_labels_map) st1 = (Done final, st2) ->
     let fetched :=
       fetch_inbox_emails U parsedate_to_datetime CONFIG service all_labels_map
         (List.map (fun kv => folder_id (snd kv)) final) st2 in
     let emails := match fst fetched with Done emails => emails | _ => [] end in
     Forall (fun kv => examples (snd kv) <> []) final /\
     exists sent,
       trace (snd (main U parsedate_to_datetime CONFIG service st))
       = trace (snd fetched) ++ sent /\
       inbox_requests U CONFIG all_labels_map final emails sent).
Proof.
  assert (Hstore : forall ai_folders_map st,
     exists loaded st',
       load_folders U parsedate_to_datetime CONFIG service ai_folders_map st
         = (Done loaded, st') /\
       match fetch_example_emails U parsedate_to_datetime CONFIG service
               ai_folders_map st with
       | (Done final, st'') =>
           st'' = st' /\
           final = List.filter (fun kv => has_examples (snd kv)) loaded /\
           final <> [] /\
           Forall (fun kv => examples (snd kv) <> []) final
       | (Exit code, st'') =>
           st'' = st' /\ code = 1%Z /\
           Forall (fun kv => examples (snd kv) = []) loaded
       | (Uncaught, _) => False
       end).
  { intros ai_folders_map st.
    destruct (fetch_example_emails_eq U parsedate_to_datetime CONFIG service
                ai_folders_map st) as (loaded & st' & Hload & Hfetch).
    exists loaded, st'. split; [assumption|]. rewrite Hfetch.
    destruct (List.filter _ loaded) as [|kv final] eqn:Ef.
    + repeat split.
      apply filter_nil_Forall in Ef. eapply Forall_impl; [exact Ef|].
      intros kv. apply has_examples_false.
    + repeat split; [discriminate|]. rewrite <- Ef.
      pose proof (filter_true_Forall (fun kv : pystr * folder => has_examples (snd kv)) loaded)
        as H.
      eapply Forall_impl; [exact H|]. intros kv'. apply has_examples_true. }
  assert (Hmain : forall st all_labels_map st1,
     get_labels service st = (Done all_labels_map, st1) ->
     main U parsedate_to_datetime CONFIG service st =
     match fetch_example_emails U parsedate_to_datetime CONFIG service
             (get_ai_auto_folders CONFIG all_labels_map) st1 with
     | (Done final, st2) =>
         classify_inbox U parsedate_to_datetime CONFIG service all_labels_map final st2
     | (Exit code, st2) => (Exit code, st2)
     | (Uncaught, st2) => (Uncaught, st2)
     end).
  { intros st all_labels_map st1 Hlabels.
    unfold main, bind. rewrite Hlabels.
    destruct (fetch_example_emails _ _ _ _ _ st1) as [[final|code|] st2]; reflexivity. }
  split; [exact Hstore|]. split; [exact Hmain|].
  intros st all_labels_map st1 final st2 Hlabels Hfetch fetched emails.
  destruct (Hstore (get_ai_auto_folders CONFIG all_labels_map) st1)
    as (loaded & st' & _ & Hfinal).
  rewrite Hfetch in Hfinal. destruct Hfinal as (_ & _ & Hne & Hexamples).
  split; [exact Hexamples|].
  rewrite (Hmain st all_labels_map st1 Hlabels), Hfetch.
  exact (classify_inbox_shape U CONFIG service parsedate_to_datetime all_labels_map
           final st2 Hne).
Qed.

(** The scripted run: the label [AI_AUTO_Newsletters], whose only
    message has no content, is no category of the classification; the one
    inbox email with content that is fetched first is checked against
    [Receipts] and [Travel], in this order, and nothing else. *)
Lemma C4_categories_without_examples_removed_witness :
  let script := [Returned (Some (str "NO")); Returned (Some (str "NO")); Raised; Raised;
                 Raised; Raised] in
  let st2 :=
    snd (fetch_example_emails Sample.ascii_only Sample.parse_invoice_date Sample.config
           (Fixture.service true)
           (get_ai_auto_folders Sample.config Fixture.all_labels_map)
           {| env := script; trace := [ListLabels] |}) in
  let fetched :=
    fetch_inbox_emails Sample.ascii_only Sample.parse_invoice_date Sample.config
      (Fixture.service true) Fixture.all_labels_map
      (List.map (fun kv => folder_id (snd kv)) Fixture.categories) st2 in
  let emails := match fst fetched with Done emails => emails | _ => [] end in
  Forall (fun kv => examples (snd kv) <> []) Fixture.categories /\
  exists sent,
    trace (snd (main Sample.ascii_only Sample.parse_invoice_date Sample.config
                  (Fixture.service true) (Fixture.start script)))
    = trace (snd fetched) ++ sent /\
    inbox_requests Sample.ascii_only Sample.config Fixture.all_labels_map
      Fixture.categories emails sent.
Proof.
  intros script st2.
  apply (proj2 (proj2 (C4_categories_without_examples_removed Sample.ascii_only
                         Sample.parse_invoice_date Sample.config (Fixture.service true)))
           (Fixture.start script) Fixture.all_labels_map
           {| env := script; trace := [ListLabels] |} Fixture.categories st2).
  - reflexivity.
  - vm_compute. reflexivity.
Defined.
